(** * Manifest I/O and extension-config validation (appium)

    A shallow embedding of [lib/manifest-io.js], [lib/extension-config.js]
    and [lib/driver-config.js], and the properties of the manifest store and
    of the validation pipeline.

    JavaScript objects live in an explicit heap, because several properties
    depend on object identity: the change-observing [Proxy] wraps one target
    object, [!==] compares references, and a registry holds a reference to a
    record mapping.  An object is an association list of its own enumerable
    string-keyed properties in enumeration order (array indices first, in
    ascending order, then the other names in the order of their creation).
    The values are data: undefined, null, booleans, numbers, strings and
    references to objects, arrays and proxies.  Every plain object has
    [Object.prototype] for prototype, whose members are known by their names;
    an assignment to [__proto__] creates no own property, and the prototype
    it installs is not followed.  Asynchronous functions run to completion:
    an [await] on a file system call is a call to an oracle of the
    environment, and a call that finds a promise in a handle gets what that
    promise settles to, or [Pending] when it is in flight. *)

From Stdlib Require Import ZArith NArith List String Ascii DecimalString Bool
  Lia PeanoNat.
Import ListNotations.
Open Scope string_scope.

(** ** Values and heap *)

Definition loc := nat.

Inductive jsval : Type :=
| JUndefined
| JNull
| JBool (b : bool)
| JNum (n : Z)
| JStr (s : string)
| JRef (l : loc).

Definition props := list (string * jsval).

Inductive hobj : Type :=
| HObject (ps : props)
| HArray (es : list jsval)
| HProxy (target : loc).

Definition heap := list hobj.

Definition alloc (h : heap) (o : hobj) : jsval * heap :=
  (JRef (List.length h), (h ++ [o])%list).

Fixpoint heap_set (h : heap) (l : loc) (o : hobj) : heap :=
  match h, l with
  | [], _ => []
  | _ :: t, O => o :: t
  | x :: t, S l' => x :: heap_set t l' o
  end.

Definition heap_get (h : heap) (l : loc) : option hobj := nth_error h l.

(** [a === b]: primitives by value, objects by reference. *)
Definition strict_eq (a b : jsval) : bool :=
  match a, b with
  | JUndefined, JUndefined => true
  | JNull, JNull => true
  | JBool x, JBool y => Bool.eqb x y
  | JNum x, JNum y => Z.eqb x y
  | JStr x, JStr y => String.eqb x y
  | JRef x, JRef y => Nat.eqb x y
  | _, _ => false
  end.

Definition nullish (v : jsval) : bool :=
  match v with JUndefined | JNull => true | _ => false end.

Definition truthy (v : jsval) : bool :=
  match v with
  | JUndefined | JNull => false
  | JBool b => b
  | JNum n => negb (Z.eqb n 0)
  | JStr s => negb (String.eqb s "")
  | JRef _ => true
  end.

(** [a ?? b] *)
Definition nullish_coalesce (a b : jsval) : jsval :=
  if nullish a then b else a.

(** ** Own properties *)

Fixpoint assoc_get (ps : props) (k : string) : option jsval :=
  match ps with
  | [] => None
  | (k', v) :: t => if String.eqb k' k then Some v else assoc_get t k
  end.

Definition assoc_has (ps : props) (k : string) : bool :=
  match assoc_get ps k with Some _ => true | None => false end.

Definition digit_of (c : ascii) : option N :=
  let n := N_of_ascii c in
  if (48 <=? n)%N && (n <=? 57)%N then Some (n - 48)%N else None.

Fixpoint digits (s : string) (acc : N) : option N :=
  match s with
  | EmptyString => Some acc
  | String c r =>
      match digit_of c with
      | Some d => digits r (acc * 10 + d)%N
      | None => None
      end
  end.

(** A property name is an array index when it is the canonical decimal
    numeral of an integer from 0 to 2^32 - 2. *)
Definition array_index (k : string) : option N :=
  match k with
  | EmptyString => None
  | String c r =>
      if Ascii.eqb c "0" && negb (String.eqb r "") then None
      else
        match digits k 0 with
        | Some n => if (n <=? 4294967294)%N then Some n else None
        | None => None
        end
  end.

Fixpoint assoc_replace (ps : props) (k : string) (v : jsval) : props :=
  match ps with
  | [] => []
  | (k', v') :: t =>
      if String.eqb k' k then (k', v) :: t else (k', v') :: assoc_replace t k v
  end.

(** The place of a new array index [n]: before the first index above it,
    and before the names that are no indices. *)
Fixpoint insert_index (ps : props) (k : string) (n : N) (v : jsval) : props :=
  match ps with
  | [] => [(k, v)]
  | (k', v') :: t =>
      match array_index k' with
      | Some n' =>
          if (n <? n')%N then (k, v) :: ps
          else (k', v') :: insert_index t k n v
      | None => (k, v) :: ps
      end
  end.

(** Defining the own property [k]: a property that exists keeps its place;
    a new one takes its place in the enumeration order. *)
Definition assoc_set (ps : props) (k : string) (v : jsval) : props :=
  if assoc_has ps k then assoc_replace ps k v
  else
    match array_index k with
    | Some n => insert_index ps k n v
    | None => (ps ++ [(k, v)])%list
    end.

Fixpoint assoc_del (ps : props) (k : string) : props :=
  match ps with
  | [] => []
  | (k', v') :: t =>
      if String.eqb k' k then assoc_del t k else (k', v') :: assoc_del t k
  end.

(** The names that every plain object inherits from [Object.prototype]. *)
Definition OBJECT_PROTOTYPE_NAMES : list string :=
  ["constructor"; "__defineGetter__"; "__defineSetter__"; "hasOwnProperty";
   "__lookupGetter__"; "__lookupSetter__"; "isPrototypeOf";
   "propertyIsEnumerable"; "toString"; "valueOf"; "__proto__";
   "toLocaleString"].

Definition inherited (k : string) : bool :=
  existsb (String.eqb k) OBJECT_PROTOTYPE_NAMES.

(** What [o[k]] finds on a plain object: an own property, a member of
    [Object.prototype] (a function, or the prototype itself for
    [__proto__]: no data value is identical to it), or nothing. *)
Inductive member : Type :=
| Own (v : jsval)
| Inherited
| Absent.

Definition find_member (ps : props) (k : string) : member :=
  match assoc_get ps k with
  | Some v => Own v
  | None => if inherited k then Inherited else Absent
  end.

(** [k in o] on a plain object. *)
Definition has_property (ps : props) (k : string) : bool :=
  assoc_has ps k || inherited k.

(** The own properties after [o[k] = v] on a plain object.  Without an own
    property of that name, [__proto__] is the accessor of [Object.prototype]:
    the assignment replaces the prototype or is ignored, and creates no own
    property. *)
Definition assign (ps : props) (k : string) (v : jsval) : props :=
  if String.eqb k "__proto__" && negb (assoc_has ps k) then ps
  else assoc_set ps k v.

(** A proxy made by [_createProxy] has no [get], [has] or [ownKeys] trap:
    reads go to its target. *)
Definition deref (h : heap) (l : loc) : option hobj :=
  match heap_get h l with
  | Some (HProxy t) => heap_get h t
  | o => o
  end.

Definition own_props (h : heap) (v : jsval) : props :=
  match v with
  | JRef l => match deref h l with Some (HObject ps) => ps | _ => [] end
  | _ => []
  end.

(** [v[k]] for a value that is not null or undefined and a name [k] that no
    prototype has (the field names of the records are such names): the own
    property, or undefined. *)
Definition get_prop (h : heap) (v : jsval) (k : string) : jsval :=
  match assoc_get (own_props h v) k with Some x => x | None => JUndefined end.

(** [_.toPairs(v)], for a record mapping or a proxy of one: its own
    properties in enumeration order. *)
Definition toPairs (h : heap) (v : jsval) : props := own_props h v.

(** lodash type predicates *)
Definition isString (v : jsval) : bool :=
  match v with JStr _ => true | _ => false end.

Definition isObject (v : jsval) : bool :=
  match v with JRef _ => true | _ => false end.

Definition isArray (h : heap) (v : jsval) : bool :=
  match v with
  | JRef l => match deref h l with Some (HArray _) => true | _ => false end
  | _ => false
  end.

Definition isPlainObject (h : heap) (v : jsval) : bool :=
  match v with
  | JRef l => match deref h l with Some (HObject _) => true | _ => false end
  | _ => false
  end.

Definition array_elems (h : heap) (v : jsval) : list jsval :=
  match v with
  | JRef l => match deref h l with Some (HArray es) => es | _ => [] end
  | _ => []
  end.

(** The name of the index [i]. *)
Definition index_name (i : nat) : string :=
  NilEmpty.string_of_uint (Nat.to_uint i).

Fixpoint indexed (l : list jsval) (i : nat) : props :=
  match l with
  | [] => []
  | x :: t => (index_name i, x) :: indexed t (Datatypes.S i)
  end.

(** The own enumerable properties that an object spread copies: those of an
    object, the elements of an array, the characters of a string, and none
    of any other value. *)
Definition enumerable_own (h : heap) (v : jsval) : props :=
  match v with
  | JStr s =>
      indexed (map (fun c => JStr (String c EmptyString))
                   (list_ascii_of_string s)) 0
  | JRef l =>
      match deref h l with
      | Some (HObject ps) => ps
      | Some (HArray es) => indexed es 0
      | _ => []
      end
  | _ => []
  end.

(** Whether [JSON.stringify(v)] goes through: it throws a [TypeError] when it
    meets an object that is being serialised already.  [stack] holds the
    objects being serialised; a proxy of the store is serialised through its
    target.  The depth of a walk without a repetition is at most the size of
    the heap, which bounds the fuel that is needed. *)
Fixpoint serialisable (fuel : nat) (h : heap) (stack : list loc) (v : jsval)
  : bool :=
  match v with
  | JRef l =>
      if existsb (Nat.eqb l) stack then false
      else
        match fuel with
        | O => false
        | S fuel' =>
            match heap_get h l with
            | Some (HObject ps) =>
                forallb (fun kv => serialisable fuel' h (l :: stack) (snd kv)) ps
            | Some (HArray es) =>
                forallb (serialisable fuel' h (l :: stack)) es
            | Some (HProxy t) => serialisable fuel' h (l :: stack) (JRef t)
            | None => true
            end
        end
  | _ => true
  end.

Definition JSON_stringify_ok (h : heap) (v : jsval) : bool :=
  serialisable (Datatypes.S (List.length h)) h [] v.

(** ** Errors and outcomes *)

Record jserror : Type := mkError {
  ename : string;
  code : option string;
  message : string
}.

Definition Error (msg : string) : jserror := mkError "Error" None msg.
Definition TypeError (msg : string) : jserror := mkError "TypeError" None msg.
Definition ReferenceError (msg : string) : jserror :=
  mkError "ReferenceError" None msg.

Inductive result (A : Type) : Type :=
| Ok (a : A)
| Fail (e : jserror).
Arguments Ok {A} a.
Arguments Fail {A} e.

(** How a call settles: it returns, it throws (an async function rejects),
    or it hands back the promise of a call that is already in flight. *)
Inductive outcome (A : Type) : Type :=
| Returned (a : A)
| Threw (e : jserror)
| Pending.
Arguments Returned {A} a.
Arguments Threw {A} e.
Arguments Pending {A}.

(** ** The manifest store, [ManifestIO] *)

Definition CONFIG_SCHEMA_REV : Z := 2.
Definition DRIVER_TYPE : string := "driver".
Definition PLUGIN_TYPE : string := "plugin".
Definition CONFIG_DATA_DRIVER_KEY : string := DRIVER_TYPE ++ "s".
Definition CONFIG_DATA_PLUGIN_KEY : string := PLUGIN_TYPE ++ "s".

(** The object assigned to [this._data]. *)
Record Manifest : Type := mkManifest {
  drivers : jsval;
  plugins : jsval;
  schemaRev : jsval
}.

(** The promise of a call of [write]: in flight, or settled with what the
    call returned or threw. *)
Inductive promise : Type :=
| InFlight
| Settled (r : result bool).

(** The fields of a [ManifestIO] instance.  [_dirty] and [_manifestPath] are
    declared without initializer, so they start out undefined ([None]);
    [_writing] is null ([None]) or a promise; [_reading] says whether a
    promise is stored. *)
Record ManifestIO : Type := mkIO {
  _dirty : option bool;
  _data : option Manifest;
  _appiumHome : string;
  _manifestPath : option string;
  _writing : option promise;
  _reading : bool
}.

Definition constructor (appiumHome : string) : ManifestIO :=
  mkIO None None appiumHome None None false.

Definition dirty_truthy (io : ManifestIO) : bool :=
  match _dirty io with Some b => b | None => false end.

Definition set_dirty (io : ManifestIO) (b : bool) : ManifestIO :=
  mkIO (Some b) (_data io) (_appiumHome io) (_manifestPath io)
       (_writing io) (_reading io).

Definition set_data (io : ManifestIO) (d : Manifest) : ManifestIO :=
  mkIO (_dirty io) (Some d) (_appiumHome io) (_manifestPath io)
       (_writing io) (_reading io).

Definition set_manifestPath (io : ManifestIO) (p : string) : ManifestIO :=
  mkIO (_dirty io) (_data io) (_appiumHome io) (Some p)
       (_writing io) (_reading io).

Definition set_writing (io : ManifestIO) (b : option promise) : ManifestIO :=
  mkIO (_dirty io) (_data io) (_appiumHome io) (_manifestPath io)
       b (_reading io).

Definition set_reading (io : ManifestIO) (b : bool) : ManifestIO :=
  mkIO (_dirty io) (_data io) (_appiumHome io) (_manifestPath io)
       (_writing io) b.

(** What [YAML.stringify(this._data)] is given: the properties of the two
    record mappings and the schema revision. *)
Record Snapshot : Type := mkSnapshot {
  snap_drivers : props;
  snap_plugins : props;
  snap_schemaRev : jsval
}.

Definition snapshot (h : heap) (d : Manifest) : Snapshot :=
  mkSnapshot (own_props h (drivers d)) (own_props h (plugins d)) (schemaRev d).

(** Calls made to the collaborators, in order. *)
Inductive event : Type :=
| EvGetManifestPath (home : string)
| EvReadFile (path : string)
| EvMkdirp (dir : string)
| EvWriteFile (path : string) (content : Snapshot).

Definition is_write (e : event) : bool :=
  match e with EvWriteFile _ _ => true | _ => false end.

(** The heap, the one store of a home directory, and the calls so far. *)
Record World : Type := mkWorld {
  w_heap : heap;
  w_io : ManifestIO;
  w_trace : list event
}.

Definition with_heap (w : World) (h : heap) : World :=
  mkWorld h (w_io w) (w_trace w).
Definition with_io (w : World) (io : ManifestIO) : World :=
  mkWorld (w_heap w) io (w_trace w).
Definition emit (w : World) (e : event) : World :=
  mkWorld (w_heap w) (w_io w) (w_trace w ++ [e])%list.

(** *** Property writes, through the proxy or not *)

(** Assignment to and deletion from a plain object; the mappings of the
    store and of the registries are plain objects. *)
Definition obj_set (h : heap) (l : loc) (k : string) (v : jsval) : heap :=
  match heap_get h l with
  | Some (HObject ps) => heap_set h l (HObject (assign ps k v))
  | _ => h
  end.

Definition obj_del (h : heap) (l : loc) (k : string) : heap :=
  match heap_get h l with
  | Some (HObject ps) => heap_set h l (HObject (assoc_del ps k))
  | _ => h
  end.

(** [value !== target[prop]] *)
Definition differs (h : heap) (target : loc) (prop : string) (value : jsval)
  : bool :=
  match find_member (own_props h (JRef target)) prop with
  | Own current => negb (strict_eq value current)
  | Inherited => true
  | Absent => negb (strict_eq value JUndefined)
  end.

(** The [set] trap of [_createProxy]: the comparison, the assignment to the
    target, and [Reflect.set] on the target. *)
Definition proxy_set (w : World) (target : loc) (prop : string) (value : jsval)
  : World :=
  let w1 :=
    if differs (w_heap w) target prop value
    then with_io w (set_dirty (w_io w) true)
    else w in
  let w2 := with_heap w1 (obj_set (w_heap w1) target prop value) in
  with_heap w2 (obj_set (w_heap w2) target prop value).

(** The [deleteProperty] trap of [_createProxy]: [prop in target], then
    [Reflect.deleteProperty]. *)
Definition proxy_delete (w : World) (target : loc) (prop : string) : World :=
  let w1 :=
    if has_property (own_props (w_heap w) (JRef target)) prop
    then with_io w (set_dirty (w_io w) true)
    else w in
  with_heap w1 (obj_del (w_heap w1) target prop).

(** [o[k] = v] *)
Definition set_prop (w : World) (o : jsval) (k : string) (v : jsval) : World :=
  match o with
  | JRef l =>
      match heap_get (w_heap w) l with
      | Some (HProxy t) => proxy_set w t k v
      | Some (HObject _) => with_heap w (obj_set (w_heap w) l k v)
      | _ => w
      end
  | _ => w
  end.

(** [delete o[k]] *)
Definition delete_prop (w : World) (o : jsval) (k : string) : World :=
  match o with
  | JRef l =>
      match heap_get (w_heap w) l with
      | Some (HProxy t) => proxy_delete w t k
      | Some (HObject _) => with_heap w (obj_del (w_heap w) l k)
      | _ => w
      end
  | _ => w
  end.

(** ** The environment: [env], [fs], [mkdirp], [path] and [YAML] *)

(** A parsed YAML document, before it is allocated as objects. *)
#[warnings="-register-all"] Inductive yaml : Type :=
| YNull
| YBool (b : bool)
| YNum (n : Z)
| YStr (s : string)
| YSeq (items : list yaml)
| YMap (entries : list (string * yaml)).

(** The value that [YAML.parse] makes of a document: a map becomes a plain
    object on which its entries are defined one after the other. *)
Fixpoint alloc_yaml (y : yaml) (h : heap) : jsval * heap :=
  match y with
  | YNull => (JNull, h)
  | YBool b => (JBool b, h)
  | YNum n => (JNum n, h)
  | YStr s => (JStr s, h)
  | YSeq items =>
      let '(vs, h1) :=
        (fix go (l : list yaml) (h0 : heap) : list jsval * heap :=
           match l with
           | [] => ([], h0)
           | x :: t =>
               let '(v, h') := alloc_yaml x h0 in
               let '(vs, h'') := go t h' in
               (v :: vs, h'')
           end) items h in
      alloc h1 (HArray vs)
  | YMap entries =>
      let '(ps, h1) :=
        (fix go (l : list (string * yaml)) (acc : props) (h0 : heap)
           : props * heap :=
           match l with
           | [] => (acc, h0)
           | (k, x) :: t =>
               let '(v, h') := alloc_yaml x h0 in
               go t (assoc_set acc k v) h'
           end) entries [] h in
      alloc h1 (HObject ps)
  end.

Record Env : Type := mkEnv {
  env_getManifestPath : string -> result string;
  fs_readFile : string -> result string;
  YAML_parse : string -> result yaml;
  path_dirname : string -> string;
  mkdirp : string -> option jserror;
  fs_writeFile : string -> Snapshot -> option jserror
}.

Definition read_error_message (p cause : string) : string :=
  "Appium had trouble loading the extension installation " ++
  "cache file (" ++ p ++ "). Ensure it exists and is " ++
  "readable. Specific error: " ++ cause.

Definition unknown_error_message (cause : string) : string :=
  "Appium encountered an unknown problem. Specific error: " ++ cause.

Definition write_error_message (p home cause : string) : string :=
  "Appium could not write to manifest at " ++ p ++ " using APPIUM_HOME " ++
  home ++ ". " ++ "Please ensure it is writable. Original error: " ++ cause.

Definition no_data_message : string := "No data to write. Call `read()` first".

Section Store.

Variable E : Env.

(** [this._manifestPath = this._manifestPath ?? (await env.getManifestPath(this._appiumHome))] *)
Definition resolve_path (w : World) : result string * World :=
  match _manifestPath (w_io w) with
  | Some p => (Ok p, w)
  | None =>
      let home := _appiumHome (w_io w) in
      let w1 := emit w (EvGetManifestPath home) in
      match env_getManifestPath E home with
      | Ok p => (Ok p, with_io w1 (set_manifestPath (w_io w1) p))
      | Fail e => (Fail e, w1)
      end
  end.

(** The async function stored in [this._writing], without its [finally]. *)
Definition write_body (force : bool) (w : World) : result bool * World :=
  if negb (dirty_truthy (w_io w)) && negb force then (Ok false, w)
  else
    match _data (w_io w) with
    | None => (Fail (ReferenceError no_data_message), w)
    | Some _ =>
        match resolve_path w with
        | (Fail e, w1) => (Fail e, w1)
        | (Ok p, w1) =>
            let home := _appiumHome (w_io w1) in
            let dir := path_dirname E p in
            let w2 := emit w1 (EvMkdirp dir) in
            match mkdirp E dir with
            | Some err =>
                (Fail (Error (write_error_message p home (message err))), w2)
            | None =>
                match _data (w_io w2) with
                | None => (Fail (ReferenceError no_data_message), w2)
                | Some d =>
                    let content := snapshot (w_heap w2) d in
                    let w3 := emit w2 (EvWriteFile p content) in
                    match fs_writeFile E p content with
                    | Some err =>
                        (Fail (Error (write_error_message p home (message err))),
                         w3)
                    | None => (Ok true, with_io w3 (set_dirty (w_io w3) false))
                    end
                end
            end
        end
    end.

Definition settle {A : Type} (r : result A) : outcome A :=
  match r with Ok a => Returned a | Fail e => Threw e end.

(** Whether the body of [write] ends before its first [await]: it returns at
    the check of the flag, or throws at the check of the data.  Past these
    two, it awaits [env.getManifestPath] or [mkdirp]. *)
Definition ends_before_await (force : bool) (w : World) : bool :=
  (negb (dirty_truthy (w_io w)) && negb force) ||
  match _data (w_io w) with None => true | Some _ => false end.

(** [ManifestIO.write].  A promise found in [this._writing] is returned as it
    is.  Otherwise the body runs; its [finally] sets [this._writing] to null
    when the body ends, and [this._writing = (async () => {...})()] stores
    the promise when the body reaches its first [await] or, without one, when
    the body has ended: in that case the assignment comes last and the
    settled promise stays in the handle. *)
Definition write (force : bool) (w : World) : outcome bool * World :=
  match _writing (w_io w) with
  | Some InFlight => (Pending, w)
  | Some (Settled r) => (settle r, w)
  | None =>
      let '(r, w1) := write_body force w in
      let handle :=
        if ends_before_await force w then Some (Settled r) else None in
      (settle r, with_io w1 (set_writing (w_io w1) handle))
  end.

(** [ManifestIO._createProxy]: [new Proxy(manifest[extTypeKey + 's'], ...)] *)
Definition _createProxy (extTypeKey : string) (manifest : jsval) (h : heap)
  : result jsval * heap :=
  if nullish manifest
  then (Fail (TypeError "Cannot read properties of null or undefined"), h)
  else
    match get_prop h manifest (extTypeKey ++ "s") with
    | JRef t => let '(p, h') := alloc h (HProxy t) in (Ok p, h')
    | _ =>
        (Fail (TypeError
                 "Cannot create proxy with a non-object as target or handler"),
         h)
    end.

(** The [try]/[catch] of [read]: the parsed file, the skeleton of a new
    file, or the error that is thrown. *)
Definition load_data (p : string) (h : heap) : result (jsval * bool) * heap :=
  let parsed :=
    match fs_readFile E p with
    | Ok text => YAML_parse E text
    | Fail e => Fail e
    end in
  match parsed with
  | Ok y => let '(data, h') := alloc_yaml y h in (Ok (data, false), h')
  | Fail err =>
      match code err with
      | Some "ENOENT" =>
          let '(d, h1) := alloc h (HObject []) in
          let '(pl, h2) := alloc h1 (HObject []) in
          let '(data, h3) :=
            alloc h2 (HObject [(CONFIG_DATA_DRIVER_KEY, d);
                               (CONFIG_DATA_PLUGIN_KEY, pl)]) in
          (Ok (data, true), h3)
      | _ =>
          if negb (String.eqb p "")
          then (Fail (Error (read_error_message p (message err))), h)
          else (Fail (Error (unknown_error_message (message err))), h)
      end
  end.

(** The async function stored in [this._reading]. *)
Definition read_body (w : World) : outcome unit * World :=
  match resolve_path w with
  | (Fail e, w1) => (Threw e, w1)
  | (Ok p, w1) =>
      let w2 := emit w1 (EvReadFile p) in
      match load_data p (w_heap w2) with
      | (Fail e, h) => (Threw e, with_heap w2 h)
      | (Ok (data, isNewFile), h) =>
          match _createProxy DRIVER_TYPE data h with
          | (Fail e, h1) => (Threw e, with_heap w2 h1)
          | (Ok dp, h1) =>
              match _createProxy PLUGIN_TYPE data h1 with
              | (Fail e, h2) => (Threw e, with_heap w2 h2)
              | (Ok pp, h2) =>
                  let rev :=
                    nullish_coalesce (get_prop h2 data "schemaRev")
                                     (JNum CONFIG_SCHEMA_REV) in
                  let w3 := with_heap w2 h2 in
                  let w4 := with_io w3 (set_data (w_io w3)
                                          (mkManifest dp pp rev)) in
                  if isNewFile
                  then
                    match write true w4 with
                    | (Returned _, w5) => (Returned tt, w5)
                    | (Threw e, w5) => (Threw e, w5)
                    | (Pending, w5) => (Pending, w5)
                    end
                  else (Returned tt, w4)
              end
          end
      end
  end.

(** [ManifestIO.read] *)
Definition read (force : bool) (w : World)
  : outcome (option Manifest) * World :=
  match _data (w_io w), force with
  | Some d, false => (Returned (Some d), w)
  | _, _ =>
      if _reading (w_io w) then (Pending, w)
      else
        let w0 := with_io w (set_reading (w_io w) true) in
        let '(r, w1) := read_body w0 in
        let w2 := with_io w1 (set_reading (w_io w1) false) in
        match r with
        | Returned _ => (Returned (_data (w_io w2)), w2)
        | Threw e => (Threw e, w2)
        | Pending => (Pending, w2)
        end
  end.

End Store.

(** ** Extension registries: [ExtensionConfig] and its subclasses *)

Inductive ExtensionType : Type := Driver | Plugin.

Definition type_name (t : ExtensionType) : string :=
  match t with Driver => DRIVER_TYPE | Plugin => PLUGIN_TYPE end.

(** A validation finding, [{err, val}]. *)
Record Problem : Type := mkProblem {
  err : string;
  val : jsval
}.

(** A call of [this.log]; the value of a problem is kept as it is, where the
    source prints [JSON.stringify(problem.val)]. *)
Inductive log_line : Type :=
| LogHeader (configKey : string) (manifestPath : option string)
| LogExtension (extType extName : string)
| LogProblem (p : Problem).

(** [const {...} = extData] throws on null and undefined. *)
Definition destructure (extData : jsval) : result unit :=
  if nullish extData
  then Fail (TypeError "Cannot destructure extData as it is null or undefined")
  else Ok tt.

Definition INSTALL_TYPE_NPM : string := "npm".
Definition INSTALL_TYPE_LOCAL : string := "local".
Definition INSTALL_TYPE_GITHUB : string := "github".
Definition INSTALL_TYPE_GIT : string := "git".
Definition INSTALL_TYPES : list string :=
  [INSTALL_TYPE_GIT; INSTALL_TYPE_GITHUB; INSTALL_TYPE_LOCAL; INSTALL_TYPE_NPM].

(** [_.includes(list, v)] on a list of strings *)
Definition includes (l : list string) (v : jsval) : bool :=
  existsb (fun s => strict_eq (JStr s) v) l.

(** [Set.prototype.has], on values without NaN *)
Definition set_has (s : list jsval) (v : jsval) : bool :=
  existsb (strict_eq v) s.

(** [Set.prototype.add] *)
Definition set_add (s : list jsval) (v : jsval) : list jsval :=
  if set_has s v then s else (s ++ [v])%list.

Definition ERR_VERSION : string := "Missing or incorrect version".
Definition ERR_PKGNAME : string := "Missing or incorrect NPM package name".
Definition ERR_INSTALLSPEC : string := "Missing or incorrect installation spec".
Definition ERR_INSTALLTYPE : string := "Missing or incorrect install type".
Definition ERR_INSTALLPATH : string := "Missing or incorrect installation path".
Definition ERR_MAINCLASS : string := "Missing or incorrect driver class name".
Definition ERR_PLATFORMS_TYPE : string :=
  "Missing or incorrect supported platformNames list.".
Definition ERR_PLATFORMS_EMPTY : string := "Empty platformNames list.".
Definition ERR_PLATFORM_ELEMENT : string := "Incorrectly formatted platformName.".
Definition ERR_AUTOMATION_NAME : string := "Missing or incorrect automationName".
Definition ERR_DUPLICATE : string :=
  "Multiple drivers claim support for the same automationName".
Definition ERR_SCHEMA_FORMAT : string :=
  "Incorrectly formatted schema field; must be a path to a schema file or a schema object.".

(** [if (cond) problems.push({err, val})] *)
Definition push_if (cond : bool) (e : string) (v : jsval) : list Problem :=
  if cond then [mkProblem e v] else [].

(** The collaborators of the schema check, from [./schema/schema] and the
    module loader.  [readExtensionSchema] stands for the method of that name,
    which resolves, loads and registers the schema: it gives the message of
    the error thrown, if any. *)
Record SchemaLib : Type := mkSchemaLib {
  isAllowedSchemaFileExtension : string -> bool;
  ALLOWED_SCHEMA_EXTENSIONS : list string;
  readExtensionSchema :
    heap -> ExtensionType -> string -> jsval -> option string
}.

Module ExtensionConfig.

(** The fields of a registry.  [knownAutomationNames] belongs to the
    [DriverConfig] subclass; [logged] collects the calls of [this.log]; the
    [io] field is the store of the world. *)
Record t : Type := mk {
  extensionType : ExtensionType;
  installedExtensions : jsval;
  knownAutomationNames : list jsval;
  logged : list log_line
}.

Definition configKey (c : t) : string := type_name (extensionType c) ++ "s".

Definition with_known (c : t) (s : list jsval) : t :=
  mk (extensionType c) (installedExtensions c) s (logged c).

Definition log (c : t) (l : list log_line) : t :=
  mk (extensionType c) (installedExtensions c) (knownAutomationNames c)
     (logged c ++ l)%list.

(** [ExtensionConfig.constructor]: [this.installedExtensions = {}] *)
Definition constructor (extensionType : ExtensionType) (h : heap) : t * heap :=
  let '(o, h') := alloc h (HObject []) in
  (mk extensionType o [] [], h').

(** [ExtensionConfig.getGenericConfigProblems] *)
Definition getGenericConfigProblems (h : heap) (extData : jsval)
  : result (list Problem) :=
  match destructure extData with
  | Fail e => Fail e
  | Ok _ =>
      let version := get_prop h extData "version" in
      let pkgName := get_prop h extData "pkgName" in
      let installSpec := get_prop h extData "installSpec" in
      let installType := get_prop h extData "installType" in
      let installPath := get_prop h extData "installPath" in
      let mainClass := get_prop h extData "mainClass" in
      Ok (push_if (negb (isString version)) ERR_VERSION version ++
          push_if (negb (isString pkgName)) ERR_PKGNAME pkgName ++
          push_if (negb (isString installSpec)) ERR_INSTALLSPEC installSpec ++
          push_if (negb (includes INSTALL_TYPES installType))
                  ERR_INSTALLTYPE installType ++
          push_if (negb (isString installPath)) ERR_INSTALLPATH installPath ++
          push_if (negb (isString mainClass)) ERR_MAINCLASS mainClass)%list
  end.

(** [ExtensionConfig.extDataHasSchema]: [extData?.schema] is a string or an
    object. *)
Definition extDataHasSchema (h : heap) (extData : jsval) : bool :=
  let schema :=
    if nullish extData then JUndefined else get_prop h extData "schema" in
  isString schema || isObject schema.

Section Schema.

Variable S : SchemaLib.

Definition unsupported_extension_message : string :=
  "Schema file has unsupported extension. Allowed: " ++
  String.concat ", " (ALLOWED_SCHEMA_EXTENSIONS S).

(** [ExtensionConfig.getSchemaProblems] *)
Definition getSchemaProblems (c : t) (h : heap) (extData : jsval)
  (extName : string) : result (list Problem) :=
  match destructure extData with
  | Fail e => Fail e
  | Ok _ =>
      let argSchemaPath := get_prop h extData "schema" in
      if extDataHasSchema h extData then
        match argSchemaPath with
        | JStr s =>
            if isAllowedSchemaFileExtension S s then
              match readExtensionSchema S h (extensionType c) extName extData with
              | Some msg =>
                  Ok [mkProblem
                        ("Unable to register schema at path " ++ s ++ "; " ++ msg)
                        argSchemaPath]
              | None => Ok []
              end
            else Ok [mkProblem unsupported_extension_message argSchemaPath]
        | _ =>
            if isPlainObject h argSchemaPath then
              match readExtensionSchema S h (extensionType c) extName extData with
              | Some msg =>
                  Ok [mkProblem ("Unable to register embedded schema; " ++ msg)
                                argSchemaPath]
              | None => Ok []
              end
            else Ok [mkProblem ERR_SCHEMA_FORMAT argSchemaPath]
        end
      else Ok []
  end.

(** The type-specific hook, [this.getConfigProblems(extData)]: the subclass
    supplies it, and it may update the registry. *)
Variable getConfigProblems : t -> heap -> jsval -> result (list Problem) * t.

(** The three checks of one entry, in the order of the array literal. *)
Definition entry_problems (c : t) (h : heap) (extName : string)
  (extData : jsval) : result (list Problem) * t :=
  match getGenericConfigProblems h extData with
  | Fail e => (Fail e, c)
  | Ok generic =>
      match getConfigProblems c h extData with
      | (Fail e, c1) => (Fail e, c1)
      | (Ok specific, c1) =>
          match getSchemaProblems c1 h extData extName with
          | Fail e => (Fail e, c1)
          | Ok schema => (Ok (generic ++ specific ++ schema)%list, c1)
          end
      end
  end.

(** [foundProblems], an object made by [{}]: its own properties. *)
Definition found := list (string * list Problem).

Fixpoint found_put (f : found) (k : string) (ps : list Problem) : found :=
  match f with
  | [] => [(k, ps)]
  | (k', ps') :: r =>
      if String.eqb k' k then (k', ps) :: r else (k', ps') :: found_put r k ps
  end.

(** [foundProblems[k] = ps].  The object never has an own property
    [__proto__], so an assignment to that name goes to the accessor of
    [Object.prototype]: the array becomes the prototype and no own property
    is made.  The names reach this assignment in the enumeration order of the
    mapping, so the order of their creation is their enumeration order. *)
Definition found_set (f : found) (k : string) (ps : list Problem) : found :=
  if String.eqb k "__proto__" then f else found_put f k ps.

(** First loop of [validate]: [foundProblems[extName] = [...]]. *)
Fixpoint collect (c : t) (h : heap) (pairs : props) (acc : found)
  : result found * t :=
  match pairs with
  | [] => (Ok acc, c)
  | (extName, extData) :: rest =>
      match entry_problems c h extName extData with
      | (Fail e, c1) => (Fail e, c1)
      | (Ok ps, c1) => collect c1 h rest (found_set acc extName ps)
      end
  end.

Definition circular_structure : jserror :=
  TypeError "Converting circular structure to JSON".

(** Second loop of [validate]: delete the entries with problems and build
    [problemSummaries]; [JSON.stringify(problem.val)] throws on a value that
    cannot be serialised, after the entry was deleted. *)
Fixpoint prune (c : t) (exts : jsval) (f : found) (w : World)
  : result (list log_line) * World :=
  match f with
  | [] => (Ok [], w)
  | (extName, problems) :: rest =>
      match problems with
      | [] => prune c exts rest w
      | _ :: _ =>
          let w1 := delete_prop w exts extName in
          if forallb (fun p => JSON_stringify_ok (w_heap w1) (val p)) problems
          then
            match prune c exts rest w1 with
            | (Ok lines, w2) =>
                (Ok ((LogExtension (type_name (extensionType c)) extName
                        :: map LogProblem problems) ++ lines)%list, w2)
            | (Fail e, w2) => (Fail e, w2)
            end
          else (Fail circular_structure, w1)
      end
  end.

(** [ExtensionConfig.validate] *)
Definition validate (c : t) (exts : jsval) (w : World)
  : result jsval * t * World :=
  match collect c (w_heap w) (toPairs (w_heap w) exts) [] with
  | (Fail e, c1) => (Fail e, c1, w)
  | (Ok foundProblems, c1) =>
      match prune c1 exts foundProblems w with
      | (Fail e, w1) => (Fail e, c1, w1)
      | (Ok problemSummaries, w1) =>
          let c2 :=
            match problemSummaries with
            | [] => c1
            | _ :: _ =>
                log c1 (LogHeader (configKey c1) (_manifestPath (w_io w1))
                          :: problemSummaries)
            end in
          (Ok exts, c2, w1)
      end
  end.

End Schema.

(** [ExtensionConfig.getConfigProblems], the default of the hook *)
Definition getConfigProblems (c : t) (h : heap) (extData : jsval)
  : result (list Problem) * t := (Ok [], c).

Definition void (r : outcome bool * World) : outcome unit * World :=
  match r with
  | (Returned _, w) => (Returned tt, w)
  | (Threw e, w) => (Threw e, w)
  | (Pending, w) => (Pending, w)
  end.

(** [ExtensionConfig.addExtension] *)
Definition addExtension (E : Env) (c : t) (extName : string) (extData : jsval)
  (w : World) : outcome unit * World :=
  let w1 := set_prop w (installedExtensions c) extName extData in
  void (write E false w1).

(** [{...a, ...b}]: the own enumerable properties of [a], then those of
    [b], each defined on the new object. *)
Definition spread (h : heap) (a b : jsval) : props :=
  fold_left (fun acc kv => assoc_set acc (fst kv) (snd kv))
            (enumerable_own h b)
            (fold_left (fun acc kv => assoc_set acc (fst kv) (snd kv))
                       (enumerable_own h a) []).

(** [this.installedExtensions[extName]] as the source of a spread: a member
    of [Object.prototype] has no own enumerable property, like undefined. *)
Definition current_record (h : heap) (exts : jsval) (extName : string)
  : jsval :=
  match find_member (own_props h exts) extName with
  | Own record => record
  | Inherited | Absent => JUndefined
  end.

(** [ExtensionConfig.updateExtension] *)
Definition updateExtension (E : Env) (c : t) (extName : string)
  (extData : jsval) (w : World) : outcome unit * World :=
  let h := w_heap w in
  let current := current_record h (installedExtensions c) extName in
  let '(merged, h1) := alloc h (HObject (spread h current extData)) in
  let w1 := set_prop (with_heap w h1) (installedExtensions c) extName merged in
  void (write E false w1).

(** [ExtensionConfig.removeExtension] *)
Definition removeExtension (E : Env) (c : t) (extName : string) (w : World)
  : outcome unit * World :=
  let w1 := delete_prop w (installedExtensions c) extName in
  void (write E false w1).

(** [ExtensionConfig.isInstalled] *)
Definition isInstalled (c : t) (h : heap) (extName : string) : bool :=
  assoc_has (own_props h (installedExtensions c)) extName.

End ExtensionConfig.

Module DriverConfig.

Import ExtensionConfig.

(** The loop over [platformNames]. *)
Definition element_problems (es : list jsval) : list Problem :=
  flat_map (fun pName => push_if (negb (isString pName))
                                 ERR_PLATFORM_ELEMENT pName) es.

(** [DriverConfig.getConfigProblems] *)
Definition getConfigProblems (c : t) (h : heap) (extData : jsval)
  : result (list Problem) * t :=
  match destructure extData with
  | Fail e => (Fail e, c)
  | Ok _ =>
      let platformNames := get_prop h extData "platformNames" in
      let automationName := get_prop h extData "automationName" in
      let platform :=
        if negb (isArray h platformNames)
        then [mkProblem ERR_PLATFORMS_TYPE platformNames]
        else
          match array_elems h platformNames with
          | [] => [mkProblem ERR_PLATFORMS_EMPTY platformNames]
          | es => element_problems es
          end in
      let name :=
        push_if (negb (isString automationName))
                ERR_AUTOMATION_NAME automationName in
      let duplicate :=
        push_if (set_has (knownAutomationNames c) automationName)
                ERR_DUPLICATE automationName in
      (Ok (platform ++ name ++ duplicate)%list,
       with_known c (set_add (knownAutomationNames c) automationName))
  end.

(** [DriverConfig.validate] *)
Definition validate (S : SchemaLib) (c : t) (exts : jsval) (w : World)
  : result jsval * t * World :=
  ExtensionConfig.validate S getConfigProblems (with_known c []) exts w.

(** [new DriverConfig(io, {logFn, extData})] *)
Definition constructor (S : SchemaLib) (extData : jsval) (w : World)
  : result t * World :=
  let '(c, h) := ExtensionConfig.constructor Driver (w_heap w) in
  let w1 := with_heap w h in
  if truthy extData then
    match validate S c extData w1 with
    | (Ok _, c1, w2) => (Ok c1, w2)
    | (Fail e, _, w2) => (Fail e, w2)
    end
  else (Ok c, w1).

(** [DriverConfig.create]; the table [_instances] of the class is left out. *)
Definition create (S : SchemaLib) (extData : jsval) (w : World)
  : result t * World := constructor S extData w.

End DriverConfig.

Module PluginConfig.

Import ExtensionConfig.

(** Modelled from the spec: [lib/plugin-config.js] is missing.  The plugin
    registry has no rule beyond the generic ones, so it keeps the hook and
    the [validate] of the base class, and [create] validates the records it
    is given like the driver registry does. *)
Definition validate (S : SchemaLib) (c : t) (exts : jsval) (w : World)
  : result jsval * t * World :=
  ExtensionConfig.validate S ExtensionConfig.getConfigProblems c exts w.

Definition create (S : SchemaLib) (extData : jsval) (w : World)
  : result t * World :=
  let '(c, h) := ExtensionConfig.constructor Plugin (w_heap w) in
  let w1 := with_heap w h in
  if truthy extData then
    match validate S c extData w1 with
    | (Ok _, c1, w2) => (Ok c1, w2)
    | (Fail e, _, w2) => (Fail e, w2)
    end
  else (Ok c, w1).

End PluginConfig.

(** The registries made by [loadExtensions]. *)
Record ExtensionConfigs : Type := mkConfigs {
  driverConfig : ExtensionConfig.t;
  pluginConfig : ExtensionConfig.t
}.

(** [loadExtensions]; the world holds the store that
    [getManifestIOInstance(appiumHome)] gives. *)
Definition loadExtensions (E : Env) (S : SchemaLib) (w : World)
  : outcome ExtensionConfigs * World :=
  match read E false w with
  | (Pending, w1) => (Pending, w1)
  | (Threw e, w1) => (Threw e, w1)
  | (Returned None, w1) =>
      (Threw (TypeError "Cannot destructure the manifest as it is undefined"),
       w1)
  | (Returned (Some m), w1) =>
      match DriverConfig.create S (drivers m) w1 with
      | (Fail e, w2) => (Threw e, w2)
      | (Ok dc, w2) =>
          match PluginConfig.create S (plugins m) w2 with
          | (Fail e, w3) => (Threw e, w3)
          | (Ok pc, w3) => (Returned (mkConfigs dc pc), w3)
          end
      end
  end.

(** ** Reading aids for the statements *)

(** The path a call works with: the cached one, or what the environment
    resolves for the home directory. *)
Definition resolved_path (E : Env) (io : ManifestIO) : result string :=
  match _manifestPath io with
  | Some p => Ok p
  | None => env_getManifestPath E (_appiumHome io)
  end.

(** The lookup that resolving the path costs. *)
Definition path_events (io : ManifestIO) : list event :=
  match _manifestPath io with
  | Some _ => []
  | None => [EvGetManifestPath (_appiumHome io)]
  end.

(** The outcome of [fs.readFile] followed by [YAML.parse]. *)
Definition read_and_parse (E : Env) (p : string) : result yaml :=
  match fs_readFile E p with
  | Ok text => YAML_parse E text
  | Fail e => Fail e
  end.

Definition is_ENOENT (e : jserror) : bool :=
  match code e with
  | Some c => String.eqb c "ENOENT"
  | None => false
  end.

(** The first failure of the file-system step of [write], if there is one. *)
Definition fs_step_failure (E : Env) (p : string) (content : Snapshot)
  : option jserror :=
  match mkdirp E (path_dirname E p) with
  | Some e => Some e
  | None => fs_writeFile E p content
  end.

Definition has_err (e : string) (ps : list Problem) : bool :=
  existsb (fun p => String.eqb (err p) e) ps.

Definition count_err (e : string) (ps : list Problem) : nat :=
  List.length (filter (fun p => String.eqb (err p) e) ps).

Definition keys {A : Type} (l : list (string * A)) : list string := map fst l.

(** [foundProblems[k]] *)
Fixpoint found_get (f : ExtensionConfig.found) (k : string)
  : option (list Problem) :=
  match f with
  | [] => None
  | (k', ps) :: r => if String.eqb k' k then Some ps else found_get r k
  end.

(** The [automationName] of a record. *)
Definition automationName (h : heap) (extData : jsval) : jsval :=
  get_prop h extData "automationName".

(** The registry as it is once the entries [pairs] have been checked. *)
Fixpoint registry_after (S : SchemaLib)
  (hook : ExtensionConfig.t -> heap -> jsval ->
          result (list Problem) * ExtensionConfig.t)
  (c : ExtensionConfig.t) (h : heap) (pairs : props) : ExtensionConfig.t :=
  match pairs with
  | [] => c
  | (k, d) :: rest =>
      registry_after S hook
        (snd (ExtensionConfig.entry_problems S hook c h k d)) h rest
  end.

(** The entry [k] was checked and has an empty problem list. *)
Definition no_problems (f : ExtensionConfig.found) (k : string) : bool :=
  match found_get f k with
  | Some [] => true
  | _ => false
  end.

(** [exts] refers to the record mapping stored at [t], either directly or
    through a proxy of the store; [ps] are its entries. *)
Definition mapping_at (h : heap) (exts : jsval) (t : loc) (ps : props) : Prop :=
  exists l,
    exts = JRef l /\
    ((l = t /\ heap_get h l = Some (HObject ps)) \/
     (heap_get h l = Some (HProxy t) /\ heap_get h t = Some (HObject ps))).

(** The names that the second loop of [validate] deletes. *)
Definition pruned_names (f : ExtensionConfig.found) : list string :=
  flat_map (fun kp => match snd kp with [] => [] | _ :: _ => [fst kp] end) f.

(** The word for a type of extension in the messages. *)
Definition kind_word (t : ExtensionType) : string :=
  match t with Driver => "driver" | Plugin => "plugin" end.

(** The lines of the report for one entry of [foundProblems]: none when the
    entry has no problem, else the line that names the entry and one line
    for each problem. *)
Definition report_entry (t : ExtensionType) (kp : string * list Problem)
  : list log_line :=
  match snd kp with
  | [] => []
  | _ :: _ => LogExtension (kind_word t) (fst kp) :: map LogProblem (snd kp)
  end.

(** The batch report of a validation pass: nothing when no entry has a
    problem, else the header and the lines of the entries in their order. *)
Definition report (t : ExtensionType) (path : option string)
  (f : ExtensionConfig.found) : list log_line :=
  match flat_map (report_entry t) f with
  | [] => []
  | line :: lines => LogHeader (kind_word t ++ "s") path :: line :: lines
  end.

(** [h'] is [h] after own properties of some of its objects were deleted. *)
Definition heap_pruned (h h' : heap) : Prop :=
  List.length h' = List.length h /\
  forall l,
    heap_get h' l = heap_get h l \/
    exists ps ps',
      heap_get h l = Some (HObject ps) /\
      heap_get h' l = Some (HObject ps') /\
      incl ps' ps.

(** ** Sample environments and worlds *)

Definition sample_home : string := "/home/user/.appium".
Definition sample_path : string := "/home/user/.appium/extensions.yaml".

Definition ENOENT_error : jserror :=
  mkError "Error" (Some "ENOENT") "no such file or directory".
Definition EACCES_error : jserror :=
  mkError "Error" (Some "EACCES") "permission denied".

(** No manifest file yet; every write succeeds. *)
Definition env_absent : Env :=
  mkEnv (fun home => Ok (home ++ "/extensions.yaml"))
        (fun _ => Fail ENOENT_error)
        (fun _ => Ok YNull)
        (fun _ => "/home/user/.appium")
        (fun _ => None)
        (fun _ _ => None).

(** The manifest file cannot be read. *)
Definition env_unreadable : Env :=
  mkEnv (fun home => Ok (home ++ "/extensions.yaml"))
        (fun _ => Fail EACCES_error)
        (fun _ => Ok YNull)
        (fun _ => "/home/user/.appium")
        (fun _ => None)
        (fun _ _ => None).

Definition lookup_error : jserror :=
  mkError "Error" (Some "EACCES") "permission denied, scandir /project".

(** The manifest path cannot be resolved. *)
Definition env_no_path : Env :=
  mkEnv (fun _ => Fail lookup_error)
        (fun _ => Fail ENOENT_error)
        (fun _ => Ok YNull)
        (fun _ => "/home/user/.appium")
        (fun _ => None)
        (fun _ _ => None).

(** The manifest file cannot be written. *)
Definition env_readonly : Env :=
  mkEnv (fun home => Ok (home ++ "/extensions.yaml"))
        (fun _ => Fail ENOENT_error)
        (fun _ => Ok YNull)
        (fun _ => "/home/user/.appium")
        (fun _ => None)
        (fun _ _ => Some EACCES_error).

Definition fake_driver : yaml :=
  YMap [("version", YStr "1.0.0"); ("pkgName", YStr "@appium/fake-driver");
        ("installSpec", YStr "@appium/fake-driver"); ("installType", YStr "npm");
        ("installPath", YStr "fake"); ("mainClass", YStr "FakeDriver");
        ("automationName", YStr "Fake"); ("platformNames", YSeq [YStr "Fake"])].

Definition manifest_with_driver : yaml :=
  YMap [("drivers", YMap [("fake", fake_driver)]); ("plugins", YMap []);
        ("schemaRev", YNum 7)].

(** A manifest file with one driver. *)
Definition env_present (y : yaml) : Env :=
  mkEnv (fun home => Ok (home ++ "/extensions.yaml"))
        (fun _ => Ok "manifest text")
        (fun _ => Ok y)
        (fun _ => "/home/user/.appium")
        (fun _ => None)
        (fun _ _ => None).

Definition fresh_world : World := mkWorld [] (constructor sample_home) [].

Definition extname_allowed (s : string) : bool :=
  existsb (fun suffix =>
             String.eqb (substring (String.length s - String.length suffix)
                                   (String.length suffix) s) suffix)
          [".json"; ".js"; ".cjs"].

(** A schema library that accepts every schema it is given. *)
Definition sample_schema_lib : SchemaLib :=
  mkSchemaLib extname_allowed [".json"; ".js"; ".cjs"] (fun _ _ _ _ => None).

(** The store has read an absent manifest. *)
Definition read_world : World := snd (read env_absent false fresh_world).

Definition read_manifest : Manifest :=
  match _data (w_io read_world) with
  | Some m => m
  | None => mkManifest JUndefined JUndefined JUndefined
  end.

(** After that, a driver was assigned through the manifest. *)
Definition dirty_world : World :=
  set_prop read_world (drivers read_manifest) "fake" (JStr "record").

(** Records for the validation examples: a driver with a malformed platform
    list and a number for a schema, a record whose schema is an array, and a
    record whose schema file has an unsupported extension. *)
Definition sample_heap : heap :=
  [HArray [JStr "ios"; JNum 5];
   HObject [("platformNames", JRef 0); ("automationName", JStr "XCUITest");
            ("schema", JNum 5)];
   HArray [];
   HObject [("schema", JRef 2)];
   HObject [("schema", JStr "schema.yaml")]].

Definition sample_registry : ExtensionConfig.t :=
  ExtensionConfig.mk Driver JUndefined [] [].

(** Two drivers that claim the same automation name. *)
Definition xcuitest_driver (pkgName : string) : yaml :=
  YMap [("version", YStr "4.0.0"); ("pkgName", YStr pkgName);
        ("installSpec", YStr pkgName); ("installType", YStr "npm");
        ("installPath", YStr pkgName); ("mainClass", YStr "XCUITestDriver");
        ("automationName", YStr "XCUITest");
        ("platformNames", YSeq [YStr "iOS"])].

Definition manifest_with_duplicates : yaml :=
  YMap [("drivers", YMap [("first", xcuitest_driver "appium-xcuitest-driver");
                          ("second", xcuitest_driver "other-xcuitest-driver")]);
        ("plugins", YMap [])].

Definition duplicates_world : World :=
  snd (read (env_present manifest_with_duplicates) false fresh_world).

Definition duplicates_manifest : Manifest :=
  match _data (w_io duplicates_world) with
  | Some m => m
  | None => mkManifest JUndefined JUndefined JUndefined
  end.

(** A manifest in which the record of a driver is null. *)
Definition manifest_with_null_record : yaml :=
  YMap [("drivers", YMap [("broken", YNull)]); ("plugins", YMap [])].

Definition null_record_world : World :=
  snd (read (env_present manifest_with_null_record) false fresh_world).

Definition null_record_manifest : Manifest :=
  match _data (w_io null_record_world) with
  | Some m => m
  | None => mkManifest JUndefined JUndefined JUndefined
  end.

(** A mapping with an own property named [__proto__], as [JSON.parse] or
    [Object.defineProperty] make one; its record is not even an object. *)
Definition proto_entry_world : World :=
  mkWorld [HObject [("__proto__", JStr "no record")]]
          (constructor sample_home) [].

Definition proto_entry_mapping : jsval := JRef 0.

(** A mapping with one record whose [version] is the record itself. *)
Definition cyclic_world : World :=
  mkWorld [HObject [("version", JRef 0)]; HObject [("loop", JRef 0)]]
          (constructor sample_home) [].

Definition cyclic_mapping : jsval := JRef 1.

(** The registries loaded from the manifest file with one driver, and a
    second driver record to install. *)
Definition loaded_world : World :=
  snd (loadExtensions (env_present manifest_with_driver) sample_schema_lib
         fresh_world).

Definition loaded_configs : ExtensionConfigs :=
  match fst (loadExtensions (env_present manifest_with_driver)
               sample_schema_lib fresh_world) with
  | Returned cfgs => cfgs
  | _ => mkConfigs sample_registry sample_registry
  end.

Definition loaded_manifest : Manifest :=
  match _data (w_io loaded_world) with
  | Some m => m
  | None => mkManifest JUndefined JUndefined JUndefined
  end.

Definition new_record : jsval :=
  fst (alloc_yaml (xcuitest_driver "appium-xcuitest-driver")
         (w_heap loaded_world)).

Definition world_with_record : World :=
  with_heap loaded_world
    (snd (alloc_yaml (xcuitest_driver "appium-xcuitest-driver")
            (w_heap loaded_world))).

(** The calls of the file-system step of [write], up to its first failure. *)
Definition fs_step_events (E : Env) (p : string) (content : Snapshot)
  : list event :=
  EvMkdirp (path_dirname E p) ::
  match mkdirp E (path_dirname E p) with
  | Some _ => []
  | None => [EvWriteFile p content]
  end.

(** An event of a store whose manifest path is [p]: no path lookup, and
    every file-system call is about [p]. *)
Definition about_path (E : Env) (p : string) (e : event) : Prop :=
  match e with
  | EvGetManifestPath _ => False
  | EvReadFile q => q = p
  | EvMkdirp d => d = path_dirname E p
  | EvWriteFile q _ => q = p
  end.

(** The six generic fields of a record. *)
Definition GENERIC_FIELDS : list string :=
  ["version"; "pkgName"; "installSpec"; "installType"; "installPath";
   "mainClass"].

(** A record that passes the generic checks: five string fields and one of
    the four install types. *)
Definition generic_valid (h : heap) (extData : jsval) : bool :=
  isString (get_prop h extData "version") &&
  isString (get_prop h extData "pkgName") &&
  isString (get_prop h extData "installSpec") &&
  includes INSTALL_TYPES (get_prop h extData "installType") &&
  isString (get_prop h extData "installPath") &&
  isString (get_prop h extData "mainClass").

(** A record that passes the driver checks when the names [seen] were met
    before: a non-empty array of strings for platforms and a string never
    met for the automation name. *)
Definition driver_valid (h : heap) (seen : list jsval) (extData : jsval)
  : bool :=
  let platformNames := get_prop h extData "platformNames" in
  isArray h platformNames &&
  negb (Nat.eqb (List.length (array_elems h platformNames)) 0) &&
  forallb isString (array_elems h platformNames) &&
  isString (automationName h extData) &&
  negb (set_has seen (automationName h extData)).

(** ** Path helpers of a registry

    [path.resolve] of POSIX goes through its arguments from the right until
    it has met an absolute path, and throws a [TypeError] at the first one
    that is not a string; what it makes of the strings it went through is
    left to [normalise], which stands for the rest of the function. *)

Definition is_absolute (s : string) : bool :=
  match s with
  | String c _ => Ascii.eqb c "/"
  | EmptyString => false
  end.

Definition invalid_path_argument : jserror :=
  TypeError "The paths argument must be of type string".

(** The arguments from the last to the first. *)
Fixpoint resolve_from_right (args : list jsval) (used : list string)
  : result (list string) :=
  match args with
  | [] => Ok used
  | JStr s :: rest =>
      if is_absolute s then Ok (s :: used)
      else resolve_from_right rest (s :: used)
  | _ :: _ => Fail invalid_path_argument
  end.

(** [path.resolve(...args)] *)
Definition path_resolve (normalise : list string -> string)
  (args : list jsval) : result string :=
  match resolve_from_right (rev args) [] with
  | Ok used => Ok (normalise used)
  | Fail e => Fail e
  end.

(** [const {...} = this.installedExtensions[extName]]: the fields of what
    the lookup finds.  Null and undefined cannot be destructured; a member of
    [Object.prototype] can, and has none of the fields of a record. *)
Definition installed_record (h : heap) (exts : jsval) (extName : string)
  : result (string -> jsval) :=
  match find_member (own_props h exts) extName with
  | Own record =>
      match destructure record with
      | Fail e => Fail e
      | Ok _ => Ok (get_prop h record)
      end
  | Inherited => Ok (fun _ => JUndefined)
  | Absent => Fail (TypeError "Cannot destructure undefined")
  end.

(** [ExtensionConfig.getInstallPath] *)
Definition getInstallPath (normalise : list string -> string)
  (c : ExtensionConfig.t) (w : World) (extName : string) : result string :=
  match installed_record (w_heap w) (ExtensionConfig.installedExtensions c)
          extName with
  | Fail e => Fail e
  | Ok field =>
      path_resolve normalise
        [JStr (_appiumHome (w_io w)); field "installPath"]
  end.

(** [ExtensionConfig.getExtensionRequirePath] *)
Definition getExtensionRequirePath (normalise : list string -> string)
  (c : ExtensionConfig.t) (w : World) (extName : string) : result string :=
  match installed_record (w_heap w) (ExtensionConfig.installedExtensions c)
          extName with
  | Fail e => Fail e
  | Ok field =>
      path_resolve normalise
        [JStr (_appiumHome (w_io w)); field "installPath";
         JStr "node_modules"; field "pkgName"]
  end.

(** ** Locating the home directory and the manifest, [lib/env.js] *)

Module EnvJs.

Definition table := list (string * string).

Fixpoint lookup (t : table) (k : string) : option string :=
  match t with
  | [] => None
  | (k', v) :: r => if String.eqb k' k then Some v else lookup r k
  end.

(** The dependency tables of a [package.json] as [read-pkg] gives it; a
    table that is missing is [None]. *)
Record PackageJson : Type := mkPackageJson {
  dependencies : option table;
  devDependencies : option table;
  bundleDependencies : option table
}.

(** What the functions of the file ask of the system: [path.isAbsolute],
    [process.env.APPIUM_HOME], [read-pkg], [resolve-from], [path.join] and
    the value of [path.resolve(homedir(), '.appium')]. *)
Record Sys : Type := mkSys {
  isAbsolute : string -> bool;
  APPIUM_HOME : option string;
  readPackage : string -> result PackageJson;
  resolveFrom : string -> string -> result string;
  join : list string -> string;
  DEFAULT_APPIUM_HOME : string
}.

Definition MANIFEST_BASENAME : string := "extensions.yaml".

Section WithSys.

Variable sys : Sys.

Definition LOCAL_RELATIVE_MANIFEST_PATH : string :=
  join sys ["node_modules"; ".cache"; "appium"; MANIFEST_BASENAME].

(** [hasLocalAppium] *)
Definition hasLocalAppium (cwd : string) : bool :=
  match resolveFrom sys cwd "appium/package.json" with
  | Ok _ => true
  | Fail _ => false
  end.

(** [t?.appium] *)
Definition appium_of (t : option table) : option string :=
  match t with
  | Some entries => lookup entries "appium"
  | None => None
  end.

(** [getAppiumDependencyFromPackage] *)
Definition getAppiumDependencyFromPackage (pkg : option PackageJson)
  : option string :=
  match pkg with
  | None => None
  | Some p =>
      match appium_of (dependencies p) with
      | Some v => Some v
      | None =>
          match appium_of (devDependencies p) with
          | Some v => Some v
          | None => appium_of (bundleDependencies p)
          end
      end
  end.

(** [readPackageInDir]: a missing [package.json] is no package. *)
Definition readPackageInDir (cwd : string) : result (option PackageJson) :=
  match readPackage sys cwd with
  | Ok pkg => Ok (Some pkg)
  | Fail e =>
      match code e with
      | Some "ENOENT" => Ok None
      | _ => Fail e
      end
  end.

(** [getLocalAppiumInfo]: [hasLocalInstall] and [dependencyVersion].  The
    two values handed to [B.all] are plain values, so its [catch] is not
    reached. *)
Definition getLocalAppiumInfo (pkg : option PackageJson) (cwd : string)
  : bool * option string :=
  (hasLocalAppium cwd, getAppiumDependencyFromPackage pkg).

Definition truthy_string (s : option string) : bool :=
  match s with
  | Some v => negb (String.eqb v "")
  | None => false
  end.

(** The [try] of [resolveAppiumHome], whose [catch] ignores the error. *)
Definition home_of_project (cwd : string) : string :=
  match readPackageInDir cwd with
  | Ok pkg =>
      let '(hasLocalInstall, dependencyVersion) :=
        getLocalAppiumInfo pkg cwd in
      if hasLocalInstall || truthy_string dependencyVersion
      then cwd
      else DEFAULT_APPIUM_HOME sys
  | Fail _ => DEFAULT_APPIUM_HOME sys
  end.

(** [resolveAppiumHome] *)
Definition resolveAppiumHome (cwd : string) : result string :=
  if negb (isAbsolute sys cwd)
  then Fail (TypeError "Path to cwd must be absolute")
  else
    match APPIUM_HOME sys with
    | Some home =>
        if negb (String.eqb home "") then Ok home
        else Ok (home_of_project cwd)
    | None => Ok (home_of_project cwd)
    end.

(** [getManifestPath] *)
Definition getManifestPath (cwd : string) : string :=
  if hasLocalAppium cwd
  then join sys [cwd; LOCAL_RELATIVE_MANIFEST_PATH]
  else join sys [cwd; MANIFEST_BASENAME].

End WithSys.

End EnvJs.

(** ** One store per home directory, [getManifestIOInstance] *)

Module Instances.

(** The cache of [_.memoize], keyed by the home directory, and the stores
    made so far; a store is known by its index. *)
Record t : Type := mk {
  cache : list (string * nat);
  stores : list ManifestIO
}.

Definition empty : t := mk [] [].

Fixpoint cached (c : list (string * nat)) (home : string) : option nat :=
  match c with
  | [] => None
  | (k, i) :: r => if String.eqb k home then Some i else cached r home
  end.

(** [getManifestIOInstance(appiumHome)] *)
Definition getManifestIOInstance (appiumHome : string) (s : t) : nat * t :=
  match cached (cache s) appiumHome with
  | Some i => (i, s)
  | None =>
      let i := List.length (stores s) in
      (i, mk (cache s ++ [(appiumHome, i)])%list
             (stores s ++ [constructor appiumHome])%list)
  end.

(** The state after asking for the stores of [homes], one after the other. *)
Definition after (homes : list string) : t :=
  fold_left (fun s home => snd (getManifestIOInstance home s)) homes empty.

End Instances.

(** Every cached index is the index of the store made for that home. *)
Definition instances_ok (s : Instances.t) : Prop :=
  forall home i,
    Instances.cached (Instances.cache s) home = Some i ->
    nth_error (Instances.stores s) i = Some (constructor home).

(** A system with a local installation of appium in [/project], and a
    package there that cannot be parsed. *)
Definition sample_sys : EnvJs.Sys :=
  EnvJs.mkSys (fun p => String.eqb (substring 0 1 p) "/")
              None
              (fun _ => Fail (mkError "JSONError" None "Unexpected token"))
              (fun cwd _ => Ok (cwd ++ "/node_modules/appium/package.json"))
              (String.concat "/")
              "/home/user/.appium".

(** An environment whose [env.getManifestPath] is the one of [lib/env.js]. *)
Definition with_env_js (sys : EnvJs.Sys) (E : Env) : Env :=
  mkEnv (fun home => Ok (EnvJs.getManifestPath sys home))
        (fs_readFile E) (YAML_parse E) (path_dirname E) (mkdirp E)
        (fs_writeFile E).

(** ** Own properties *)

Lemma assoc_get_replace_same (ps : props) (k : string) (v : jsval) :
  assoc_has ps k = true -> assoc_get (assoc_replace ps k v) k = Some v.
Proof.
  unfold assoc_has. induction ps as [|[k' v'] r IH]; simpl; [discriminate|].
  destruct (String.eqb k' k) eqn:Hk; simpl; rewrite Hk; auto.
Qed.

Lemma assoc_get_replace_other (ps : props) (k k' : string) (v : jsval) :
  k' <> k -> assoc_get (assoc_replace ps k v) k' = assoc_get ps k'.
Proof.
  intros Hne. induction ps as [|[k0 v0] r IH]; simpl; [reflexivity|].
  destruct (String.eqb k0 k) eqn:Hk; simpl.
  - apply String.eqb_eq in Hk. subst k0.
    destruct (String.eqb k k') eqn:Hk'; [|reflexivity].
    apply String.eqb_eq in Hk'. congruence.
  - rewrite IH. reflexivity.
Qed.

Lemma assoc_replace_same (ps : props) (k : string) (v : jsval) :
  assoc_get ps k = Some v -> assoc_replace ps k v = ps.
Proof.
  induction ps as [|[k' v'] r IH]; simpl; [reflexivity|].
  destruct (String.eqb k' k) eqn:Hk.
  - intros H. injection H as ->. reflexivity.
  - intros H. rewrite IH by exact H. reflexivity.
Qed.

Lemma keys_assoc_replace (ps : props) (k : string) (v : jsval) :
  map fst (assoc_replace ps k v) = map fst ps.
Proof.
  induction ps as [|[k' v'] r IH]; simpl; [reflexivity|].
  destruct (String.eqb k' k); simpl; [reflexivity|]. rewrite IH. reflexivity.
Qed.

Lemma assoc_get_insert_same (ps : props) (k : string) (n : N) (v : jsval) :
  assoc_get ps k = None -> assoc_get (insert_index ps k n v) k = Some v.
Proof.
  induction ps as [|[k' v'] r IH]; simpl.
  - rewrite String.eqb_refl. reflexivity.
  - destruct (String.eqb k' k) eqn:Hk; [discriminate|]. intros H.
    destruct (array_index k') as [n'|].
    + destruct (n <? n')%N; simpl.
      * rewrite String.eqb_refl. reflexivity.
      * rewrite Hk. auto.
    + simpl. rewrite String.eqb_refl. reflexivity.
Qed.

Lemma assoc_get_insert_other (ps : props) (k k' : string) (n : N) (v : jsval) :
  k' <> k -> assoc_get (insert_index ps k n v) k' = assoc_get ps k'.
Proof.
  intros Hne.
  assert (Hk : String.eqb k k' = false)
    by (apply String.eqb_neq; congruence).
  induction ps as [|[k0 v0] r IH]; simpl.
  - rewrite Hk. reflexivity.
  - destruct (array_index k0) as [n'|].
    + destruct (n <? n')%N; simpl.
      * rewrite Hk. reflexivity.
      * rewrite IH. reflexivity.
    + simpl. rewrite Hk. reflexivity.
Qed.

Lemma assoc_get_app (ps qs : props) (k : string) :
  assoc_get (ps ++ qs)%list k =
  match assoc_get ps k with Some v => Some v | None => assoc_get qs k end.
Proof.
  induction ps as [|[k' v'] r IH]; simpl; [reflexivity|].
  destruct (String.eqb k' k); [reflexivity|exact IH].
Qed.

Lemma assoc_get_set_same (ps : props) (k : string) (v : jsval) :
  assoc_get (assoc_set ps k v) k = Some v.
Proof.
  unfold assoc_set. destruct (assoc_has ps k) eqn:Hh.
  - apply assoc_get_replace_same. exact Hh.
  - unfold assoc_has in Hh.
    destruct (assoc_get ps k) eqn:Hg; [discriminate|].
    destruct (array_index k).
    + apply assoc_get_insert_same. exact Hg.
    + rewrite assoc_get_app, Hg. simpl. rewrite String.eqb_refl. reflexivity.
Qed.

Lemma assoc_get_set_other (ps : props) (k k' : string) (v : jsval) :
  k' <> k -> assoc_get (assoc_set ps k v) k' = assoc_get ps k'.
Proof.
  intros Hne. unfold assoc_set. destruct (assoc_has ps k).
  - apply assoc_get_replace_other. exact Hne.
  - destruct (array_index k).
    + apply assoc_get_insert_other. exact Hne.
    + rewrite assoc_get_app. simpl.
      assert (Hk : String.eqb k k' = false)
        by (apply String.eqb_neq; congruence).
      rewrite Hk. destruct (assoc_get ps k'); reflexivity.
Qed.

Lemma assoc_set_idem (ps : props) (k : string) (v : jsval) :
  assoc_set (assoc_set ps k v) k v = assoc_set ps k v.
Proof.
  pose proof (assoc_get_set_same ps k v) as H.
  set (qs := assoc_set ps k v) in *.
  unfold assoc_set at 1, assoc_has. rewrite H.
  apply assoc_replace_same. exact H.
Qed.

(** A name that is no array index is created last in the enumeration. *)
Lemma keys_assoc_set (ps : props) (k : string) (v : jsval) :
  array_index k = None ->
  map fst (assoc_set ps k v) =
  if assoc_has ps k then map fst ps else (map fst ps ++ [k])%list.
Proof.
  intros Hi. unfold assoc_set. rewrite Hi.
  destruct (assoc_has ps k).
  - apply keys_assoc_replace.
  - rewrite map_app. reflexivity.
Qed.

Lemma assoc_has_set_same (ps : props) (k : string) (v : jsval) :
  assoc_has (assoc_set ps k v) k = true.
Proof.
  unfold assoc_has. rewrite assoc_get_set_same. reflexivity.
Qed.

Lemma assign_idem (ps : props) (k : string) (v : jsval) :
  assign (assign ps k v) k v = assign ps k v.
Proof.
  unfold assign at 2 3.
  destruct (String.eqb k "__proto__" && negb (assoc_has ps k)) eqn:Hc.
  - unfold assign. rewrite Hc. reflexivity.
  - unfold assign. rewrite assoc_has_set_same, Bool.andb_false_r.
    apply assoc_set_idem.
Qed.

(** Apart from [__proto__], an assignment defines the own property. *)
Lemma assign_ordinary (ps : props) (k : string) (v : jsval) :
  k <> "__proto__" -> assign ps k v = assoc_set ps k v.
Proof.
  intros Hk. unfold assign.
  assert (H : String.eqb k "__proto__" = false)
    by (apply String.eqb_neq; exact Hk).
  rewrite H. reflexivity.
Qed.

Lemma assoc_get_del_same (ps : props) (k : string) :
  assoc_get (assoc_del ps k) k = None.
Proof.
  induction ps as [|[k' v'] r IH]; simpl; [reflexivity|].
  destruct (String.eqb k' k) eqn:Hk; simpl; [exact IH|].
  rewrite Hk. exact IH.
Qed.

Lemma assoc_get_del_other (ps : props) (k k' : string) :
  k' <> k -> assoc_get (assoc_del ps k) k' = assoc_get ps k'.
Proof.
  intros Hne. induction ps as [|[k0 v0] r IH]; simpl; [reflexivity|].
  destruct (String.eqb k0 k) eqn:Hk; simpl.
  - apply String.eqb_eq in Hk. subst k0.
    destruct (String.eqb k k') eqn:Hk'; [|exact IH].
    apply String.eqb_eq in Hk'. congruence.
  - rewrite IH. reflexivity.
Qed.

(** ** The store *)

Lemma heap_get_app (h h2 : heap) (l : loc) (o : hobj) :
  heap_get h l = Some o -> heap_get (h ++ h2)%list l = Some o.
Proof.
  unfold heap_get. intros H.
  rewrite nth_error_app1; [exact H|].
  apply nth_error_Some. congruence.
Qed.

Lemma heap_get_set_same (h : heap) (l : loc) (o o' : hobj) :
  heap_get h l = Some o -> heap_get (heap_set h l o') l = Some o'.
Proof.
  unfold heap_get. revert l.
  induction h as [|x t IH]; intros [|l] H; simpl in *; try discriminate; auto.
Qed.

Lemma heap_get_set_other (h : heap) (l l' : loc) (o' : hobj) :
  l' <> l -> heap_get (heap_set h l o') l' = heap_get h l'.
Proof.
  unfold heap_get. revert l l'.
  induction h as [|x t IH]; intros [|l] [|l'] H; simpl; auto; try congruence.
Qed.

Lemma resolve_path_spec (E : Env) (w : World) :
  resolve_path E w =
  match resolved_path E (w_io w) with
  | Ok p =>
      (Ok p, mkWorld (w_heap w) (set_manifestPath (w_io w) p)
                     (w_trace w ++ path_events (w_io w)))
  | Fail e =>
      (Fail e, mkWorld (w_heap w) (w_io w) (w_trace w ++ path_events (w_io w)))
  end.
Proof.
  destruct w as [h [d m home [p|] wr rd] tr];
    unfold resolve_path, resolved_path, path_events; simpl.
  - rewrite app_nil_r. reflexivity.
  - destruct (env_getManifestPath E home); reflexivity.
Qed.

(** A promise that has settled and stayed in the handle answers every later
    call. *)
Lemma write_settled (E : Env) (force : bool) (w : World) (r : result bool) :
  _writing (w_io w) = Some (Settled r) -> write E force w = (settle r, w).
Proof.
  unfold write. intros ->. reflexivity.
Qed.

(** C4, on the code.  On a store that was just constructed, [write(true)]
    rejects with the [ReferenceError] 'No data to write. Call `read()` first'
    and [write()] returns [false], neither reaching a collaborator.  But
    both calls end before their first [await], so the promise of the call
    stays in [_writing], where the documentation of the field wants null once
    the call is complete; every later call is answered by that promise.  On
    a store on which [read()] was never called, after a [write()] the call
    [write(true)] returns [false] instead of rejecting, and after a
    [write(true)] the call [write()] rejects instead of returning [false]. *)
Theorem first_write_before_read_answers_the_later_ones (E : Env)
  (home : string) (h : heap) (tr : list event) :
  let misuse := ReferenceError "No data to write. Call `read()` first" in
  let w := mkWorld h (constructor home) tr in
  let kept r :=
    mkWorld h (set_writing (constructor home) (Some (Settled r))) tr in
  write E true w = (Threw misuse, kept (Fail misuse)) /\
  write E false w = (Returned false, kept (Ok false)) /\
  _data (w_io (kept (Ok false))) = None /\
  _data (w_io (kept (Fail misuse))) = None /\
  (forall E2, write E2 true (kept (Ok false))
              = (Returned false, kept (Ok false))) /\
  (forall E2, write E2 false (kept (Fail misuse))
              = (Threw misuse, kept (Fail misuse))).
Proof.
  repeat split; reflexivity.
Qed.

(** A write that finds the store clean and is not forced returns [false]
    without any call to a collaborator, and leaves its promise in the
    handle. *)
Lemma write_clean (E : Env) (w : World) :
  _writing (w_io w) = None ->
  dirty_truthy (w_io w) = false ->
  write E false w =
  (Returned false,
   with_io w (set_writing (w_io w) (Some (Settled (Ok false))))).
Proof.
  destruct w as [h [d m home p wr rd] tr]; simpl.
  intros -> Hd. unfold write, write_body, ends_before_await; simpl.
  unfold dirty_truthy in *; simpl in *. rewrite Hd. reflexivity.
Qed.

(** A write that goes through: the directory is made, the file is written,
    the flag is cleared. *)
Lemma write_success (E : Env) (force : bool) (w : World) (m : Manifest)
  (p : string) :
  _writing (w_io w) = None ->
  dirty_truthy (w_io w) || force = true ->
  _data (w_io w) = Some m ->
  resolved_path E (w_io w) = Ok p ->
  fs_step_failure E p (snapshot (w_heap w) m) = None ->
  write E force w =
  (Returned true,
   mkWorld (w_heap w)
           (set_dirty (set_manifestPath (w_io w) p) false)
           (w_trace w ++ path_events (w_io w) ++
              [EvMkdirp (path_dirname E p);
               EvWriteFile p (snapshot (w_heap w) m)])).
Proof.
  destruct w as [h [d dat home mp wr rd] tr]; simpl.
  intros -> Hdf -> Hp Hfs.
  unfold fs_step_failure in Hfs.
  destruct (mkdirp E (path_dirname E p)) eqn:Hmk; [discriminate|].
  unfold resolved_path in Hp; simpl in Hp.
  unfold dirty_truthy in Hdf; simpl in Hdf.
  unfold write, write_body, ends_before_await; rewrite resolve_path_spec;
    unfold resolved_path, dirty_truthy, path_events; simpl.
  destruct d as [[|]|], force; simpl in *; try discriminate;
    rewrite Hp; simpl; rewrite Hmk; simpl; rewrite Hfs; simpl;
    unfold emit, with_io, set_dirty, set_writing, set_manifestPath; simpl;
    rewrite <- !app_assoc; reflexivity.
Qed.

(** A write on a dirty store whose path is known starts with the directory
    and never returns [false]. *)
Lemma write_dirty_attempts (E : Env) (w : World) (m : Manifest) (p : string) :
  _writing (w_io w) = None ->
  dirty_truthy (w_io w) = true ->
  _data (w_io w) = Some m ->
  _manifestPath (w_io w) = Some p ->
  exists r w' rest,
    write E false w = (r, w') /\
    r <> Returned false /\
    w_trace w' = (w_trace w ++ EvMkdirp (path_dirname E p) :: rest)%list.
Proof.
  destruct w as [h [d dat home mp wr rd] tr]; simpl.
  intros -> Hd -> ->.
  unfold dirty_truthy in Hd; simpl in Hd.
  destruct d as [[|]|]; try discriminate.
  unfold write, write_body, ends_before_await, resolve_path, dirty_truthy;
    simpl.
  destruct (mkdirp E (path_dirname E p)) eqn:Hmk; simpl.
  - eexists _, _, []. repeat split. discriminate.
  - destruct (fs_writeFile E p (snapshot h m)) eqn:Hwf; simpl.
    + eexists _, _, [_]. repeat split; [discriminate|].
      simpl. rewrite <- app_assoc. reflexivity.
    + eexists _, _, [_]. repeat split; [discriminate|].
      simpl. rewrite <- app_assoc. reflexivity.
Qed.

(** C10. When the file-system step of [write()] fails (making the directory
    or writing the file), the call rejects with an [Error] whose message is
    'Appium could not write to manifest at <path> using APPIUM_HOME <home>.
    Please ensure it is writable. Original error: <message of the cause>';
    the dirty flag keeps its value and the handle [_writing] is null again.
    If there were pending changes (the flag was true), the next [write()]
    makes a fresh attempt, starting with the directory, and does not return
    [false]. *)
Theorem write_failure_keeps_dirty (E : Env) (force : bool) (w : World)
  (m : Manifest) (p : string) (e : jserror) :
  _writing (w_io w) = None ->
  dirty_truthy (w_io w) || force = true ->
  _data (w_io w) = Some m ->
  resolved_path E (w_io w) = Ok p ->
  fs_step_failure E p (snapshot (w_heap w) m) = Some e ->
  exists err w',
    write E force w = (Threw err, w') /\
    ename err = "Error" /\
    message err =
      "Appium could not write to manifest at " ++ p ++ " using APPIUM_HOME " ++
      _appiumHome (w_io w) ++
      ". Please ensure it is writable. Original error: " ++ message e /\
    _dirty (w_io w') = _dirty (w_io w) /\
    _writing (w_io w') = None /\
    (dirty_truthy (w_io w) = true ->
     forall E2, exists r w'' rest,
       write E2 false w' = (r, w'') /\
       r <> Returned false /\
       w_trace w'' = (w_trace w' ++ EvMkdirp (path_dirname E2 p) :: rest)%list).
Proof.
  intros Hw Hdf Hdat Hp Hfs.
  assert (Hstep : exists w',
    write E force w =
      (Threw (Error (write_error_message p (_appiumHome (w_io w)) (message e))),
       w') /\
    _dirty (w_io w') = _dirty (w_io w) /\
    _writing (w_io w') = None /\
    _data (w_io w') = Some m /\
    _manifestPath (w_io w') = Some p).
  { destruct w as [h [d dat home mp wr rd] tr]; simpl in *. subst.
    unfold resolved_path in Hp; simpl in Hp.
    unfold dirty_truthy in Hdf; simpl in Hdf.
    unfold fs_step_failure in Hfs.
    unfold write, write_body, ends_before_await; rewrite resolve_path_spec;
      unfold resolved_path, dirty_truthy, path_events; simpl.
    destruct d as [[|]|], force; simpl in *; try discriminate;
      rewrite Hp; simpl;
      (destruct (mkdirp E (path_dirname E p)) eqn:Hmk; simpl;
       [ injection Hfs as ->; eexists; repeat split
       | rewrite Hfs; simpl; eexists; repeat split ]). }
  destruct Hstep as (w' & Hwr & Hd & Hwf & Hdat' & Hmp).
  eexists. exists w'. split; [exact Hwr|].
  split; [reflexivity|]. split.
  reflexivity.
  split; [exact Hd|]. split; [exact Hwf|].
  intros Hdirty E2.
  apply write_dirty_attempts with (m := m); auto.
  unfold dirty_truthy in *. rewrite Hd. exact Hdirty.
Qed.

Lemma write_failure_keeps_dirty_witness :
  exists err w',
    write env_readonly false dirty_world = (Threw err, w') /\
    ename err = "Error" /\
    message err =
      "Appium could not write to manifest at " ++ sample_path ++
      " using APPIUM_HOME " ++ _appiumHome (w_io dirty_world) ++
      ". Please ensure it is writable. Original error: " ++
      message EACCES_error /\
    _dirty (w_io w') = _dirty (w_io dirty_world) /\
    _writing (w_io w') = None /\
    (dirty_truthy (w_io dirty_world) = true ->
     forall E2, exists r w'' rest,
       write E2 false w' = (r, w'') /\
       r <> Returned false /\
       w_trace w'' =
         (w_trace w' ++ EvMkdirp (path_dirname E2 sample_path) :: rest)%list).
Proof.
  apply (write_failure_keeps_dirty env_readonly false dirty_world
           read_manifest sample_path EACCES_error); reflexivity.
Defined.

(** [read] when it has to load the file. *)
Lemma read_loads (E : Env) (force : bool) (w : World) :
  _reading (w_io w) = false ->
  _data (w_io w) = None \/ force = true ->
  read E force w =
  (let '(r, w1) := read_body E (with_io w (set_reading (w_io w) true)) in
   let w2 := with_io w1 (set_reading (w_io w1) false) in
   match r with
   | Returned _ => (Returned (_data (w_io w2)), w2)
   | Threw e => (Threw e, w2)
   | Pending => (Pending, w2)
   end).
Proof.
  unfold read. intros -> [-> | ->]; [reflexivity|].
  destruct (_data (w_io w)); reflexivity.
Qed.

(** C9, as stated, fails in its second half: when the manifest path cannot
    be resolved, that is when [env.getManifestPath] rejects, the rejection
    happens before the [try] of [read], and [read()] rejects with that very
    error; it is not wrapped in the unknown-problem message. *)
Lemma path_rejection_is_not_wrapped :
  exists w',
    read env_no_path false fresh_world = (Threw lookup_error, w') /\
    message lookup_error = "permission denied, scandir /project" /\
    w_trace w' = [EvGetManifestPath sample_home].
Proof.
  eexists. repeat split.
Qed.

(** C9, amended.  When [read()] has to load the file and the manifest path
    is resolved to [p], a failure of reading or parsing the file that is not
    a file-not-found makes it reject with an [Error] whose message is
    'Appium had trouble loading the extension installation cache file (p).
    Ensure it exists and is readable. Specific error: <message of the
    cause>', or, when [p] is the empty string, 'Appium encountered an unknown
    problem. Specific error: <message of the cause>'.  When resolving the
    path itself fails, [read()] rejects with the error of
    [env.getManifestPath] as it is.  The handle [_reading] is cleared in all
    three cases. *)
Theorem read_failure_wraps_cause (E : Env) (force : bool) (w : World) :
  _reading (w_io w) = false ->
  _data (w_io w) = None \/ force = true ->
  (forall p e,
     resolved_path E (w_io w) = Ok p ->
     read_and_parse E p = Fail e ->
     is_ENOENT e = false ->
     exists err w',
       read E force w = (Threw err, w') /\
       ename err = "Error" /\
       message err =
         (if String.eqb p ""
          then "Appium encountered an unknown problem. Specific error: " ++
               message e
          else "Appium had trouble loading the extension installation " ++
               "cache file (" ++ p ++ "). Ensure it exists and is readable. " ++
               "Specific error: " ++ message e) /\
       _reading (w_io w') = false) /\
  (forall e,
     resolved_path E (w_io w) = Fail e ->
     exists w',
       read E force w = (Threw e, w') /\
       _reading (w_io w') = false /\
       w_trace w' = (w_trace w ++ path_events (w_io w))%list).
Proof.
  intros Hr Hd. split.
  - intros p e Hp Hrp He.
    destruct w as [h [d dat home mp wr rd] tr]; simpl in *. subst rd.
    assert (Hgo : forall w0, w0 = mkWorld h (mkIO d dat home mp wr true) tr ->
      exists w1, read_body E w0 =
        (Threw (Error (if String.eqb p ""
                       then unknown_error_message (message e)
                       else read_error_message p (message e))), w1) /\
        _reading (w_io w1) = true).
    { intros w0 ->. unfold read_body. rewrite resolve_path_spec.
      unfold resolved_path in *; simpl in *. rewrite Hp.
      unfold load_data. unfold read_and_parse in Hrp.
      cbn [emit with_heap w_heap w_io w_trace].
      replace (match fs_readFile E p with
               | Ok text => YAML_parse E text
               | Fail e0 => Fail e0
               end) with (@Fail yaml e) by (symmetry; exact Hrp).
      unfold is_ENOENT in He.
      destruct (code e) as [c|] eqn:Hc.
      - assert (Hne : c <> "ENOENT")
          by (intros ->; rewrite String.eqb_refl in He; discriminate).
        assert (Hbr : forall (A : Type) (x y : A),
                   match c with "ENOENT" => x | _ => y end = y).
        { intros A x y.
          repeat (match goal with
                  | |- context [match ?s with EmptyString => _ | String _ _ => _ end] =>
                      destruct s
                  | |- context [match ?a with Ascii.Ascii _ _ _ _ _ _ _ _ => _ end] =>
                      destruct a
                  | |- context [if ?b then _ else _] => destruct b
                  end; try reflexivity; try congruence). }
        rewrite Hbr.
        destruct (String.eqb p ""); simpl; eexists; split; reflexivity.
      - destruct (String.eqb p ""); simpl; eexists; split; reflexivity. }
    rewrite read_loads by (simpl; auto).
    match goal with
    | |- context [read_body E ?x] =>
        destruct (Hgo x eq_refl) as (w1 & Hb & Hrd); rewrite Hb
    end.
    eexists. eexists. split; [reflexivity|]. split; [reflexivity|].
    split; [|reflexivity].
    destruct (String.eqb p ""); reflexivity.
  - intros e Hp. rewrite read_loads by auto.
    unfold read_body. rewrite resolve_path_spec.
    destruct w as [h [d dat home mp wr rd] tr]; simpl in *.
    unfold resolved_path in *; simpl in *. rewrite Hp.
    eexists. repeat split.
Qed.

Lemma read_failure_wraps_cause_witness :
  (exists err w',
     read env_unreadable false fresh_world = (Threw err, w') /\
     ename err = "Error" /\
     message err =
       "Appium had trouble loading the extension installation cache file " ++
       "(/home/user/.appium/extensions.yaml). Ensure it exists and is " ++
       "readable. Specific error: permission denied" /\
     _reading (w_io w') = false) /\
  (exists w',
     read env_no_path false fresh_world = (Threw lookup_error, w') /\
     _reading (w_io w') = false /\
     w_trace w' = [EvGetManifestPath sample_home]).
Proof.
  split.
  - destruct (read_failure_wraps_cause env_unreadable false fresh_world
                eq_refl (or_introl eq_refl)) as [H _].
    apply (H sample_path EACCES_error); reflexivity.
  - destruct (read_failure_wraps_cause env_no_path false fresh_world
                eq_refl (or_introl eq_refl)) as [_ H].
    apply (H lookup_error); reflexivity.
Defined.

(** A rejection of [env.getManifestPath] itself is outside the [try] of
    [read]: it reaches the caller as it is. *)
Lemma read_path_rejection_propagates (E : Env) (w : World) (e : jserror) :
  _reading (w_io w) = false ->
  _data (w_io w) = None ->
  resolved_path E (w_io w) = Fail e ->
  fst (read E false w) = Threw e.
Proof.
  intros Hr Hd Hp. rewrite read_loads by auto.
  unfold read_body. rewrite resolve_path_spec.
  destruct w as [h [d dat home mp wr rd] tr]; simpl in *.
  unfold resolved_path in *; simpl in *. rewrite Hp. reflexivity.
Qed.

(** What a proxy of the store shows is what its target holds. *)
Lemma own_props_proxy (h : heap) (lp t : loc) (ps : props) :
  heap_get h lp = Some (HProxy t) ->
  heap_get h t = Some (HObject ps) ->
  own_props h (JRef lp) = ps /\ own_props h (JRef t) = ps.
Proof.
  intros Hp Ht. unfold own_props, deref. rewrite Hp, Ht. auto.
Qed.

Lemma heap_set_twice (h : heap) (l : loc) (o o' : hobj) :
  heap_set (heap_set h l o) l o' = heap_set h l o'.
Proof.
  revert l. induction h as [|x r IH]; intros [|l]; simpl; auto.
  rewrite IH. reflexivity.
Qed.

(** The effect of an assignment through a proxy of the store. *)
Lemma set_prop_proxy (w : World) (lp t : loc) (ps : props) (k : string)
  (v : jsval) :
  heap_get (w_heap w) lp = Some (HProxy t) ->
  heap_get (w_heap w) t = Some (HObject ps) ->
  set_prop w (JRef lp) k v =
  mkWorld (heap_set (w_heap w) t (HObject (assign ps k v)))
          (if match find_member ps k with
              | Own current => strict_eq v current
              | Inherited => false
              | Absent => strict_eq v JUndefined
              end
           then w_io w else set_dirty (w_io w) true)
          (w_trace w).
Proof.
  intros Hp Ht. destruct (own_props_proxy _ _ _ _ Hp Ht) as [Hop Hot].
  unfold set_prop. rewrite Hp. unfold proxy_set, differs.
  rewrite Hot.
  destruct w as [h io tr]; simpl in *.
  assert (Hheap : forall io0,
    with_heap
      (with_heap (mkWorld h io0 tr) (obj_set h t k v))
      (obj_set (obj_set h t k v) t k v)
    = mkWorld (heap_set h t (HObject (assign ps k v))) io0 tr).
  { intros io0. unfold with_heap, obj_set; simpl. rewrite Ht.
    rewrite (heap_get_set_same _ _ _ _ Ht), heap_set_twice, assign_idem.
    reflexivity. }
  destruct (find_member ps k) as [cur| |];
    try destruct (strict_eq v _); simpl; apply Hheap.
Qed.

(** The effect of a deletion through a proxy of the store. *)
Lemma delete_prop_proxy (w : World) (lp t : loc) (ps : props) (k : string) :
  heap_get (w_heap w) lp = Some (HProxy t) ->
  heap_get (w_heap w) t = Some (HObject ps) ->
  delete_prop w (JRef lp) k =
  mkWorld (heap_set (w_heap w) t (HObject (assoc_del ps k)))
          (if assoc_has ps k || inherited k
           then set_dirty (w_io w) true else w_io w)
          (w_trace w).
Proof.
  intros Hp Ht. destruct (own_props_proxy _ _ _ _ Hp Ht) as [Hop Hot].
  unfold delete_prop. rewrite Hp. unfold proxy_delete, has_property.
  rewrite Hot.
  destruct w as [h io tr]; simpl in *.
  destruct (assoc_has ps k || inherited k); simpl; unfold obj_del; simpl;
    rewrite Ht; reflexivity.
Qed.

(** C3, on the code.  On a store whose manifest has been read and is clean,
    [write()] returns [false] without reaching the file system; but that
    call ends before its first [await], so its promise stays in [_writing],
    where the documentation of the field wants null once the call is
    complete.  Let [o] be [manifest.drivers] or [manifest.plugins].  An
    assignment [o[k] = v] of a value that differs from the current one, or
    the deletion of a key that the mapping has, then sets the dirty flag as
    it should, but the next [write()], and every later one, forced or not,
    is answered by the stale promise: it returns [false] and the file is
    never written. *)
Theorem clean_write_blocks_later_writes (E : Env) (w : World) (m : Manifest)
  (o : jsval) (lp t : loc) (ps : props) (k : string) (v : jsval) :
  _data (w_io w) = Some m ->
  o = drivers m \/ o = plugins m ->
  o = JRef lp ->
  heap_get (w_heap w) lp = Some (HProxy t) ->
  heap_get (w_heap w) t = Some (HObject ps) ->
  _writing (w_io w) = None ->
  dirty_truthy (w_io w) = false ->
  exists w0,
    write E false w = (Returned false, w0) /\
    w_heap w0 = w_heap w /\
    w_trace w0 = w_trace w /\
    forall w1,
      (strict_eq v (match assoc_get ps k with
                    | Some current => current
                    | None => JUndefined
                    end) = false /\
       w1 = set_prop w0 o k v) \/
      (assoc_has ps k = true /\ w1 = delete_prop w0 o k) ->
      _dirty (w_io w1) = Some true /\
      forall E2 force,
        write E2 force w1 = (Returned false, w1).
Proof.
  intros Hdat Hslice -> Hp Ht Hw Hclean.
  rewrite (write_clean E w Hw Hclean).
  eexists. split; [reflexivity|]. split; [reflexivity|].
  split; [reflexivity|].
  set (w0 := with_io w (set_writing (w_io w) (Some (Settled (Ok false))))).
  assert (Hp0 : heap_get (w_heap w0) lp = Some (HProxy t)) by exact Hp.
  assert (Ht0 : heap_get (w_heap w0) t = Some (HObject ps)) by exact Ht.
  intros w1 Hmut.
  assert (Hio : w_io w1 = set_dirty (w_io w0) true).
  { destruct Hmut as [[Hne ->] | [Hhas ->]].
    - rewrite (set_prop_proxy w0 lp t ps k v Hp0 Ht0). simpl.
      unfold find_member. destruct (assoc_get ps k) as [cur|].
      + rewrite Hne. reflexivity.
      + destruct (inherited k); [reflexivity|]. rewrite Hne. reflexivity.
    - rewrite (delete_prop_proxy w0 lp t ps k Hp0 Ht0). simpl.
      rewrite Hhas. reflexivity. }
  split; [rewrite Hio; reflexivity|].
  intros E2 force. apply (write_settled E2 force w1 (Ok false)).
  rewrite Hio. reflexivity.
Qed.

Lemma clean_write_blocks_later_writes_witness :
  exists w0,
    write env_absent false read_world = (Returned false, w0) /\
    w_heap w0 = w_heap read_world /\
    w_trace w0 = w_trace read_world /\
    forall w1,
      (strict_eq (JStr "record")
         (match assoc_get [] "fake" with
          | Some current => current
          | None => JUndefined
          end) = false /\
       w1 = set_prop w0 (drivers read_manifest) "fake" (JStr "record")) \/
      (assoc_has [] "fake" = true /\
       w1 = delete_prop w0 (drivers read_manifest) "fake") ->
      _dirty (w_io w1) = Some true /\
      forall E2 force,
        write E2 force w1 = (Returned false, w1).
Proof.
  apply (clean_write_blocks_later_writes env_absent read_world read_manifest
           (drivers read_manifest) 3 0 [] "fake" (JStr "record"));
    try reflexivity.
  left; reflexivity.
Defined.

(** X26. The dirty flag, as the traps of the proxy set it.  Let [o] be a
    proxy of the store and [ps] the own properties of its target.  The
    assignment [o[k] = v] marks the store dirty exactly when [v] differs
    from the own property [k], or, the target having no own property [k],
    when [k] is a name of [Object.prototype] or [v] is not undefined.  The
    deletion [delete o[k]] marks it dirty exactly when [k] is an own
    property of the target or a name of [Object.prototype], so deleting
    [toString] from an empty mapping marks the store dirty.  Otherwise the
    store is left as it is; neither trap calls the environment.  On a store
    that is marked dirty and whose handle [_writing] is null, the next
    [write()] (the file system succeeding) writes the manifest as it is then
    and returns [true]; this is stated for names other than [__proto__]. *)
Theorem dirty_flag_of_the_traps (E : Env) (w : World) (m : Manifest)
  (lp t : loc) (ps : props) (k : string) (v : jsval) :
  _data (w_io w) = Some m ->
  heap_get (w_heap w) lp = Some (HProxy t) ->
  heap_get (w_heap w) t = Some (HObject ps) ->
  let o := JRef lp in
  let prototype_has :=
    existsb (String.eqb k)
      ["constructor"; "__defineGetter__"; "__defineSetter__"; "hasOwnProperty";
       "__lookupGetter__"; "__lookupSetter__"; "isPrototypeOf";
       "propertyIsEnumerable"; "toString"; "valueOf"; "__proto__";
       "toLocaleString"] in
  let assigned_differs :=
    match assoc_get ps k with
    | Some current => negb (strict_eq v current)
    | None => prototype_has || negb (strict_eq v JUndefined)
    end in
  w_io (set_prop w o k v) =
    (if assigned_differs then set_dirty (w_io w) true else w_io w) /\
  w_io (delete_prop w o k) =
    (if assoc_has ps k || prototype_has
     then set_dirty (w_io w) true else w_io w) /\
  w_trace (set_prop w o k v) = w_trace w /\
  w_trace (delete_prop w o k) = w_trace w /\
  (forall w1 p,
     k <> "__proto__" ->
     w1 = set_prop w o k v \/ w1 = delete_prop w o k ->
     _dirty (w_io w1) = Some true ->
     _writing (w_io w) = None ->
     resolved_path E (w_io w1) = Ok p ->
     fs_step_failure E p (snapshot (w_heap w1) m) = None ->
     exists w2,
       write E false w1 = (Returned true, w2) /\
       In (EvWriteFile p (snapshot (w_heap w1) m)) (w_trace w2) /\
       _dirty (w_io w2) = Some false).
Proof.
  intros Hdat Hp Ht o prototype_has assigned_differs.
  pose proof (set_prop_proxy w lp t ps k v Hp Ht) as Hset.
  pose proof (delete_prop_proxy w lp t ps k Hp Ht) as Hdel.
  assert (Hio_set : w_io (set_prop w o k v) =
            (if assigned_differs then set_dirty (w_io w) true else w_io w)).
  { unfold o. rewrite Hset. simpl. unfold assigned_differs, find_member.
    destruct (assoc_get ps k) as [cur|].
    - destruct (strict_eq v cur); reflexivity.
    - change prototype_has with (inherited k).
      destruct (inherited k); [reflexivity|].
      destruct (strict_eq v JUndefined); reflexivity. }
  assert (Hio_del : w_io (delete_prop w o k) =
            (if assoc_has ps k || prototype_has
             then set_dirty (w_io w) true else w_io w)).
  { unfold o. rewrite Hdel. reflexivity. }
  split; [exact Hio_set|]. split; [exact Hio_del|].
  split; [unfold o; rewrite Hset; reflexivity|].
  split; [unfold o; rewrite Hdel; reflexivity|].
  intros w1 p _ Hw1 Hdirty Hw Hpath Hfs.
  assert (Hio : w_io w1 = set_dirty (w_io w) true \/ w_io w1 = w_io w).
  { destruct Hw1 as [-> | ->]; [rewrite Hio_set|rewrite Hio_del];
      match goal with |- context [if ?b then _ else _] => destruct b end;
      auto. }
  eexists. split; [|split].
  - apply (write_success E false w1 m p); auto.
    + destruct Hio as [-> | ->]; exact Hw.
    + unfold dirty_truthy. rewrite Hdirty. reflexivity.
    + destruct Hio as [-> | ->]; exact Hdat.
  - simpl. apply in_or_app. right. apply in_or_app. right. simpl. auto.
  - reflexivity.
Qed.

Lemma dirty_flag_of_the_traps_witness :
  w_io (set_prop read_world (JRef 3) "fake" (JStr "record")) =
    set_dirty (w_io read_world) true /\
  w_io (delete_prop read_world (JRef 3) "toString") =
    set_dirty (w_io read_world) true /\
  w_io (delete_prop read_world (JRef 3) "fake") = w_io read_world /\
  exists w2,
    write env_absent false (delete_prop read_world (JRef 3) "toString")
      = (Returned true, w2) /\
    In (EvWriteFile sample_path (mkSnapshot [] [] (JNum 2))) (w_trace w2).
Proof.
  pose proof (dirty_flag_of_the_traps env_absent read_world read_manifest
                3 0 [] "fake" (JStr "record") eq_refl eq_refl eq_refl) as H1.
  pose proof (dirty_flag_of_the_traps env_absent read_world read_manifest
                3 0 [] "toString" JUndefined eq_refl eq_refl eq_refl) as H2.
  cbv zeta in H1, H2.
  destruct H1 as (Hs1 & Hd1 & _). destruct H2 as (_ & Hd2 & _ & _ & Hw2).
  split; [exact Hs1|]. split; [exact Hd2|]. split; [exact Hd1|].
  assert (Hname : "toString" <> "__proto__") by discriminate.
  destruct (Hw2 (delete_prop read_world (JRef 3) "toString") sample_path
              Hname (or_intror eq_refl) eq_refl eq_refl eq_refl eq_refl)
    as (w2 & Hwrite & Hin & _).
  exists w2. split; [exact Hwrite|exact Hin].
Defined.

Lemma heap_get_alloc (h : heap) (o : hobj) :
  heap_get (h ++ [o])%list (List.length h) = Some o.
Proof.
  unfold heap_get. rewrite nth_error_app2 by lia.
  rewrite Nat.sub_diag. reflexivity.
Qed.

Lemma get_prop_object (h : heap) (l : loc) (fields : props) (k : string) :
  heap_get h l = Some (HObject fields) ->
  get_prop h (JRef l) k =
  match assoc_get fields k with Some x => x | None => JUndefined end.
Proof.
  intros H. unfold get_prop, own_props, deref. rewrite H. reflexivity.
Qed.

Lemma createProxy_ok (key : string) (h : heap) (ld t : loc)
  (fields : props) :
  heap_get h ld = Some (HObject fields) ->
  assoc_get fields (key ++ "s") = Some (JRef t) ->
  _createProxy key (JRef ld) h =
  (Ok (JRef (List.length h)), (h ++ [HProxy t])%list).
Proof.
  intros Hd Hk. unfold _createProxy. simpl nullish. cbv iota.
  rewrite (get_prop_object _ _ _ _ Hd), Hk. reflexivity.
Qed.

(** [read] once the data object is there: the two proxies are made, the
    revision is taken from the data, and [_data] is set. *)
Lemma wrap_data (h : heap) (ld d pl : loc) (fields : props) :
  heap_get h ld = Some (HObject fields) ->
  assoc_get fields "drivers" = Some (JRef d) ->
  assoc_get fields "plugins" = Some (JRef pl) ->
  let h2 := ((h ++ [HProxy d]) ++ [HProxy pl])%list in
  _createProxy DRIVER_TYPE (JRef ld) h =
    (Ok (JRef (List.length h)), (h ++ [HProxy d])%list) /\
  _createProxy PLUGIN_TYPE (JRef ld) (h ++ [HProxy d])%list =
    (Ok (JRef (List.length (h ++ [HProxy d])%list)), h2) /\
  get_prop h2 (JRef ld) "schemaRev" =
    match assoc_get fields "schemaRev" with Some x => x | None => JUndefined end.
Proof.
  intros Hd Hdr Hpl h2. split; [|split].
  - apply createProxy_ok with (fields := fields); auto.
  - apply createProxy_ok with (fields := fields); auto.
    apply heap_get_app; auto.
  - apply get_prop_object. unfold h2. repeat apply heap_get_app. auto.
Qed.


Lemma read_present (E : Env) (w : World) (p text : string) (y : yaml)
  (ld d pl : loc) (h' : heap) (fields : props) :
  _reading (w_io w) = false ->
  _data (w_io w) = None ->
  resolved_path E (w_io w) = Ok p ->
  fs_readFile E p = Ok text ->
  YAML_parse E text = Ok y ->
  alloc_yaml y (w_heap w) = (JRef ld, h') ->
  heap_get h' ld = Some (HObject fields) ->
  assoc_get fields "drivers" = Some (JRef d) ->
  assoc_get fields "plugins" = Some (JRef pl) ->
  exists m w',
    read E false w = (Returned (Some m), w') /\
    schemaRev m =
      nullish_coalesce
        (match assoc_get fields "schemaRev" with
         | Some x => x
         | None => JUndefined
         end) (JNum CONFIG_SCHEMA_REV) /\
    w_trace w' = (w_trace w ++ path_events (w_io w) ++ [EvReadFile p])%list.
Proof.
  intros Hr Hd Hp Hrf Hy Hal Hld Hdr Hpl.
  rewrite read_loads by auto.
  unfold read_body. rewrite resolve_path_spec.
  destruct w as [h [dd dat home mp wr rd] tr]; simpl in *. subst.
  unfold resolved_path in *; simpl in *. rewrite Hp.
  unfold load_data. cbn [emit with_heap w_heap w_io w_trace].
  rewrite Hrf, Hy, Hal.
  destruct (wrap_data h' ld d pl fields Hld Hdr Hpl) as (Hc1 & Hc2 & Hrev).
  rewrite Hc1, Hc2. cbv zeta in Hrev. rewrite Hrev.
  eexists. eexists. split; [reflexivity|].
  split; [reflexivity|].
  simpl. unfold path_events; simpl. rewrite <- app_assoc. reflexivity.
Qed.



(** The second half of C2 on a manifest file with revision 7. *)
Example read_keeps_revision :
  exists m w',
    read (env_present manifest_with_driver) false fresh_world
      = (Returned (Some m), w') /\
    schemaRev m = JNum 7.
Proof.
  destruct (read_present (env_present manifest_with_driver) fresh_world
              sample_path "manifest text" manifest_with_driver 4 2 3
              (snd (alloc_yaml manifest_with_driver []))
              [("drivers", JRef 2); ("plugins", JRef 3); ("schemaRev", JNum 7)]
              eq_refl eq_refl eq_refl eq_refl eq_refl eq_refl eq_refl eq_refl
              eq_refl)
    as (m & w' & Hread & Hrev & _).
  exists m, w'. split; [exact Hread|]. rewrite Hrev. reflexivity.
Qed.

(** ** Validation *)

Lemma count_err_app (e : string) (a b : list Problem) :
  count_err e (a ++ b) = count_err e a + count_err e b.
Proof.
  unfold count_err. rewrite filter_app, length_app. reflexivity.
Qed.

Lemma count_err_push_other (e e' : string) (b : bool) (v : jsval) :
  String.eqb e' e = false -> count_err e (push_if b e' v) = 0.
Proof.
  intros H. unfold count_err, push_if. destruct b; simpl; [rewrite H|];
    reflexivity.
Qed.

Lemma count_element_problems (es : list jsval) :
  count_err ERR_PLATFORM_ELEMENT (DriverConfig.element_problems es) =
    List.length (filter (fun x => negb (isString x)) es) /\
  count_err ERR_PLATFORMS_TYPE (DriverConfig.element_problems es) = 0 /\
  count_err ERR_PLATFORMS_EMPTY (DriverConfig.element_problems es) = 0.
Proof.
  induction es as [|x es (IH1 & IH2 & IH3)]; [repeat split|].
  unfold DriverConfig.element_problems in *. simpl flat_map.
  rewrite !count_err_app, IH1, IH2, IH3.
  destruct x; simpl; repeat split; reflexivity.
Qed.

(** C7. For a driver record (any value but null and undefined) checked by
    [DriverConfig.getConfigProblems]: when [platformNames] is not an array
    there is exactly one missing-or-incorrect-list problem and no other
    platform problem; when it is the empty array there is exactly one
    empty-list problem and no per-element problem; when it is a non-empty
    array there is one malformed-element problem for each element that is not
    a string, none for the strings, and neither of the other two. *)
Theorem platformNames_problems (c : ExtensionConfig.t) (h : heap)
  (extData : jsval) :
  nullish extData = false ->
  exists ps c',
    DriverConfig.getConfigProblems c h extData = (Ok ps, c') /\
    let platformNames := get_prop h extData "platformNames" in
    let es := array_elems h platformNames in
    (isArray h platformNames = false ->
       count_err ERR_PLATFORMS_TYPE ps = 1 /\
       count_err ERR_PLATFORMS_EMPTY ps = 0 /\
       count_err ERR_PLATFORM_ELEMENT ps = 0) /\
    (isArray h platformNames = true -> es = [] ->
       count_err ERR_PLATFORMS_TYPE ps = 0 /\
       count_err ERR_PLATFORMS_EMPTY ps = 1 /\
       count_err ERR_PLATFORM_ELEMENT ps = 0) /\
    (isArray h platformNames = true -> es <> [] ->
       count_err ERR_PLATFORMS_TYPE ps = 0 /\
       count_err ERR_PLATFORMS_EMPTY ps = 0 /\
       count_err ERR_PLATFORM_ELEMENT ps =
         List.length (filter (fun x => negb (isString x)) es)).
Proof.
  intros Hn. unfold DriverConfig.getConfigProblems, destructure.
  rewrite Hn. eexists. eexists. split; [reflexivity|].
  cbv zeta.
  set (pn := get_prop h extData "platformNames").
  set (an := get_prop h extData "automationName").
  split; [|split].
  - intros Harr. rewrite Harr. simpl negb. cbv iota.
    rewrite !count_err_app; repeat rewrite count_err_push_other by reflexivity. repeat split.
  - intros Harr Hes. rewrite Harr, Hes. simpl negb. cbv iota.
    rewrite !count_err_app; repeat rewrite count_err_push_other by reflexivity. repeat split.
  - intros Harr Hes. rewrite Harr. simpl negb. cbv iota.
    destruct (array_elems h pn) as [|x es] eqn:Hel; [congruence|].
    rewrite !count_err_app; repeat rewrite count_err_push_other by reflexivity.
    destruct (count_element_problems (x :: es)) as (H1 & H2 & H3).
    rewrite H1, H2, H3. repeat split; lia.
Qed.

Lemma platformNames_problems_witness :
  exists ps c',
    DriverConfig.getConfigProblems sample_registry sample_heap (JRef 1)
      = (Ok ps, c') /\
    count_err ERR_PLATFORM_ELEMENT ps = 1.
Proof.
  destruct (platformNames_problems sample_registry sample_heap (JRef 1)
              eq_refl) as (ps & c' & Hrun & _ & _ & Hel).
  exists ps, c'. split; [exact Hrun|].
  apply Hel; [reflexivity|discriminate].
Defined.

(** C8, as stated, fails: a record whose [schema] is the number 5 passes
    the schema check without any problem, because [extDataHasSchema] only
    lets strings and objects through. *)
Lemma number_schema_raises_no_problem :
  ExtensionConfig.getSchemaProblems sample_schema_lib sample_registry
    sample_heap (JRef 1) "fake" = Ok [] /\
  get_prop sample_heap (JRef 1) "schema" = JNum 5.
Proof.
  split; reflexivity.
Qed.

(** C8, amended. For a record (any value but null and undefined): a [schema]
    that is neither a string nor an object (a number, a boolean, null) counts
    as no schema and raises no problem; a [schema] that is an object but not
    a plain object (an array) raises the malformed-schema problem; a [schema]
    that is a string without an allowed extension raises the problem that
    lists the allowed extensions. *)
Theorem schema_problems (S : SchemaLib) (c : ExtensionConfig.t) (h : heap)
  (extData : jsval) (extName : string) :
  nullish extData = false ->
  let schema := get_prop h extData "schema" in
  let problems := ExtensionConfig.getSchemaProblems S c h extData extName in
  (isString schema = false -> isObject schema = false -> problems = Ok []) /\
  (isObject schema = true -> isPlainObject h schema = false ->
     problems = Ok [mkProblem ERR_SCHEMA_FORMAT schema]) /\
  (forall s, schema = JStr s -> isAllowedSchemaFileExtension S s = false ->
     problems =
       Ok [mkProblem ("Schema file has unsupported extension. Allowed: " ++
                      String.concat ", " (ALLOWED_SCHEMA_EXTENSIONS S))
                     schema]).
Proof.
  intros Hn schema problems. subst problems.
  unfold ExtensionConfig.getSchemaProblems, ExtensionConfig.extDataHasSchema,
    destructure.
  rewrite Hn. fold schema.
  split; [|split].
  - intros Hs Ho. rewrite Hs, Ho. reflexivity.
  - intros Ho Hp. rewrite Ho, Bool.orb_true_r, Hp.
    destruct schema; try discriminate. reflexivity.
  - intros s Hs Ha. rewrite Hs. simpl. rewrite Ha. reflexivity.
Qed.

Lemma schema_problems_witness :
  ExtensionConfig.getSchemaProblems sample_schema_lib sample_registry
    sample_heap (JRef 3) "fake" = Ok [mkProblem ERR_SCHEMA_FORMAT (JRef 2)] /\
  ExtensionConfig.getSchemaProblems sample_schema_lib sample_registry
    sample_heap (JRef 4) "fake" =
    Ok [mkProblem
          "Schema file has unsupported extension. Allowed: .json, .js, .cjs"
          (JStr "schema.yaml")].
Proof.
  split.
  - destruct (schema_problems sample_schema_lib sample_registry sample_heap
                (JRef 3) "fake" eq_refl) as (_ & H & _).
    apply H; reflexivity.
  - destruct (schema_problems sample_schema_lib sample_registry sample_heap
                (JRef 4) "fake" eq_refl) as (_ & _ & H).
    apply (H "schema.yaml"); reflexivity.
Defined.

Lemma strict_eq_refl (v : jsval) : strict_eq v v = true.
Proof.
  destruct v; simpl; auto using Bool.eqb_reflx, Z.eqb_refl, String.eqb_refl,
    Nat.eqb_refl.
Qed.

Lemma set_has_app (s1 s2 : list jsval) (a : jsval) :
  set_has (s1 ++ s2) a = set_has s1 a || set_has s2 a.
Proof.
  unfold set_has. apply existsb_app.
Qed.

Lemma set_has_add (s : list jsval) (v a : jsval) :
  set_has (set_add s v) a = set_has s a || strict_eq a v.
Proof.
  unfold set_add. destruct (set_has s v) eqn:Hv.
  - destruct (strict_eq a v) eqn:Hav; [|rewrite Bool.orb_false_r; reflexivity].
    rewrite Bool.orb_true_r.
    assert (a = v \/ exists x y, a = JBool x /\ v = JBool y /\ Bool.eqb x y = true).
    { destruct a, v; simpl in Hav; try discriminate; auto.
      - right. eauto.
      - apply Z.eqb_eq in Hav. left; congruence.
      - apply String.eqb_eq in Hav. left; congruence.
      - apply Nat.eqb_eq in Hav. left; congruence. }
    destruct H as [-> | (x & y & -> & -> & Hxy)]; [exact Hv|].
    apply Bool.eqb_prop in Hxy. subst. exact Hv.
  - rewrite set_has_app. simpl. rewrite Bool.orb_false_r. reflexivity.
Qed.

Lemma set_has_fold (names s : list jsval) (a : jsval) :
  set_has (fold_left set_add names s) a =
  set_has s a || existsb (strict_eq a) names.
Proof.
  revert s. induction names as [|n names IH]; intros s; simpl.
  - rewrite Bool.orb_false_r. reflexivity.
  - rewrite IH, set_has_add, Bool.orb_assoc. reflexivity.
Qed.

Lemma has_err_app (e : string) (a b : list Problem) :
  has_err e (a ++ b) = has_err e a || has_err e b.
Proof.
  unfold has_err. apply existsb_app.
Qed.

Lemma has_err_push_other (e e' : string) (b : bool) (v : jsval) :
  String.eqb e' e = false -> has_err e (push_if b e' v) = false.
Proof.
  intros H. unfold has_err, push_if. destruct b; simpl; [rewrite H|];
    reflexivity.
Qed.

Lemma element_problems_no_duplicate (es : list jsval) :
  has_err ERR_DUPLICATE (DriverConfig.element_problems es) = false.
Proof.
  induction es as [|x es IH]; [reflexivity|].
  unfold DriverConfig.element_problems in *. simpl flat_map.
  rewrite has_err_app, IH. destruct x; reflexivity.
Qed.

(** One call of the driver hook: the duplicate problem is raised exactly when
    the name is in the set, and the name is added whatever else is wrong. *)
Lemma driver_hook_spec (c : ExtensionConfig.t) (h : heap) (extData : jsval) :
  nullish extData = false ->
  exists ps,
    DriverConfig.getConfigProblems c h extData =
      (Ok ps,
       ExtensionConfig.with_known c
         (set_add (ExtensionConfig.knownAutomationNames c)
                  (automationName h extData))) /\
    has_err ERR_DUPLICATE ps =
      set_has (ExtensionConfig.knownAutomationNames c)
              (automationName h extData).
Proof.
  intros Hn. unfold DriverConfig.getConfigProblems, destructure. rewrite Hn.
  eexists. split; [reflexivity|].
  fold (automationName h extData).
  rewrite !has_err_app, (has_err_push_other _ ERR_AUTOMATION_NAME) by reflexivity.
  assert (Hp : forall (b : bool) (x : jsval) (y : list jsval),
            has_err ERR_DUPLICATE
            (if b then [mkProblem ERR_PLATFORMS_TYPE x]
             else match y with
                  | [] => [mkProblem ERR_PLATFORMS_EMPTY x]
                  | z :: l => DriverConfig.element_problems (z :: l)
                  end) = false).
  { intros [|] x [|z y]; try reflexivity.
    apply element_problems_no_duplicate. }
  rewrite Hp. simpl.
  unfold has_err, push_if.
  destruct (set_has _ _); reflexivity.
Qed.

Lemma generic_no_duplicate (h : heap) (extData : jsval) :
  nullish extData = false ->
  exists ps, ExtensionConfig.getGenericConfigProblems h extData = Ok ps /\
             has_err ERR_DUPLICATE ps = false.
Proof.
  intros Hn. unfold ExtensionConfig.getGenericConfigProblems, destructure.
  rewrite Hn. eexists. split; [reflexivity|].
  rewrite !has_err_app, !has_err_push_other by reflexivity. reflexivity.
Qed.

Lemma schema_no_duplicate (S : SchemaLib) (c : ExtensionConfig.t) (h : heap)
  (extData : jsval) (extName : string) :
  nullish extData = false ->
  exists ps, ExtensionConfig.getSchemaProblems S c h extData extName = Ok ps /\
             has_err ERR_DUPLICATE ps = false.
Proof.
  intros Hn. unfold ExtensionConfig.getSchemaProblems, destructure.
  rewrite Hn.
  destruct (ExtensionConfig.extDataHasSchema h extData);
    [|eexists; split; reflexivity].
  destruct (get_prop h extData "schema");
    repeat match goal with
           | |- context [if ?b then _ else _] => destruct b
           | |- context [match ?o with Some _ => _ | None => _ end] => destruct o
           end;
    eexists; split; reflexivity.
Qed.

Lemma driver_entry_spec (S : SchemaLib) (c : ExtensionConfig.t) (h : heap)
  (k : string) (d : jsval) :
  nullish d = false ->
  exists ps,
    ExtensionConfig.entry_problems S DriverConfig.getConfigProblems c h k d =
      (Ok ps,
       ExtensionConfig.with_known c
         (set_add (ExtensionConfig.knownAutomationNames c)
                  (automationName h d))) /\
    has_err ERR_DUPLICATE ps =
      set_has (ExtensionConfig.knownAutomationNames c) (automationName h d).
Proof.
  intros Hn. unfold ExtensionConfig.entry_problems.
  destruct (generic_no_duplicate h d Hn) as (g & -> & Hg).
  destruct (driver_hook_spec c h d Hn) as (s & -> & Hs).
  destruct (schema_no_duplicate S
              (ExtensionConfig.with_known c
                 (set_add (ExtensionConfig.knownAutomationNames c)
                          (automationName h d))) h d k Hn) as (sc & -> & Hsc).
  eexists. split; [reflexivity|].
  rewrite !has_err_app, Hg, Hs, Hsc, Bool.orb_false_r. reflexivity.
Qed.

Lemma found_get_put_same (f : ExtensionConfig.found) (k : string)
  (ps : list Problem) :
  found_get (ExtensionConfig.found_put f k ps) k = Some ps.
Proof.
  induction f as [|[k' ps'] r IH]; simpl.
  - rewrite String.eqb_refl. reflexivity.
  - destruct (String.eqb k' k) eqn:Hk; simpl; rewrite Hk; auto.
Qed.

Lemma found_get_put_other (f : ExtensionConfig.found) (k k' : string)
  (ps : list Problem) :
  k' <> k ->
  found_get (ExtensionConfig.found_put f k ps) k' = found_get f k'.
Proof.
  intros Hne. induction f as [|[k0 ps0] r IH]; simpl.
  - destruct (String.eqb k k') eqn:Hk; [|reflexivity].
    apply String.eqb_eq in Hk. congruence.
  - destruct (String.eqb k0 k) eqn:Hk; simpl.
    + apply String.eqb_eq in Hk. subst k0.
      destruct (String.eqb k k') eqn:Hk'; [|reflexivity].
      apply String.eqb_eq in Hk'. congruence.
    + rewrite IH. reflexivity.
Qed.

(** An assignment to [foundProblems] records the problems under the name,
    unless the name is [__proto__]. *)
Lemma found_get_set_same (f : ExtensionConfig.found) (k : string)
  (ps : list Problem) :
  k <> "__proto__" ->
  found_get (ExtensionConfig.found_set f k ps) k = Some ps.
Proof.
  intros Hk. unfold ExtensionConfig.found_set.
  apply String.eqb_neq in Hk. rewrite Hk. apply found_get_put_same.
Qed.

Lemma found_get_set_other (f : ExtensionConfig.found) (k k' : string)
  (ps : list Problem) :
  k' <> k ->
  found_get (ExtensionConfig.found_set f k ps) k' = found_get f k'.
Proof.
  intros Hne. unfold ExtensionConfig.found_set.
  destruct (String.eqb k "__proto__"); [reflexivity|].
  apply found_get_put_other. exact Hne.
Qed.

Lemma found_get_set_proto (f : ExtensionConfig.found) (k : string)
  (ps : list Problem) :
  found_get (ExtensionConfig.found_set f k ps) "__proto__" =
  found_get f "__proto__".
Proof.
  unfold ExtensionConfig.found_set.
  destruct (String.eqb k "__proto__") eqn:Hk; [reflexivity|].
  apply found_get_put_other. intros <-. vm_compute in Hk. discriminate.
Qed.

(** The first loop of a driver validation pass that comes to its end, entry
    by entry. *)
Lemma driver_collect_inv (S : SchemaLib) (h : heap) (pairs : props) :
  forall (c c' : ExtensionConfig.t) (acc f : ExtensionConfig.found),
  ExtensionConfig.collect S DriverConfig.getConfigProblems c h pairs acc
    = (Ok f, c') ->
  NoDup (keys pairs) ->
  (forall k d, In (k, d) pairs -> nullish d = false) /\
  c' = ExtensionConfig.with_known c
         (fold_left set_add (map (fun kd => automationName h (snd kd)) pairs)
                    (ExtensionConfig.knownAutomationNames c)) /\
  (forall k, ~ In k (keys pairs) -> found_get f k = found_get acc k) /\
  (forall pre k d post, pairs = (pre ++ (k, d) :: post)%list ->
     k <> "__proto__" ->
     exists ps,
       found_get f k = Some ps /\
       has_err ERR_DUPLICATE ps =
         set_has (fold_left set_add
                    (map (fun kd => automationName h (snd kd)) pre)
                    (ExtensionConfig.knownAutomationNames c))
                 (automationName h d)).
Proof.
  induction pairs as [|[k0 d0] rest IH]; intros c c' acc f Hrun Hnd.
  - simpl in Hrun. injection Hrun as <- <-. simpl.
    split; [intros k d []|]. split; [destruct c; reflexivity|].
    split; [reflexivity|].
    intros [|? ?] ? ? ? Heq; discriminate.
  - simpl in Hrun.
    destruct (nullish d0) eqn:Hn0.
    { unfold ExtensionConfig.entry_problems,
        ExtensionConfig.getGenericConfigProblems, destructure in Hrun.
      rewrite Hn0 in Hrun. discriminate. }
    destruct (driver_entry_spec S c h k0 d0 Hn0) as (ps0 & Hentry & Hdup).
    rewrite Hentry in Hrun.
    inversion Hnd as [|? ? Hnotin Hnd']; subst.
    destruct (IH _ _ _ _ Hrun Hnd') as (Hnn & Hc' & Hkeep & Hpos).
    split; [|split; [|split]].
    + intros k d [H | H]; [injection H as <- <-; exact Hn0|eauto].
    + rewrite Hc'. destruct c; reflexivity.
    + intros k Hk. rewrite Hkeep by (intros Hin; apply Hk; right; exact Hin).
      apply found_get_set_other. intros ->. apply Hk. left; reflexivity.
    + intros pre k d post Heq Hproto. destruct pre as [|x pre]; simpl in Heq.
      * injection Heq as -> -> ->.
        exists ps0. split; [|exact Hdup].
        rewrite Hkeep by exact Hnotin. apply found_get_set_same. exact Hproto.
      * injection Heq as <- ->.
        destruct (Hpos pre k d post eq_refl Hproto) as (ps & Hget & Hd).
        exists ps. split; [exact Hget|]. exact Hd.
Qed.

(** In the sample pass the first driver has no duplicate problem and the
    second has one. *)
Example second_driver_is_flagged :
  fst (ExtensionConfig.collect sample_schema_lib DriverConfig.getConfigProblems
         (ExtensionConfig.with_known sample_registry [])
         (w_heap duplicates_world)
         (toPairs (w_heap duplicates_world) (drivers duplicates_manifest)) [])
  = Ok [("first", []);
        ("second", [mkProblem ERR_DUPLICATE (JStr "XCUITest")])].
Proof.
  reflexivity.
Qed.

(** *** Pruning *)

Lemma mapping_at_props (h : heap) (exts : jsval) (t : loc) (ps : props) :
  mapping_at h exts t ps -> own_props h exts = ps.
Proof.
  intros (l & -> & [[-> H] | [Hp Ht]]); unfold own_props, deref.
  - rewrite H. reflexivity.
  - rewrite Hp, Ht. reflexivity.
Qed.

(** A value that has entries is a record mapping, or a proxy of one. *)
Lemma toPairs_mapping (h : heap) (exts : jsval) (kd : string * jsval)
  (rest : props) :
  toPairs h exts = kd :: rest -> exists t, mapping_at h exts t (kd :: rest).
Proof.
  unfold toPairs, own_props, deref, mapping_at.
  destruct exts as [| | | | |l]; try discriminate.
  destruct (heap_get h l) as [[ps|es|t]|] eqn:Hl; try discriminate.
  - intros ->. exists l, l. auto.
  - destruct (heap_get h t) as [[ps|es|t2]|] eqn:Ht; try discriminate.
    intros ->. exists t, l. auto.
Qed.

Lemma delete_prop_mapping (w : World) (exts : jsval) (t : loc) (ps : props)
  (k : string) :
  mapping_at (w_heap w) exts t ps ->
  let w1 := delete_prop w exts k in
  mapping_at (w_heap w1) exts t (assoc_del ps k) /\
  w_trace w1 = w_trace w /\
  (forall l', l' <> t -> heap_get (w_heap w1) l' = heap_get (w_heap w) l').
Proof.
  intros (l & -> & [[-> H] | [Hp Ht]]); cbv zeta.
  - unfold delete_prop. rewrite H. unfold obj_del. rewrite H. simpl.
    split; [|split; [reflexivity|]].
    + exists t. split; [reflexivity|]. left. split; [reflexivity|].
      eapply heap_get_set_same; eauto.
    + intros l' Hl. apply heap_get_set_other; auto.
  - rewrite (delete_prop_proxy w l t ps k Hp Ht). simpl.
    assert (Hne : l <> t) by (intros ->; congruence).
    split; [|split; [reflexivity|]].
    + exists l. split; [reflexivity|]. right. split.
      * rewrite heap_get_set_other; auto.
      * eapply heap_get_set_same; eauto.
    + intros l' Hl. apply heap_get_set_other; auto.
Qed.

Lemma delete_prop_heap (w : World) (exts : jsval) (t : loc) (ps : props)
  (k : string) :
  mapping_at (w_heap w) exts t ps ->
  w_heap (delete_prop w exts k) =
  heap_set (w_heap w) t (HObject (assoc_del ps k)).
Proof.
  intros (l & -> & [[-> H] | [Hp Ht]]).
  - unfold delete_prop. rewrite H. unfold obj_del. rewrite H. reflexivity.
  - rewrite (delete_prop_proxy w l t ps k Hp Ht). reflexivity.
Qed.

Lemma heap_set_length (h : heap) (l : loc) (o : hobj) :
  List.length (heap_set h l o) = List.length h.
Proof.
  revert l. induction h as [|x r IH]; intros [|l]; simpl; auto.
Qed.

Lemma assoc_del_filter (ps : props) (k : string) :
  assoc_del ps k = filter (fun kd => negb (String.eqb (fst kd) k)) ps.
Proof.
  induction ps as [|[k' v] r IH]; simpl; [reflexivity|].
  destruct (String.eqb k' k); simpl; rewrite IH; reflexivity.
Qed.

Lemma heap_pruned_refl (h : heap) : heap_pruned h h.
Proof.
  split; [reflexivity|]. intros l. left. reflexivity.
Qed.

Lemma heap_pruned_trans (h1 h2 h3 : heap) :
  heap_pruned h1 h2 -> heap_pruned h2 h3 -> heap_pruned h1 h3.
Proof.
  intros [L12 H12] [L23 H23]. split; [congruence|].
  intros l.
  destruct (H23 l) as [E23 | (ps2 & ps3 & G2 & G3 & I23)].
  - rewrite E23. apply H12.
  - destruct (H12 l) as [E12 | (ps1 & ps2' & G1 & G2' & I12)].
    + right. exists ps2, ps3. rewrite <- E12. auto.
    + right. exists ps1, ps3. rewrite G2 in G2'. injection G2' as <-.
      repeat split; auto. intros x Hx. auto.
Qed.

Lemma delete_prop_pruned (w : World) (exts : jsval) (t : loc) (ps : props)
  (k : string) :
  mapping_at (w_heap w) exts t ps ->
  heap_pruned (w_heap w) (w_heap (delete_prop w exts k)).
Proof.
  intros Hm. rewrite (delete_prop_heap w exts t ps k Hm).
  assert (Ht : heap_get (w_heap w) t = Some (HObject ps)).
  { destruct Hm as (l & _ & [[-> H] | [_ H]]); exact H. }
  split; [apply heap_set_length|].
  intros l. destruct (Nat.eq_dec l t) as [-> | Hne].
  - right. exists ps, (assoc_del ps k). split; [exact Ht|]. split.
    + eapply heap_get_set_same; eauto.
    + rewrite assoc_del_filter. intros x Hx.
      apply filter_In in Hx. tauto.
  - left. apply heap_get_set_other. exact Hne.
Qed.

(** Deleting properties cannot make a value impossible to serialise. *)
Lemma serialisable_pruned (h h' : heap) :
  heap_pruned h h' ->
  forall fuel stack v,
    serialisable fuel h stack v = true -> serialisable fuel h' stack v = true.
Proof.
  intros [Hlen Hobj].
  induction fuel as [|fuel IH]; intros stack v; destruct v; simpl; auto.
  destruct (existsb (Nat.eqb l) stack); [auto|].
  destruct (Hobj l) as [-> | (ps & ps' & -> & -> & Hincl)].
  - destruct (heap_get h l) as [[ps|es|t]|]; auto.
    + intros H. rewrite forallb_forall in *. intros x Hx. apply IH, H, Hx.
    + intros H. rewrite forallb_forall in *. intros x Hx. apply IH, H, Hx.
  - intros H. rewrite forallb_forall in *. intros x Hx.
    apply IH, H, Hincl, Hx.
Qed.

Lemma stringify_pruned (h h' : heap) (v : jsval) :
  heap_pruned h h' ->
  JSON_stringify_ok h v = true -> JSON_stringify_ok h' v = true.
Proof.
  intros Hp. unfold JSON_stringify_ok.
  destruct Hp as [Hlen Hobj]. rewrite Hlen.
  apply serialisable_pruned. split; assumption.
Qed.

Lemma type_name_word (t : ExtensionType) : type_name t = kind_word t.
Proof.
  destruct t; reflexivity.
Qed.

(** One step of the second loop, on an entry that has problems. *)
Lemma prune_step (c : ExtensionConfig.t) (exts : jsval) (k : string)
  (p0 : Problem) (problems : list Problem) (rest : ExtensionConfig.found)
  (w : World) :
  ExtensionConfig.prune c exts ((k, p0 :: problems) :: rest) w =
  let w1 := delete_prop w exts k in
  if forallb (fun p => JSON_stringify_ok (w_heap w1) (val p)) (p0 :: problems)
  then
    match ExtensionConfig.prune c exts rest w1 with
    | (Ok lines, w2) =>
        (Ok ((LogExtension (type_name (ExtensionConfig.extensionType c)) k
                :: map LogProblem (p0 :: problems)) ++ lines)%list, w2)
    | (Fail e, w2) => (Fail e, w2)
    end
  else (Fail ExtensionConfig.circular_structure, w1).
Proof.
  reflexivity.
Qed.

(** The lines that the second loop gives when it comes to its end. *)
Lemma prune_lines (c : ExtensionConfig.t) (exts : jsval)
  (f : ExtensionConfig.found) :
  forall (w w' : World) (lines : list log_line),
  ExtensionConfig.prune c exts f w = (Ok lines, w') ->
  lines = flat_map (report_entry (ExtensionConfig.extensionType c)) f.
Proof.
  induction f as [|[k problems] rest IH]; intros w w' lines Hrun.
  - simpl in Hrun. injection Hrun as <- _. reflexivity.
  - destruct problems as [|p0 problems].
    + simpl in Hrun. simpl. eapply IH; eauto.
    + rewrite prune_step in Hrun. cbv zeta in Hrun.
      destruct (forallb _ (p0 :: problems)); [|discriminate].
      destruct (ExtensionConfig.prune c exts rest (delete_prop w exts k))
        as [[lines'|e] w2] eqn:Hrest; [|discriminate].
      injection Hrun as <- _.
      rewrite (IH _ _ _ Hrest).
      cbn [flat_map report_entry snd fst]. rewrite type_name_word.
      reflexivity.
Qed.

(** The world that the second loop leaves, whether it comes to its end or
    not: the calls of the store are as they were, and only the mapping has
    lost properties. *)
Lemma prune_world (c : ExtensionConfig.t) (exts : jsval) (t : loc)
  (f : ExtensionConfig.found) :
  forall (w : World) (ps : props),
  mapping_at (w_heap w) exts t ps ->
  let w' := snd (ExtensionConfig.prune c exts f w) in
  w_trace w' = w_trace w /\
  (forall l', l' <> t -> heap_get (w_heap w') l' = heap_get (w_heap w) l') /\
  heap_pruned (w_heap w) (w_heap w') /\
  (forall lines, fst (ExtensionConfig.prune c exts f w) = Ok lines ->
     mapping_at (w_heap w') exts t (fold_left assoc_del (pruned_names f) ps)).
Proof.
  induction f as [|[k problems] rest IH]; intros w ps Hm; cbv zeta.
  - simpl. repeat split; auto using heap_pruned_refl.
  - destruct problems as [|p0 problems].
    + simpl. apply IH. exact Hm.
    + rewrite prune_step. cbv zeta.
      cbn [pruned_names flat_map snd fst app fold_left].
      destruct (delete_prop_mapping w exts t ps k Hm) as (Hm1 & Htr1 & Hfr1).
      pose proof (delete_prop_pruned w exts t ps k Hm) as Hpr1.
      destruct (forallb _ (p0 :: problems)).
      * specialize (IH (delete_prop w exts k) (assoc_del ps k) Hm1).
        cbv zeta in IH.
        destruct (ExtensionConfig.prune c exts rest (delete_prop w exts k))
          as [[lines|e] w2]; simpl in *;
          destruct IH as (Htr2 & Hfr2 & Hpr2 & Hm2);
          (split; [congruence|]);
          (split; [intros l' Hl; rewrite Hfr2, Hfr1; auto|]);
          (split; [eapply heap_pruned_trans; eauto|]).
        -- intros lines' _. eapply Hm2. reflexivity.
        -- intros lines' H. discriminate.
      * simpl. split; [exact Htr1|]. split; [exact Hfr1|].
        split; [exact Hpr1|]. intros lines H. discriminate.
Qed.

(** The second loop comes to its end when the values of the problems can be
    serialised. *)
Lemma prune_total (c : ExtensionConfig.t) (exts : jsval) (t : loc)
  (f : ExtensionConfig.found) :
  forall (w : World) (ps : props),
  mapping_at (w_heap w) exts t ps ->
  (forall k problems p, In (k, problems) f -> In p problems ->
     JSON_stringify_ok (w_heap w) (val p) = true) ->
  exists lines w', ExtensionConfig.prune c exts f w = (Ok lines, w').
Proof.
  induction f as [|[k problems] rest IH]; intros w ps Hm Hser.
  - simpl. eauto.
  - destruct problems as [|p0 problems].
    + simpl. apply (IH w ps Hm).
      intros k' qs q Hin. apply (Hser k' qs q). right; exact Hin.
    + rewrite prune_step. cbv zeta.
      destruct (delete_prop_mapping w exts t ps k Hm) as (Hm1 & _ & _).
      pose proof (delete_prop_pruned w exts t ps k Hm) as Hpr1.
      assert (Hall : forallb
                (fun p => JSON_stringify_ok (w_heap (delete_prop w exts k))
                            (val p)) (p0 :: problems) = true).
      { apply forallb_forall. intros q Hq.
        apply (stringify_pruned _ _ _ Hpr1).
        apply (Hser k (p0 :: problems) q); [left; reflexivity|exact Hq]. }
      rewrite Hall.
      destruct (IH (delete_prop w exts k) (assoc_del ps k) Hm1)
        as (lines & w2 & ->).
      { intros k' qs q Hin Hq. apply (stringify_pruned _ _ _ Hpr1).
        apply (Hser k' qs q); [right; exact Hin|exact Hq]. }
      eauto.
Qed.

Lemma prune_spec (c : ExtensionConfig.t) (exts : jsval) (t : loc)
  (f : ExtensionConfig.found) (w : World) (ps : props) :
  mapping_at (w_heap w) exts t ps ->
  (forall k problems p, In (k, problems) f -> In p problems ->
     JSON_stringify_ok (w_heap w) (val p) = true) ->
  exists w',
    ExtensionConfig.prune c exts f w =
      (Ok (flat_map (report_entry (ExtensionConfig.extensionType c)) f), w') /\
    mapping_at (w_heap w') exts t (fold_left assoc_del (pruned_names f) ps) /\
    w_trace w' = w_trace w /\
    (forall l', l' <> t -> heap_get (w_heap w') l' = heap_get (w_heap w) l').
Proof.
  intros Hm Hser.
  destruct (prune_total c exts t f w ps Hm Hser) as (lines & w' & Hrun).
  pose proof (prune_lines c exts f w w' lines Hrun) as Hlines.
  pose proof (prune_world c exts t f w ps Hm) as Hw. cbv zeta in Hw.
  rewrite Hrun in Hw. simpl in Hw. destruct Hw as (Htr & Hfr & _ & Hm').
  exists w'. subst lines. split; [exact Hrun|].
  split; [apply (Hm' _ eq_refl)|]. auto.
Qed.

Lemma fold_assoc_del_filter (ks : list string) (ps : props) :
  fold_left assoc_del ks ps =
  filter (fun kd => negb (existsb (String.eqb (fst kd)) ks)) ps.
Proof.
  revert ps. induction ks as [|k ks IH]; intros ps; simpl.
  - induction ps as [|x r IHr]; simpl; [reflexivity|]. rewrite <- IHr.
    reflexivity.
  - rewrite IH, assoc_del_filter.
    induction ps as [|[k' v] r IHr]; simpl; [reflexivity|].
    destruct (String.eqb k' k); simpl; [exact IHr|].
    destruct (existsb (String.eqb k') ks); simpl; rewrite IHr; reflexivity.
Qed.

Lemma pruned_names_in_keys (f : ExtensionConfig.found) (k : string) :
  In k (pruned_names f) -> In k (keys f).
Proof.
  induction f as [|[k0 [|p ps]] r IH]; simpl; auto.
  intros [-> | H]; auto.
Qed.

Lemma pruned_names_found (f : ExtensionConfig.found) (k : string) :
  NoDup (keys f) ->
  existsb (String.eqb k) (pruned_names f) =
  match found_get f k with Some (_ :: _) => true | _ => false end.
Proof.
  induction f as [|[k0 ps0] r IH]; intros Hnd; [reflexivity|].
  inversion Hnd as [|? ? Hnotin Hnd']; subst.
  simpl found_get. destruct (String.eqb k0 k) eqn:Hk.
  - apply String.eqb_eq in Hk. subst k0.
    assert (Hr : existsb (String.eqb k) (pruned_names r) = false).
    { destruct (existsb (String.eqb k) (pruned_names r)) eqn:He; [|reflexivity].
      apply existsb_exists in He. destruct He as (x & Hin & Hx).
      apply String.eqb_eq in Hx. subst x.
      exfalso. apply Hnotin. apply pruned_names_in_keys. exact Hin. }
    destruct ps0; simpl; [exact Hr|].
    rewrite String.eqb_refl. reflexivity.
  - rewrite <- IH by exact Hnd'.
    destruct ps0; simpl; [reflexivity|].
    rewrite String.eqb_sym, Hk. reflexivity.
Qed.

Lemma found_in_get (f : ExtensionConfig.found) (k : string)
  (ps : list Problem) :
  NoDup (keys f) -> In (k, ps) f -> found_get f k = Some ps.
Proof.
  induction f as [|[k0 ps0] r IH]; intros Hnd Hin; [destruct Hin|].
  inversion Hnd as [|? ? Hnotin Hnd']; subst. simpl.
  destruct Hin as [H | Hin].
  - injection H as -> ->. rewrite String.eqb_refl. reflexivity.
  - destruct (String.eqb k0 k) eqn:Hk; [|auto].
    apply String.eqb_eq in Hk. subst k0. exfalso. apply Hnotin.
    apply in_map_iff. exists (k, ps). auto.
Qed.

Lemma found_get_in (f : ExtensionConfig.found) (k : string)
  (ps : list Problem) :
  found_get f k = Some ps -> In (k, ps) f.
Proof.
  induction f as [|[k0 ps0] r IH]; simpl; [discriminate|].
  destruct (String.eqb k0 k) eqn:Hk.
  - apply String.eqb_eq in Hk. subst k0. intros H. injection H as ->. auto.
  - auto.
Qed.

Lemma found_put_keys (f : ExtensionConfig.found) (k : string)
  (ps : list Problem) :
  keys (ExtensionConfig.found_put f k ps) =
  if existsb (String.eqb k) (keys f) then keys f else (keys f ++ [k])%list.
Proof.
  unfold keys. induction f as [|[k0 ps0] r IH]; simpl; [reflexivity|].
  rewrite (String.eqb_sym k k0).
  destruct (String.eqb k0 k) eqn:Hk; simpl; [reflexivity|].
  rewrite IH.
  destruct (existsb (String.eqb k) (map fst r)); reflexivity.
Qed.

Lemma found_set_keys (f : ExtensionConfig.found) (k : string)
  (ps : list Problem) :
  forall k', In k' (keys (ExtensionConfig.found_set f k ps)) ->
             k' = k \/ In k' (keys f).
Proof.
  intros k'. unfold ExtensionConfig.found_set.
  destruct (String.eqb k "__proto__"); [auto|].
  rewrite found_put_keys.
  destruct (existsb (String.eqb k) (keys f)); [auto|].
  intros H. apply in_app_or in H. destruct H as [H | [<- | []]]; auto.
Qed.

Lemma found_set_nodup (f : ExtensionConfig.found) (k : string)
  (ps : list Problem) :
  NoDup (keys f) -> NoDup (keys (ExtensionConfig.found_set f k ps)).
Proof.
  intros Hnd. unfold ExtensionConfig.found_set.
  destruct (String.eqb k "__proto__"); [exact Hnd|].
  rewrite found_put_keys.
  destruct (existsb (String.eqb k) (keys f)) eqn:He; [exact Hnd|].
  assert (Hnew : ~ In k (keys f)).
  { intros Hx.
    assert (existsb (String.eqb k) (keys f) = true).
    { apply existsb_exists. exists k. split; [exact Hx|apply String.eqb_refl]. }
    congruence. }
  clear He. induction (keys f) as [|x l IH]; simpl.
  - constructor; [intros []|constructor].
  - inversion Hnd as [|? ? Hnotin Hnd']; subst. constructor.
    + intros Hin. apply in_app_or in Hin. destruct Hin as [Hin | [<- | []]].
      * contradiction.
      * apply Hnew. left; reflexivity.
    + apply IH; [exact Hnd'|]. intros Hin. apply Hnew. right; exact Hin.
Qed.

Lemma generic_total (h : heap) (extData : jsval) :
  nullish extData = false ->
  exists ps, ExtensionConfig.getGenericConfigProblems h extData = Ok ps.
Proof.
  intros Hn. destruct (generic_no_duplicate h extData Hn) as (ps & H & _).
  eauto.
Qed.

Lemma schema_total (S : SchemaLib) (c : ExtensionConfig.t) (h : heap)
  (extData : jsval) (extName : string) :
  nullish extData = false ->
  exists ps, ExtensionConfig.getSchemaProblems S c h extData extName = Ok ps.
Proof.
  intros Hn.
  destruct (schema_no_duplicate S c h extData extName Hn) as (ps & H & _).
  eauto.
Qed.

(** A deletion leaves the store as it is, or marks it dirty. *)
Lemma delete_prop_io (w : World) (o : jsval) (k : string) :
  w_io (delete_prop w o k) = w_io w \/
  w_io (delete_prop w o k) = set_dirty (w_io w) true.
Proof.
  unfold delete_prop. destruct o; auto.
  destruct (heap_get (w_heap w) l) as [[ps|es|t]|]; auto.
  unfold proxy_delete. destruct (has_property _ k); simpl; auto.
Qed.

(** The second loop never changes the path of the store. *)
Lemma prune_path (c : ExtensionConfig.t) (exts : jsval)
  (f : ExtensionConfig.found) :
  forall w,
    _manifestPath (w_io (snd (ExtensionConfig.prune c exts f w))) =
    _manifestPath (w_io w).
Proof.
  induction f as [|[k [|p0 problems]] rest IH]; intros w; auto.
  - simpl. auto.
  - rewrite prune_step. cbv zeta.
    assert (Hd : _manifestPath (w_io (delete_prop w exts k))
                 = _manifestPath (w_io w)).
    { destruct (delete_prop_io w exts k) as [-> | ->]; reflexivity. }
    destruct (forallb _ (p0 :: problems)); [|exact Hd].
    specialize (IH (delete_prop w exts k)).
    destruct (ExtensionConfig.prune c exts rest (delete_prop w exts k))
      as [[lines|e] w2]; simpl in *; congruence.
Qed.

Section Pipeline.

Variable S : SchemaLib.
Variable hook : ExtensionConfig.t -> heap -> jsval ->
                result (list Problem) * ExtensionConfig.t.
Hypothesis hook_total : forall c h d,
  nullish d = false -> exists ps c', hook c h d = (Ok ps, c').

Lemma entry_total (c : ExtensionConfig.t) (h : heap) (k : string) (d : jsval) :
  nullish d = false ->
  exists ps c', ExtensionConfig.entry_problems S hook c h k d = (Ok ps, c').
Proof.
  intros Hn. unfold ExtensionConfig.entry_problems.
  destruct (generic_total h d Hn) as (g & ->).
  destruct (hook_total c h d Hn) as (s & c1 & ->).
  destruct (schema_total S c1 h d k Hn) as (sc & ->).
  eauto.
Qed.

(** The first loop of [validate], entry by entry.  The problems of an entry
    are recorded under its name, except under the name [__proto__]. *)
Lemma collect_spec (h : heap) (pairs : props) :
  forall (c : ExtensionConfig.t) (acc : ExtensionConfig.found),
  (forall k d, In (k, d) pairs -> nullish d = false) ->
  NoDup (keys pairs) ->
  NoDup (keys acc) ->
  exists f,
    ExtensionConfig.collect S hook c h pairs acc
      = (Ok f, registry_after S hook c h pairs) /\
    NoDup (keys f) /\
    (forall k, ~ In k (keys pairs) -> found_get f k = found_get acc k) /\
    found_get f "__proto__" = found_get acc "__proto__" /\
    (forall pre k d post, pairs = (pre ++ (k, d) :: post)%list ->
       exists ps c',
         ExtensionConfig.entry_problems S hook
           (registry_after S hook c h pre) h k d = (Ok ps, c') /\
         (k <> "__proto__" -> found_get f k = Some ps)).
Proof.
  induction pairs as [|[k0 d0] rest IH]; intros c acc Hnn Hnd Hacc.
  - exists acc. simpl. repeat split; auto.
    intros [|? ?] ? ? ? Heq; discriminate.
  - simpl.
    destruct (entry_total c h k0 d0 (Hnn k0 d0 (or_introl eq_refl)))
      as (ps0 & c1 & Hentry).
    rewrite Hentry. simpl snd.
    inversion Hnd as [|? ? Hnotin Hnd']; subst.
    destruct (IH c1 (ExtensionConfig.found_set acc k0 ps0))
      as (f & Hrun & Hf & Hkeep & Hproto & Hpos); auto.
    { intros k d Hin. apply (Hnn k d). right; exact Hin. }
    { apply found_set_nodup; assumption. }
    exists f. split; [exact Hrun|]. split; [exact Hf|]. split; [|split].
    + intros k Hk. rewrite Hkeep by (intros Hin; apply Hk; right; exact Hin).
      apply found_get_set_other. intros ->. apply Hk. left; reflexivity.
    + rewrite Hproto. apply found_get_set_proto.
    + intros pre k d post Heq. destruct pre as [|x pre]; simpl in Heq.
      * injection Heq as -> -> ->.
        exists ps0, c1. split; [exact Hentry|]. intros Hk.
        rewrite Hkeep by exact Hnotin. apply found_get_set_same. exact Hk.
      * injection Heq as <- ->. simpl registry_after. rewrite Hentry.
        exact (Hpos pre k d post eq_refl).
Qed.

(** Without an entry named [__proto__], [foundProblems] lists the entries
    of the mapping in their order. *)
Lemma collect_keys (h : heap) (pairs : props) :
  forall (c c' : ExtensionConfig.t) (acc f : ExtensionConfig.found),
  ExtensionConfig.collect S hook c h pairs acc = (Ok f, c') ->
  ~ In "__proto__" (keys pairs) ->
  NoDup (keys acc ++ keys pairs) ->
  keys f = (keys acc ++ keys pairs)%list.
Proof.
  induction pairs as [|[k0 d0] rest IH]; intros c c' acc f Hrun Hproto Hnd.
  - simpl in Hrun. injection Hrun as <- _. simpl. rewrite app_nil_r.
    reflexivity.
  - simpl in Hrun.
    destruct (ExtensionConfig.entry_problems S hook c h k0 d0)
      as [[ps0|e] c1]; [|discriminate].
    assert (Hk0 : String.eqb k0 "__proto__" = false).
    { apply String.eqb_neq. intros ->. apply Hproto. left; reflexivity. }
    assert (Hnew : existsb (String.eqb k0) (keys acc) = false).
    { destruct (existsb (String.eqb k0) (keys acc)) eqn:He; [|reflexivity].
      apply existsb_exists in He. destruct He as (x & Hx & Hxe).
      apply String.eqb_eq in Hxe. subst x.
      exfalso. simpl in Hnd.
      apply NoDup_remove_2 in Hnd. apply Hnd. apply in_or_app. left; exact Hx. }
    assert (Hkeys : keys (ExtensionConfig.found_set acc k0 ps0)
                    = (keys acc ++ [k0])%list).
    { unfold ExtensionConfig.found_set. rewrite Hk0, found_put_keys, Hnew.
      reflexivity. }
    rewrite (IH _ _ _ _ Hrun).
    + rewrite Hkeys, <- app_assoc. reflexivity.
    + intros Hin. apply Hproto. right; exact Hin.
    + rewrite Hkeys, <- app_assoc. exact Hnd.
Qed.

(** [validate] on a mapping whose records can all be destructured, when the
    values of the problems can be serialised. *)
Lemma validate_spec (c : ExtensionConfig.t) (exts : jsval) (w : World)
  (t : loc) (ps : props) :
  mapping_at (w_heap w) exts t ps ->
  (forall k d, In (k, d) ps -> nullish d = false) ->
  NoDup (keys ps) ->
  exists f,
    ExtensionConfig.collect S hook c (w_heap w) ps [] =
      (Ok f, registry_after S hook c (w_heap w) ps) /\
    NoDup (keys f) /\
    found_get f "__proto__" = None /\
    (forall k, ~ In k (keys ps) -> found_get f k = None) /\
    (forall pre k d post, ps = (pre ++ (k, d) :: post)%list ->
       exists problems c1,
         ExtensionConfig.entry_problems S hook
           (registry_after S hook c (w_heap w) pre) (w_heap w) k d
           = (Ok problems, c1) /\
         (k <> "__proto__" -> found_get f k = Some problems)) /\
    (~ In "__proto__" (keys ps) -> keys f = keys ps) /\
    ((forall k problems p, found_get f k = Some problems -> In p problems ->
        JSON_stringify_ok (w_heap w) (val p) = true) ->
     exists c' w',
       ExtensionConfig.validate S hook c exts w = (Ok exts, c', w') /\
       ExtensionConfig.logged c' =
         (ExtensionConfig.logged (registry_after S hook c (w_heap w) ps) ++
          report (ExtensionConfig.extensionType
                    (registry_after S hook c (w_heap w) ps))
                 (_manifestPath (w_io w)) f)%list /\
       ExtensionConfig.knownAutomationNames c' =
         ExtensionConfig.knownAutomationNames
           (registry_after S hook c (w_heap w) ps) /\
       mapping_at (w_heap w') exts t
         (fold_left assoc_del (pruned_names f) ps) /\
       (forall l, l <> t -> heap_get (w_heap w') l = heap_get (w_heap w) l) /\
       w_trace w' = w_trace w).
Proof.
  intros Hm Hnn Hnd.
  destruct (collect_spec (w_heap w) ps c [] Hnn Hnd (NoDup_nil _))
    as (f & Hrun & Hf & Hout & Hproto & Hpos).
  exists f. split; [exact Hrun|]. split; [exact Hf|].
  split; [exact Hproto|]. split; [exact Hout|]. split; [exact Hpos|]. split.
  { intros Hnp. apply (collect_keys _ _ _ _ _ _ Hrun Hnp). exact Hnd. }
  intros Hser.
  set (c1 := registry_after S hook c (w_heap w) ps) in *.
  destruct (prune_spec c1 exts t f w ps Hm) as (w1 & Hprune & Hm1 & Htr & Hfr).
  { intros k problems p Hin. apply (Hser k problems p).
    apply found_in_get; assumption. }
  pose proof (prune_path c1 exts f w) as Hpath.
  rewrite Hprune in Hpath. simpl in Hpath.
  unfold ExtensionConfig.validate, toPairs.
  rewrite (mapping_at_props _ _ _ _ Hm), Hrun, Hprune.
  eexists. exists w1. split; [reflexivity|].
  split; [|split; [|split; [exact Hm1|split; [exact Hfr|exact Htr]]]].
  - unfold report. rewrite Hpath.
    destruct (flat_map (report_entry (ExtensionConfig.extensionType c1)) f);
      simpl.
    + rewrite app_nil_r. reflexivity.
    + unfold ExtensionConfig.configKey. rewrite type_name_word. reflexivity.
  - destruct (flat_map (report_entry (ExtensionConfig.extensionType c1)) f);
      reflexivity.
Qed.

End Pipeline.

Lemma driver_hook_total (c : ExtensionConfig.t) (h : heap) (d : jsval) :
  nullish d = false ->
  exists ps c', DriverConfig.getConfigProblems c h d = (Ok ps, c').
Proof.
  intros Hn. destruct (driver_hook_spec c h d Hn) as (ps & H & _). eauto.
Qed.

Lemma default_hook_total (c : ExtensionConfig.t) (h : heap) (d : jsval) :
  nullish d = false ->
  exists ps c', ExtensionConfig.getConfigProblems c h d = (Ok ps, c').
Proof.
  intros _. unfold ExtensionConfig.getConfigProblems. eauto.
Qed.

(** Neither hook logs or changes the type of the registry. *)
Lemma entry_keeps_log (S : SchemaLib)
  (hook : ExtensionConfig.t -> heap -> jsval ->
          result (list Problem) * ExtensionConfig.t)
  (c : ExtensionConfig.t) (h : heap) (k : string) (d : jsval) :
  hook = DriverConfig.getConfigProblems \/
  hook = ExtensionConfig.getConfigProblems ->
  let c' := snd (ExtensionConfig.entry_problems S hook c h k d) in
  ExtensionConfig.logged c' = ExtensionConfig.logged c /\
  ExtensionConfig.extensionType c' = ExtensionConfig.extensionType c.
Proof.
  intros Hhook. cbv zeta. unfold ExtensionConfig.entry_problems.
  destruct (ExtensionConfig.getGenericConfigProblems h d); [|auto].
  destruct Hhook as [-> | ->].
  - unfold DriverConfig.getConfigProblems.
    destruct (destructure d); [|auto].
    match goal with
    | |- context [ExtensionConfig.getSchemaProblems ?a ?b ?c ?d ?e] =>
        destruct (ExtensionConfig.getSchemaProblems a b c d e)
    end; auto.
  - unfold ExtensionConfig.getConfigProblems.
    match goal with
    | |- context [ExtensionConfig.getSchemaProblems ?a ?b ?c ?d ?e] =>
        destruct (ExtensionConfig.getSchemaProblems a b c d e)
    end; auto.
Qed.

Lemma registry_after_keeps_log (S : SchemaLib)
  (hook : ExtensionConfig.t -> heap -> jsval ->
          result (list Problem) * ExtensionConfig.t)
  (h : heap) (pairs : props) :
  hook = DriverConfig.getConfigProblems \/
  hook = ExtensionConfig.getConfigProblems ->
  forall c,
    ExtensionConfig.logged (registry_after S hook c h pairs)
      = ExtensionConfig.logged c /\
    ExtensionConfig.extensionType (registry_after S hook c h pairs)
      = ExtensionConfig.extensionType c.
Proof.
  intros Hhook. induction pairs as [|[k d] rest IH]; intros c; [auto|].
  simpl. destruct (IH (snd (ExtensionConfig.entry_problems S hook c h k d)))
    as [H1 H2].
  destruct (entry_keeps_log S hook c h k d Hhook) as [H3 H4].
  split; congruence.
Qed.

(** C6. Let [exts] be a record mapping with the entries [pairs], and let a
    [DriverConfig.validate] pass on it come to its end.  The seen-set is
    cleared at the start, so the pass does not depend on the names seen in a
    previous pass.  Each record is checked with the seen-set holding the
    [automationName]s of the entries before it, and the check gives the
    problem 'Multiple drivers claim support for the same automationName'
    exactly when one of them has the same [automationName] (so the first
    occurrence has none).  After the pass every [automationName] of the
    mapping is in the seen-set, whatever else was wrong with its record.
    What the pass logs is the batch report of the problems it recorded,
    which are, for every entry not named [__proto__], the problems of its
    check; and an entry with a recorded problem is deleted from the
    mapping. *)
Theorem duplicate_automation_names (S : SchemaLib) (c c' : ExtensionConfig.t)
  (exts r : jsval) (w w' : World) (t : loc) (pairs : props) :
  let h := w_heap w in
  let names (l : props) := map (fun kd => automationName h (snd kd)) l in
  let duplicate :=
    "Multiple drivers claim support for the same automationName" in
  mapping_at h exts t pairs ->
  NoDup (keys pairs) ->
  DriverConfig.validate S c exts w = (Ok r, c', w') ->
  (forall seen,
     DriverConfig.validate S (ExtensionConfig.with_known c seen) exts w =
     DriverConfig.validate S c exts w) /\
  (forall k d, In (k, d) pairs ->
     set_has (ExtensionConfig.knownAutomationNames c')
             (automationName h d) = true) /\
  exists f,
    ExtensionConfig.logged c' =
      (ExtensionConfig.logged c ++
       report (ExtensionConfig.extensionType c) (_manifestPath (w_io w)) f)%list /\
    forall pre k d post, pairs = (pre ++ (k, d) :: post)%list ->
      exists specific problems c2,
        DriverConfig.getConfigProblems
          (ExtensionConfig.with_known c (fold_left set_add (names pre) []))
          h d = (Ok specific, c2) /\
        has_err duplicate specific =
          existsb (fun kd => strict_eq (automationName h d)
                                       (automationName h (snd kd))) pre /\
        (k <> "__proto__" ->
         found_get f k = Some problems /\
         has_err duplicate problems = has_err duplicate specific /\
         (problems <> [] ->
          assoc_has (toPairs (w_heap w') exts) k = false)).
Proof.
  intros h names duplicate Hm Hnd Hrun. split; [reflexivity|].
  unfold DriverConfig.validate, ExtensionConfig.validate, toPairs in Hrun.
  fold h in Hrun. rewrite (mapping_at_props _ _ _ _ Hm) in Hrun.
  destruct (ExtensionConfig.collect S DriverConfig.getConfigProblems
              (ExtensionConfig.with_known c []) h pairs [])
    as [[f|e] c1] eqn:Hcollect; [|discriminate].
  destruct (driver_collect_inv S h pairs _ _ _ _ Hcollect Hnd)
    as (Hnn & Hc1 & Hout & Hpos).
  simpl in Hc1.
  assert (Hf : NoDup (keys f)).
  { destruct (collect_spec S DriverConfig.getConfigProblems driver_hook_total
                h pairs (ExtensionConfig.with_known c []) [] Hnn Hnd
                (NoDup_nil _)) as (f' & Hrun' & Hf' & _).
    rewrite Hcollect in Hrun'. injection Hrun' as -> _. exact Hf'. }
  destruct (ExtensionConfig.prune c1 exts f w) as [[lines|e] w1] eqn:Hprune;
    [|discriminate].
  pose proof (prune_lines c1 exts f w w1 lines Hprune) as Hlines.
  pose proof (prune_path c1 exts f w) as Hpath.
  rewrite Hprune in Hpath. simpl in Hpath.
  pose proof (prune_world c1 exts t f w pairs Hm) as Hw.
  cbv zeta in Hw. rewrite Hprune in Hw. simpl in Hw.
  destruct Hw as (_ & _ & _ & Hm1). specialize (Hm1 lines eq_refl).
  assert (Hty : ExtensionConfig.extensionType c1
                = ExtensionConfig.extensionType c) by (rewrite Hc1; reflexivity).
  assert (Hlog1 : ExtensionConfig.logged c1 = ExtensionConfig.logged c)
    by (rewrite Hc1; reflexivity).
  assert (Hknown : ExtensionConfig.knownAutomationNames c' =
                   ExtensionConfig.knownAutomationNames c1).
  { destruct lines; injection Hrun as _ <- _; reflexivity. }
  assert (Hw' : w' = w1)
    by (destruct lines; injection Hrun as _ _ <-; reflexivity).
  assert (Hexists : forall (pre : props) (d : jsval),
            set_has (fold_left set_add (names pre) []) (automationName h d) =
            existsb (fun kd => strict_eq (automationName h d)
                                         (automationName h (snd kd))) pre).
  { intros pre d. rewrite set_has_fold. simpl. unfold names.
    clear. induction pre as [|x pre IH]; simpl; [reflexivity|].
    rewrite IH. reflexivity. }
  split.
  { intros k d Hin. rewrite Hknown, Hc1. simpl.
    rewrite set_has_fold. simpl.
    apply existsb_exists. exists (automationName h d). split.
    - apply in_map_iff. exists (k, d). auto.
    - apply strict_eq_refl. }
  exists f. split.
  { unfold report. rewrite <- Hty, <- Hlines, <- Hlog1.
    destruct lines as [|line lines]; injection Hrun as _ <- _; simpl.
    - rewrite app_nil_r. reflexivity.
    - unfold ExtensionConfig.configKey. rewrite type_name_word, Hpath.
      reflexivity. }
  intros pre k d post Heq.
  assert (Hn : nullish d = false).
  { apply (Hnn k d). rewrite Heq. apply in_or_app. right. left. reflexivity. }
  destruct (driver_hook_spec
              (ExtensionConfig.with_known c (fold_left set_add (names pre) []))
              h d Hn) as (specific & Hhook & Hdup).
  simpl in Hdup. rewrite Hexists in Hdup.
  destruct (string_dec k "__proto__") as [Hproto | Hproto].
  - exists specific, []. eexists. split; [exact Hhook|]. split; [exact Hdup|].
    intros Hk. contradiction.
  - destruct (Hpos pre k d post Heq Hproto) as (ps & Hget & Hd).
    exists specific, ps. eexists. split; [exact Hhook|]. split; [exact Hdup|].
    intros _. split; [exact Hget|]. split.
    + change duplicate with ERR_DUPLICATE. rewrite Hd, Hdup. simpl.
      exact (Hexists pre d).
    + intros Hne. rewrite Hw'. unfold toPairs.
      rewrite (mapping_at_props _ _ _ _ Hm1), fold_assoc_del_filter.
      unfold assoc_has.
      assert (Hbad : existsb (String.eqb k) (pruned_names f) = true).
      { rewrite (pruned_names_found f k Hf), Hget.
        destruct ps; [congruence|reflexivity]. }
      clear - Hbad.
      induction pairs as [|[k0 v0] l IH]; simpl; [reflexivity|].
      destruct (existsb (String.eqb k0) (pruned_names f)) eqn:He; simpl;
        [exact IH|].
      destruct (String.eqb k0 k) eqn:Hk; [|exact IH].
      apply String.eqb_eq in Hk. subst k0. congruence.
Qed.

Lemma duplicate_automation_names_witness :
  let w := duplicates_world in
  let exts := drivers duplicates_manifest in
  let pairs := [("first", JRef 1); ("second", JRef 3)] in
  let h := w_heap w in
  let names (l : props) := map (fun kd => automationName h (snd kd)) l in
  let duplicate :=
    "Multiple drivers claim support for the same automationName" in
  let r := DriverConfig.validate sample_schema_lib sample_registry exts w in
  let c' := snd (fst r) in
  let w' := snd r in
  (forall seen,
     DriverConfig.validate sample_schema_lib
       (ExtensionConfig.with_known sample_registry seen) exts w =
     DriverConfig.validate sample_schema_lib sample_registry exts w) /\
  (forall k d, In (k, d) pairs ->
     set_has (ExtensionConfig.knownAutomationNames c')
             (automationName h d) = true) /\
  exists f,
    ExtensionConfig.logged c' =
      (ExtensionConfig.logged sample_registry ++
       report Driver (_manifestPath (w_io w)) f)%list /\
    forall pre k d post, pairs = (pre ++ (k, d) :: post)%list ->
      exists specific problems c2,
        DriverConfig.getConfigProblems
          (ExtensionConfig.with_known sample_registry
             (fold_left set_add (names pre) []))
          h d = (Ok specific, c2) /\
        has_err duplicate specific =
          existsb (fun kd => strict_eq (automationName h d)
                                       (automationName h (snd kd))) pre /\
        (k <> "__proto__" ->
         found_get f k = Some problems /\
         has_err duplicate problems = has_err duplicate specific /\
         (problems <> [] ->
          assoc_has (toPairs (w_heap w') exts) k = false)).
Proof.
  apply (duplicate_automation_names sample_schema_lib sample_registry
           (snd (fst (DriverConfig.validate sample_schema_lib sample_registry
                        (drivers duplicates_manifest) duplicates_world)))
           (drivers duplicates_manifest) (drivers duplicates_manifest)
           duplicates_world
           (snd (DriverConfig.validate sample_schema_lib sample_registry
                   (drivers duplicates_manifest) duplicates_world))
           4 [("first", JRef 1); ("second", JRef 3)]).
  - exists 7. split; [reflexivity|]. right. split; reflexivity.
  - repeat constructor; simpl; intuition discriminate.
  - reflexivity.
Defined.

(** In the sample pass the second driver is reported and pruned. *)
Example second_driver_is_reported :
  let r := DriverConfig.validate sample_schema_lib sample_registry
             (drivers duplicates_manifest) duplicates_world in
  fst (fst r) = Ok (drivers duplicates_manifest) /\
  ExtensionConfig.logged (snd (fst r)) =
    [LogHeader "drivers" (Some sample_path);
     LogExtension "driver" "second";
     LogProblem
       (mkProblem "Multiple drivers claim support for the same automationName"
                  (JStr "XCUITest"))] /\
  toPairs (w_heap (snd r)) (drivers duplicates_manifest) = [("first", JRef 1)].
Proof.
  repeat split.
Qed.

(** C5, as stated, fails in three ways.  When the record of an entry is
    null, the destructuring in [getGenericConfigProblems] throws a
    [TypeError], which [validate] does not catch: nothing is deleted and no
    mapping is returned.  When the offending value of a problem cannot be
    serialised (here the [version] of a record is the record itself),
    [JSON.stringify] throws a [TypeError] while the report is built, after
    the entry was deleted.  And an entry named [__proto__] stays in the
    mapping whatever its problems, which are not reported either. *)
Lemma validate_throws_or_keeps_faulty_entry :
  (toPairs (w_heap null_record_world) (drivers null_record_manifest)
     = [("broken", JNull)] /\
   DriverConfig.validate sample_schema_lib sample_registry
     (drivers null_record_manifest) null_record_world
     = (Fail (TypeError "Cannot destructure extData as it is null or undefined"),
        sample_registry, null_record_world)) /\
  (toPairs (w_heap cyclic_world) cyclic_mapping = [("loop", JRef 0)] /\
   (let r := DriverConfig.validate sample_schema_lib sample_registry
               cyclic_mapping cyclic_world in
    fst (fst r) = Fail (TypeError "Converting circular structure to JSON") /\
    toPairs (w_heap (snd r)) cyclic_mapping = [])) /\
  (toPairs (w_heap proto_entry_world) proto_entry_mapping
     = [("__proto__", JStr "no record")] /\
   (exists problems,
      ExtensionConfig.entry_problems sample_schema_lib
        DriverConfig.getConfigProblems sample_registry
        (w_heap proto_entry_world) "__proto__" (JStr "no record")
        = (Ok problems, ExtensionConfig.with_known sample_registry [JUndefined])
      /\ List.length problems = 8) /\
   DriverConfig.validate sample_schema_lib sample_registry
     proto_entry_mapping proto_entry_world
     = (Ok proto_entry_mapping,
        ExtensionConfig.with_known sample_registry [JUndefined],
        proto_entry_world)).
Proof.
  split; [split; reflexivity|]. split; [split; [reflexivity|split; reflexivity]|].
  split; [reflexivity|]. split; [|reflexivity].
  eexists. split; reflexivity.
Qed.

(** C5, amended.  Let [exts] be a record mapping none of whose records is
    null or undefined and none of whose entries is named [__proto__], let
    the hook be the one of the driver registry or the default one, and let
    the offending values of the problems found be values that
    [JSON.stringify] can serialise.  Then [validate] does not throw and
    returns [exts] itself.  Each entry gets the problem list of
    [entry_problems] (generic, then type-specific, then schema checks) in
    the registry state left by the entries before it; afterwards the mapping
    holds exactly the entries with an empty list, in their order and with
    their values; what [validate] logs is the batch report of the problems
    found: nothing when no entry has a problem, else a header line and, for
    each entry with problems, in the order of the mapping, a line naming it
    and one line for each of its problems; no other object of the heap is
    touched and no collaborator of the store is called. *)
Theorem validate_prunes (S : SchemaLib)
  (hook : ExtensionConfig.t -> heap -> jsval ->
          result (list Problem) * ExtensionConfig.t)
  (c : ExtensionConfig.t) (exts : jsval) (w : World) (t : loc) (ps : props) :
  hook = DriverConfig.getConfigProblems \/
  hook = ExtensionConfig.getConfigProblems ->
  mapping_at (w_heap w) exts t ps ->
  (forall k d, In (k, d) ps -> nullish d = false) ->
  NoDup (keys ps) ->
  ~ In "__proto__" (keys ps) ->
  (forall f c1 k problems p,
     ExtensionConfig.collect S hook c (w_heap w) ps [] = (Ok f, c1) ->
     found_get f k = Some problems -> In p problems ->
     JSON_stringify_ok (w_heap w) (val p) = true) ->
  exists f c' w',
    ExtensionConfig.collect S hook c (w_heap w) ps [] =
      (Ok f, registry_after S hook c (w_heap w) ps) /\
    ExtensionConfig.validate S hook c exts w = (Ok exts, c', w') /\
    toPairs (w_heap w') exts = filter (fun kd => no_problems f (fst kd)) ps /\
    keys f = keys ps /\
    (forall pre k d post, ps = (pre ++ (k, d) :: post)%list ->
       exists problems c1,
         ExtensionConfig.entry_problems S hook
           (registry_after S hook c (w_heap w) pre) (w_heap w) k d
           = (Ok problems, c1) /\
         found_get f k = Some problems) /\
    ExtensionConfig.logged c' =
      (ExtensionConfig.logged c ++
       report (ExtensionConfig.extensionType c) (_manifestPath (w_io w)) f)%list /\
    (forall l, l <> t -> heap_get (w_heap w') l = heap_get (w_heap w) l) /\
    w_trace w' = w_trace w.
Proof.
  intros Hhook Hm Hnn Hnd Hproto Hser.
  assert (Htotal : forall c h d, nullish d = false ->
                     exists ps c', hook c h d = (Ok ps, c')).
  { destruct Hhook as [-> | ->];
      auto using driver_hook_total, default_hook_total. }
  destruct (validate_spec S hook Htotal c exts w t ps Hm Hnn Hnd)
    as (f & Hrun & Hf & _ & _ & Hpos & Hkeys & Hgo).
  destruct Hgo as (c' & w' & Hval & Hlog & _ & Hm' & Hfr & Htr).
  { intros k problems p. apply (Hser f _ k problems p Hrun). }
  destruct (registry_after_keeps_log S hook (w_heap w) ps Hhook c)
    as [Hl Ht].
  exists f, c', w'. split; [exact Hrun|]. split; [exact Hval|].
  split; [|split; [exact (Hkeys Hproto)|split; [|split; [|split]]]].
  - unfold toPairs.
    rewrite (mapping_at_props _ _ _ _ Hm'), fold_assoc_del_filter.
    apply filter_ext_in. intros [k d] Hin. simpl fst.
    rewrite (pruned_names_found f k Hf). unfold no_problems.
    destruct (in_split _ _ Hin) as (pre & post & Heq).
    destruct (Hpos pre k d post Heq) as (problems & c1 & _ & Hget).
    rewrite Hget.
    + destruct problems; reflexivity.
    + intros ->. apply Hproto. apply in_map_iff. exists ("__proto__", d). auto.
  - intros pre k d post Heq.
    destruct (Hpos pre k d post Heq) as (problems & c1 & Hentry & Hget).
    exists problems, c1. split; [exact Hentry|]. apply Hget.
    intros ->. apply Hproto. rewrite Heq. unfold keys. rewrite map_app.
    apply in_or_app. right. left. reflexivity.
  - rewrite Hlog, Hl, Ht. reflexivity.
  - exact Hfr.
  - exact Htr.
Qed.

Lemma validate_prunes_witness :
  let w := duplicates_world in
  let exts := drivers duplicates_manifest in
  let ps := [("first", JRef 1); ("second", JRef 3)] in
  let c := ExtensionConfig.with_known sample_registry [] in
  exists f c' w',
    ExtensionConfig.collect sample_schema_lib DriverConfig.getConfigProblems
      c (w_heap w) ps [] =
      (Ok f, registry_after sample_schema_lib DriverConfig.getConfigProblems
               c (w_heap w) ps) /\
    ExtensionConfig.validate sample_schema_lib DriverConfig.getConfigProblems
      c exts w = (Ok exts, c', w') /\
    toPairs (w_heap w') exts = filter (fun kd => no_problems f (fst kd)) ps /\
    keys f = keys ps /\
    (forall pre k d post, ps = (pre ++ (k, d) :: post)%list ->
       exists problems c1,
         ExtensionConfig.entry_problems sample_schema_lib
           DriverConfig.getConfigProblems
           (registry_after sample_schema_lib DriverConfig.getConfigProblems
              c (w_heap w) pre) (w_heap w) k d
           = (Ok problems, c1) /\
         found_get f k = Some problems) /\
    ExtensionConfig.logged c' =
      (ExtensionConfig.logged c ++
       report (ExtensionConfig.extensionType c) (_manifestPath (w_io w)) f)%list /\
    (forall l, l <> 4 -> heap_get (w_heap w') l = heap_get (w_heap w) l) /\
    w_trace w' = w_trace w.
Proof.
  apply (validate_prunes sample_schema_lib DriverConfig.getConfigProblems
           (ExtensionConfig.with_known sample_registry [])
           (drivers duplicates_manifest) duplicates_world 4
           [("first", JRef 1); ("second", JRef 3)]).
  - left; reflexivity.
  - exists 7. split; [reflexivity|]. right. split; reflexivity.
  - intros k d [H | [H | []]]; injection H as <- <-; reflexivity.
  - repeat constructor; simpl; intuition discriminate.
  - simpl. intuition discriminate.
  - intros f c1 k problems p Hrun. vm_compute in Hrun.
    inversion Hrun; subst f c1. cbn [found_get].
    destruct (String.eqb "first" k).
    + intros H Hin. inversion H; subst. simpl in Hin. contradiction.
    + destruct (String.eqb "second" k); [|discriminate].
      intros H Hin. inversion H; subst. simpl in Hin.
      destruct Hin as [<- | Hin]; [reflexivity|contradiction].
Defined.

(** ** Registries and the manifest *)

(** C1 fails on the code.  [ExtensionConfig.constructor] sets
    [installedExtensions] to a new empty object and [DriverConfig]'s
    constructor drops what [validate(extData)] returns, so the registry never
    holds the manifest slice.  After [loadExtensions] on a manifest file with
    the driver [fake]: the registry's mapping is not the object
    [manifest.drivers] and does not know [fake]; [addExtension] writes the
    record into the registry's own object, the store stays clean, the
    [write()] it triggers returns [false] without touching the file system
    (its promise stays in [_writing]), and the manifest is as it was. *)
Theorem registry_does_not_share_manifest :
  let E := env_present manifest_with_driver in
  let dc := driverConfig loaded_configs in
  fst (loadExtensions E sample_schema_lib fresh_world) = Returned loaded_configs /\
  _data (w_io loaded_world) = Some loaded_manifest /\
  keys (toPairs (w_heap loaded_world) (drivers loaded_manifest)) = ["fake"] /\
  strict_eq (ExtensionConfig.installedExtensions dc) (drivers loaded_manifest)
    = false /\
  ExtensionConfig.isInstalled dc (w_heap loaded_world) "fake" = false /\
  let w1 := set_prop world_with_record
              (ExtensionConfig.installedExtensions dc) "xcuitest" new_record in
  let r := ExtensionConfig.addExtension E dc "xcuitest" new_record
             world_with_record in
  let w2 := with_io w1 (set_writing (w_io w1) (Some (Settled (Ok false)))) in
  write E false w1 = (Returned false, w2) /\
  r = (Returned tt, w2) /\
  dirty_truthy (w_io (snd r)) = false /\
  w_trace (snd r) = w_trace loaded_world /\
  filter is_write (w_trace (snd r)) = [] /\
  snapshot (w_heap (snd r)) loaded_manifest =
    snapshot (w_heap loaded_world) loaded_manifest /\
  ExtensionConfig.isInstalled dc (w_heap (snd r)) "xcuitest" = true.
Proof.
  cbv zeta. repeat split; vm_compute; reflexivity.
Qed.

Lemma driver_entry_installed (S : SchemaLib) (c : ExtensionConfig.t)
  (h : heap) (k : string) (d : jsval) :
  ExtensionConfig.installedExtensions
    (snd (ExtensionConfig.entry_problems S DriverConfig.getConfigProblems
            c h k d))
  = ExtensionConfig.installedExtensions c.
Proof.
  unfold ExtensionConfig.entry_problems.
  destruct (ExtensionConfig.getGenericConfigProblems h d); [|reflexivity].
  unfold DriverConfig.getConfigProblems.
  destruct (destructure d); [|reflexivity].
  match goal with
  | |- context [ExtensionConfig.getSchemaProblems ?a ?b ?c ?d ?e] =>
      destruct (ExtensionConfig.getSchemaProblems a b c d e)
  end; reflexivity.
Qed.

Lemma driver_collect_installed (S : SchemaLib) (h : heap) (pairs : props) :
  forall (c : ExtensionConfig.t) (acc : ExtensionConfig.found),
  ExtensionConfig.installedExtensions
    (snd (ExtensionConfig.collect S DriverConfig.getConfigProblems
            c h pairs acc))
  = ExtensionConfig.installedExtensions c.
Proof.
  induction pairs as [|[k d] rest IH]; intros c acc; [reflexivity|].
  simpl. pose proof (driver_entry_installed S c h k d) as He.
  destruct (ExtensionConfig.entry_problems S DriverConfig.getConfigProblems
              c h k d) as [[ps|e] c1]; simpl in He.
  - rewrite IH. exact He.
  - exact He.
Qed.

(** Whatever records it is given, the registry that [DriverConfig.create]
    makes holds an object of its own, allocated by the base constructor: it
    is never the mapping [extData] that was passed in. *)
Lemma create_keeps_own_object (S : SchemaLib) (extData : jsval) (w w' : World)
  (c : ExtensionConfig.t) (l : loc) :
  DriverConfig.create S extData w = (Ok c, w') ->
  extData = JRef l ->
  l < List.length (w_heap w) ->
  ExtensionConfig.installedExtensions c = JRef (List.length (w_heap w)) /\
  strict_eq (ExtensionConfig.installedExtensions c) extData = false.
Proof.
  intros Hc -> Hl.
  assert (Hi : ExtensionConfig.installedExtensions c
               = JRef (List.length (w_heap w))).
  { unfold DriverConfig.create, DriverConfig.constructor,
      ExtensionConfig.constructor, alloc in Hc.
    simpl truthy in Hc. cbv iota in Hc.
    unfold DriverConfig.validate, ExtensionConfig.validate in Hc.
    match type of Hc with
    | context [ExtensionConfig.collect ?a ?b ?c0 ?d ?e ?f] =>
        pose proof (driver_collect_installed a d e c0 f) as Hk;
        destruct (ExtensionConfig.collect a b c0 d e f) as [[fp|err] c1]
    end; simpl in Hk; [|discriminate].
    match type of Hc with
    | context [ExtensionConfig.prune ?a ?b ?c0 ?d] =>
        destruct (ExtensionConfig.prune a b c0 d) as [[[|line lines]|err] w2]
    end; try discriminate; injection Hc as <- _; simpl; exact Hk. }
  split; [exact Hi|]. rewrite Hi. simpl.
  apply Nat.eqb_neq. lia.
Qed.

(** ** More on the store *)

Lemma write_heap (E : Env) (force : bool) (w : World) :
  w_heap (snd (write E force w)) = w_heap w.
Proof.
  destruct w as [h [d dat home mp wr rd] tr].
  unfold write, write_body, ends_before_await, resolve_path; simpl.
  destruct wr as [[|r]|]; [reflexivity|reflexivity|].
  destruct (negb _ && negb force); [reflexivity|].
  destruct dat; [|reflexivity].
  destruct mp as [p|]; simpl;
    [|destruct (env_getManifestPath E home) as [p|]; simpl; [|reflexivity]];
    (destruct (mkdirp E (path_dirname E p)); simpl; [reflexivity|]);
    (destruct (fs_writeFile E p _); reflexivity).
Qed.

(** X1. Once [read()] has returned a manifest, every later [read()] without
    force returns that same manifest and leaves the world as it is, whatever
    the environment does. *)
Theorem read_twice (E E2 : Env) (force : bool) (w w1 : World) (m : Manifest) :
  read E force w = (Returned (Some m), w1) ->
  read E2 false w1 = (Returned (Some m), w1).
Proof.
  intros H.
  assert (Hd : _data (w_io w1) = Some m).
  { unfold read in H.
    destruct (_data (w_io w)) as [d|] eqn:Hdat; destruct force;
      try (injection H as <- <-; exact Hdat);
      (destruct (_reading (w_io w)); [discriminate|]);
      (destruct (read_body E _) as [[u|e|] w2]; try discriminate);
      injection H as H <-; exact H. }
  unfold read. rewrite Hd. reflexivity.
Qed.

Lemma read_twice_witness :
  read env_unreadable false read_world = (Returned (Some read_manifest), read_world).
Proof.
  apply (read_twice env_absent env_unreadable false fresh_world read_world
           read_manifest).
  reflexivity.
Defined.

(** A write whose file-system step fails, with the world it leaves. *)
Lemma write_failure_world (E : Env) (force : bool) (w : World) (m : Manifest)
  (p : string) (e : jserror) :
  _writing (w_io w) = None ->
  dirty_truthy (w_io w) || force = true ->
  _data (w_io w) = Some m ->
  resolved_path E (w_io w) = Ok p ->
  fs_step_failure E p (snapshot (w_heap w) m) = Some e ->
  write E force w =
  (Threw (Error (write_error_message p (_appiumHome (w_io w)) (message e))),
   mkWorld (w_heap w) (set_manifestPath (w_io w) p)
           (w_trace w ++ path_events (w_io w) ++
              fs_step_events E p (snapshot (w_heap w) m))).
Proof.
  destruct w as [h [d dat home mp wr rd] tr]; simpl.
  intros -> Hdf -> Hp Hfs.
  unfold resolved_path in Hp; simpl in Hp.
  unfold dirty_truthy in Hdf; simpl in Hdf.
  unfold fs_step_failure in Hfs. unfold fs_step_events.
  unfold write, write_body, ends_before_await; rewrite resolve_path_spec;
    unfold resolved_path, dirty_truthy, path_events; simpl.
  destruct d as [[|]|], force; simpl in *; try discriminate;
    rewrite Hp; simpl;
    (destruct (mkdirp E (path_dirname E p)) eqn:Hmk; simpl;
     [ injection Hfs as ->
     | rewrite Hfs; simpl ]);
    unfold emit, with_io, set_dirty, set_writing, set_manifestPath; simpl;
    rewrite <- ?app_assoc; reflexivity.
Qed.

(** X3. After a [write()] that went through, the store is clean: the next
    [write()] without force returns [false] and calls nothing of the
    environment, whatever the environment is; all it changes is the handle
    [_writing], where its promise stays. *)
Theorem write_twice (E E2 : Env) (force : bool) (w : World) (m : Manifest)
  (p : string) :
  _writing (w_io w) = None ->
  dirty_truthy (w_io w) || force = true ->
  _data (w_io w) = Some m ->
  resolved_path E (w_io w) = Ok p ->
  fs_step_failure E p (snapshot (w_heap w) m) = None ->
  exists w1,
    write E force w = (Returned true, w1) /\
    _dirty (w_io w1) = Some false /\
    _writing (w_io w1) = None /\
    write E2 false w1 =
      (Returned false,
       mkWorld (w_heap w1)
               (set_writing (w_io w1) (Some (Settled (Ok false))))
               (w_trace w1)).
Proof.
  intros Hw Hdf Hd Hp Hfs.
  eexists. split; [|split; [|split]].
  - apply (write_success E force w m p); assumption.
  - reflexivity.
  - exact Hw.
  - apply write_clean; simpl; [exact Hw|reflexivity].
Qed.

Lemma write_twice_witness :
  exists w1,
    write env_absent false dirty_world = (Returned true, w1) /\
    _dirty (w_io w1) = Some false /\
    _writing (w_io w1) = None /\
    write env_readonly false w1 =
      (Returned false,
       mkWorld (w_heap w1)
               (set_writing (w_io w1) (Some (Settled (Ok false))))
               (w_trace w1)).
Proof.
  apply (write_twice env_absent env_readonly false dirty_world read_manifest
           sample_path); reflexivity.
Defined.

(** X2. When the manifest file is absent and the write that should create it
    fails, [read()] rejects with the error of [write], 'Appium could not
    write to manifest at <path> using APPIUM_HOME <home>. Please ensure it is
    writable. Original error: <message of the cause>', but the skeleton
    manifest stays loaded and the store stays clean: the next [read()]
    returns the skeleton without touching the file system, and the next
    [write()] without force returns [false] without touching it either, so
    nothing creates the file. *)
Theorem bootstrap_write_failure (E : Env) (w : World) (p : string)
  (e ew : jserror) :
  _reading (w_io w) = false ->
  _writing (w_io w) = None ->
  _data (w_io w) = None ->
  dirty_truthy (w_io w) = false ->
  resolved_path E (w_io w) = Ok p ->
  fs_readFile E p = Fail e ->
  code e = Some "ENOENT" ->
  fs_step_failure E p (mkSnapshot [] [] (JNum 2)) = Some ew ->
  exists err m w',
    read E false w = (Threw err, w') /\
    ename err = "Error" /\
    message err =
      "Appium could not write to manifest at " ++ p ++ " using APPIUM_HOME " ++
      _appiumHome (w_io w) ++
      ". Please ensure it is writable. Original error: " ++ message ew /\
    snapshot (w_heap w') m = mkSnapshot [] [] (JNum 2) /\
    (forall E2, read E2 false w' = (Returned (Some m), w')) /\
    (forall E2,
       write E2 false w' =
         (Returned false,
          mkWorld (w_heap w')
                  (set_writing (w_io w') (Some (Settled (Ok false))))
                  (w_trace w'))).
Proof.
  intros Hr Hw Hd Hdirty Hp Hrf Hc Hfs.
  rewrite read_loads by auto.
  unfold read_body. rewrite resolve_path_spec.
  destruct w as [h [d dat home mp wr rd] tr]; simpl in *. subst.
  unfold resolved_path in *; simpl in *. rewrite Hp.
  unfold load_data. cbn [emit with_heap w_heap w_io w_trace].
  rewrite Hrf, Hc. cbn [alloc].
  set (h1 := (h ++ [HObject []])%list).
  set (h2 := (h1 ++ [HObject []])%list).
  set (fields := [(CONFIG_DATA_DRIVER_KEY, JRef (List.length h));
                  (CONFIG_DATA_PLUGIN_KEY, JRef (List.length h1))]).
  set (h3 := (h2 ++ [HObject fields])%list).
  assert (H3 : heap_get h3 (List.length h2) = Some (HObject fields))
    by apply heap_get_alloc.
  destruct (wrap_data h3 (List.length h2) (List.length h) (List.length h1)
              fields H3 eq_refl eq_refl) as (Hc1 & Hc2 & Hrev).
  rewrite Hc1, Hc2. cbv zeta in Hrev. rewrite Hrev.
  set (h4 := (h3 ++ [HProxy (List.length h)])%list) in *.
  set (h5 := (h4 ++ [HProxy (List.length h1)])%list) in *.
  change (assoc_get fields "schemaRev") with (@None jsval). cbv iota.
  change (nullish_coalesce JUndefined (JNum CONFIG_SCHEMA_REV))
    with (JNum CONFIG_SCHEMA_REV).
  set (m := mkManifest (JRef (List.length h3)) (JRef (List.length h4))
                       (JNum CONFIG_SCHEMA_REV)).
  assert (Hsnap : snapshot h5 m = mkSnapshot [] [] (JNum CONFIG_SCHEMA_REV)).
  { unfold snapshot, m; simpl drivers; simpl plugins; simpl schemaRev.
    assert (Ha : own_props h5 (JRef (List.length h3)) = []).
    { apply (own_props_proxy h5 (List.length h3) (List.length h) []).
      - unfold h5. apply heap_get_app. apply heap_get_alloc.
      - unfold h5, h4, h3, h2. do 4 apply heap_get_app. apply heap_get_alloc. }
    assert (Hb : own_props h5 (JRef (List.length h4)) = []).
    { apply (own_props_proxy h5 (List.length h4) (List.length h1) []).
      - apply heap_get_alloc.
      - unfold h5, h4, h3. do 3 apply heap_get_app. apply heap_get_alloc. }
    rewrite Ha, Hb. reflexivity. }
  erewrite write_failure_world with (m := m) (p := p) (e := ew);
    [ | reflexivity | apply Bool.orb_true_r | reflexivity | reflexivity
      | cbn [w_heap with_io with_heap emit]; rewrite Hsnap; exact Hfs ].
  eexists. exists m. eexists. split; [reflexivity|].
  split; [reflexivity|]. split; [reflexivity|].
  cbn [w_heap with_io with_heap emit w_io w_trace]. split; [exact Hsnap|].
  split.
  - intros E2. reflexivity.
  - intros E2. apply write_clean; [reflexivity|].
    unfold dirty_truthy in *; simpl in *. exact Hdirty.
Qed.

Lemma bootstrap_write_failure_witness :
  exists err m w',
    read env_readonly false fresh_world = (Threw err, w') /\
    ename err = "Error" /\
    message err =
      "Appium could not write to manifest at " ++ sample_path ++
      " using APPIUM_HOME " ++ _appiumHome (w_io fresh_world) ++
      ". Please ensure it is writable. Original error: " ++
      message EACCES_error /\
    snapshot (w_heap w') m = mkSnapshot [] [] (JNum 2) /\
    (forall E2, read E2 false w' = (Returned (Some m), w')) /\
    (forall E2,
       write E2 false w' =
         (Returned false,
          mkWorld (w_heap w')
                  (set_writing (w_io w') (Some (Settled (Ok false))))
                  (w_trace w'))).
Proof.
  apply (bootstrap_write_failure env_readonly fresh_world sample_path
           ENOENT_error EACCES_error); reflexivity.
Defined.

Lemma write_about_path (E : Env) (force : bool) (w : World) (p : string) :
  _manifestPath (w_io w) = Some p ->
  exists evs,
    w_trace (snd (write E force w)) = (w_trace w ++ evs)%list /\
    Forall (about_path E p) evs /\
    _manifestPath (w_io (snd (write E force w))) = Some p.
Proof.
  destruct w as [h [d dat home mp wr rd] tr]; simpl. intros ->.
  unfold write, write_body, ends_before_await, resolve_path; simpl.
  destruct wr as [[|r]|];
    [exists []; rewrite app_nil_r; simpl; auto
    |exists []; rewrite app_nil_r; simpl; auto|].
  destruct (negb _ && negb force);
    [exists []; rewrite app_nil_r; simpl; auto|].
  destruct dat; [|exists []; rewrite app_nil_r; simpl; auto].
  destruct (mkdirp E (path_dirname E p)); simpl.
  - exists [EvMkdirp (path_dirname E p)]. simpl. repeat constructor.
  - destruct (fs_writeFile E p _); simpl;
      (eexists [EvMkdirp (path_dirname E p); EvWriteFile p _]; simpl;
       rewrite <- app_assoc; split; [reflexivity|];
       split; [repeat constructor|reflexivity]).
Qed.

(** X4. A store that knows its manifest path never asks the environment for
    it again and never loses it: whatever [read] or [write] is called, with
    or without force, the calls it makes are file-system calls about that
    path ([readFile] and [writeFile] of the path, [mkdirp] of its directory)
    and the path is still the same afterwards. *)
Theorem manifest_path_is_cached (E : Env) (force : bool) (w : World)
  (p : string) :
  _manifestPath (w_io w) = Some p ->
  (exists evs,
     w_trace (snd (write E force w)) = (w_trace w ++ evs)%list /\
     Forall (about_path E p) evs /\
     _manifestPath (w_io (snd (write E force w))) = Some p) /\
  (exists evs,
     w_trace (snd (read E force w)) = (w_trace w ++ evs)%list /\
     Forall (about_path E p) evs /\
     _manifestPath (w_io (snd (read E force w))) = Some p).
Proof.
  intros Hp. split; [apply write_about_path; exact Hp|].
  assert (Hnil : exists evs,
             w_trace w = (w_trace w ++ evs)%list /\
             Forall (about_path E p) evs /\ _manifestPath (w_io w) = Some p).
  { exists []. rewrite app_nil_r. auto. }
  unfold read.
  destruct (_data (w_io w)) as [d0|] eqn:Hdat; destruct force; simpl;
    try exact Hnil;
    (destruct (_reading (w_io w)) eqn:Hrd; [exact Hnil|]);
    clear Hnil;
    (assert (Hbody : exists evs,
       w_trace (snd (read_body E (with_io w (set_reading (w_io w) true))))
         = (w_trace w ++ evs)%list /\
       Forall (about_path E p) evs /\
       _manifestPath (w_io (snd (read_body E
                                   (with_io w (set_reading (w_io w) true)))))
         = Some p);
     [ unfold read_body; rewrite resolve_path_spec;
       unfold resolved_path; simpl; rewrite Hp;
       unfold path_events; simpl; rewrite Hp; rewrite app_nil_r;
       cbn [emit with_heap w_heap w_io w_trace];
       destruct (load_data E p (w_heap w)) as [[[data isNew]|e] h'];
       [ destruct (_createProxy DRIVER_TYPE data h') as [[dp|e1] h1];
         [ destruct (_createProxy PLUGIN_TYPE data h1) as [[pp|e2] h2];
           [ destruct isNew;
             [ match goal with
               | |- context [write E true ?w4] =>
                   destruct (write_about_path E true w4 p eq_refl)
                     as (evs & Htr & Hall & Hmp);
                   destruct (write E true w4) as [[b|e3|] w5]
               end;
               simpl in *;
               (exists (EvReadFile p :: evs); rewrite Htr, <- app_assoc;
                split; [reflexivity|]; split; [|exact Hmp];
                constructor; [reflexivity|exact Hall])
             | exists [EvReadFile p]; simpl; repeat constructor ]
           | exists [EvReadFile p]; simpl; repeat constructor ]
         | exists [EvReadFile p]; simpl; repeat constructor ]
       | exists [EvReadFile p]; simpl; repeat constructor ]
     | ]);
    destruct Hbody as (evs & Htr & Hall & Hmp);
    destruct (read_body E (with_io w (set_reading (w_io w) true)))
      as [[u|e|] w1];
    simpl in *; exists evs; auto.
Qed.

Lemma manifest_path_is_cached_witness :
  (exists evs,
     w_trace (snd (write env_readonly true read_world))
       = (w_trace read_world ++ evs)%list /\
     Forall (about_path env_readonly sample_path) evs /\
     _manifestPath (w_io (snd (write env_readonly true read_world)))
       = Some sample_path) /\
  (exists evs,
     w_trace (snd (read env_readonly true read_world))
       = (w_trace read_world ++ evs)%list /\
     Forall (about_path env_readonly sample_path) evs /\
     _manifestPath (w_io (snd (read env_readonly true read_world)))
       = Some sample_path).
Proof.
  apply (manifest_path_is_cached env_readonly true read_world sample_path).
  reflexivity.
Defined.

(** *** Record mappings as maps *)

(** X5. A record mapping behind a proxy of the store behaves as a map.
    After [o[k] = v], for a name [k] other than [__proto__], the mapping has
    the own property [k] with the value [v] and its other own properties are
    as before; [k] keeps its place in the enumeration if the mapping had it,
    and comes last if the mapping did not have it and [k] is no array index.
    After [delete o[k]] the own property [k] is gone and the other own
    properties are still as before. *)
Theorem proxy_assign_lookup (w : World) (lp t : loc) (ps : props)
  (k : string) (v : jsval) :
  heap_get (w_heap w) lp = Some (HProxy t) ->
  heap_get (w_heap w) t = Some (HObject ps) ->
  k <> "__proto__" ->
  let o := JRef lp in
  let w1 := set_prop w o k v in
  let w2 := delete_prop w1 o k in
  assoc_get (toPairs (w_heap w1) o) k = Some v /\
  (forall k', k' <> k ->
     assoc_get (toPairs (w_heap w1) o) k' = assoc_get ps k') /\
  (assoc_has ps k = true -> keys (toPairs (w_heap w1) o) = keys ps) /\
  (assoc_has ps k = false -> array_index k = None ->
     keys (toPairs (w_heap w1) o) = (keys ps ++ [k])%list) /\
  assoc_get (toPairs (w_heap w2) o) k = None /\
  (forall k', k' <> k ->
     assoc_get (toPairs (w_heap w2) o) k' = assoc_get ps k').
Proof.
  intros Hp Ht Hk o w1 w2.
  destruct (own_props_proxy _ _ _ _ Hp Ht) as [Hop _].
  assert (H1p : heap_get (w_heap w1) lp = Some (HProxy t)).
  { unfold w1, o. rewrite (set_prop_proxy w lp t ps k v Hp Ht). simpl.
    rewrite heap_get_set_other; [exact Hp|]. intros ->. congruence. }
  assert (H1t : heap_get (w_heap w1) t = Some (HObject (assoc_set ps k v))).
  { unfold w1, o. rewrite (set_prop_proxy w lp t ps k v Hp Ht). simpl.
    rewrite (assign_ordinary ps k v Hk). eapply heap_get_set_same; eauto. }
  destruct (own_props_proxy _ _ _ _ H1p H1t) as [Hop1 _].
  assert (H2p : heap_get (w_heap w2) lp = Some (HProxy t)).
  { unfold w2, o. rewrite (delete_prop_proxy w1 lp t _ k H1p H1t). simpl.
    rewrite heap_get_set_other; [exact H1p|]. intros ->. congruence. }
  assert (H2t : heap_get (w_heap w2) t
                = Some (HObject (assoc_del (assoc_set ps k v) k))).
  { unfold w2, o. rewrite (delete_prop_proxy w1 lp t _ k H1p H1t). simpl.
    eapply heap_get_set_same; eauto. }
  destruct (own_props_proxy _ _ _ _ H2p H2t) as [Hop2 _].
  unfold toPairs, o. rewrite Hop1, Hop2.
  split; [apply assoc_get_set_same|].
  split; [intros k' Hk'; apply assoc_get_set_other; exact Hk'|].
  split.
  { intros Hhas. unfold keys, assoc_set. rewrite Hhas.
    apply keys_assoc_replace. }
  split.
  { intros Hhas Hidx. unfold keys. rewrite keys_assoc_set by exact Hidx.
    rewrite Hhas. reflexivity. }
  split; [apply assoc_get_del_same|].
  intros k' Hk'.
  rewrite assoc_get_del_other, assoc_get_set_other by exact Hk'. reflexivity.
Qed.

Lemma proxy_assign_lookup_witness :
  let o := JRef 3 in
  let w1 := set_prop read_world o "fake" (JStr "record") in
  let w2 := delete_prop w1 o "fake" in
  assoc_get (toPairs (w_heap w1) o) "fake" = Some (JStr "record") /\
  (forall k', k' <> "fake" ->
     assoc_get (toPairs (w_heap w1) o) k' = assoc_get [] k') /\
  (assoc_has [] "fake" = true ->
   keys (toPairs (w_heap w1) o) = keys (@nil (string * jsval))) /\
  (assoc_has [] "fake" = false -> array_index "fake" = None ->
     keys (toPairs (w_heap w1) o) =
       (keys (@nil (string * jsval)) ++ ["fake"])%list) /\
  assoc_get (toPairs (w_heap w2) o) "fake" = None /\
  (forall k', k' <> "fake" ->
     assoc_get (toPairs (w_heap w2) o) k' = assoc_get [] k').
Proof.
  apply (proxy_assign_lookup read_world 3 0 [] "fake" (JStr "record"));
    try reflexivity.
  discriminate.
Defined.



(** ** More on validation *)

Lemma push_if_nil (b : bool) (e : string) (v : jsval) :
  push_if b e v = [] <-> b = false.
Proof.
  destruct b; simpl; split; intros H; try reflexivity; discriminate.
Qed.

Lemma push_if_val (b : bool) (e : string) (v : jsval) (p : Problem) :
  In p (push_if b e v) -> val p = v.
Proof.
  destruct b; simpl; [intros [<- | []]; reflexivity | intros []].
Qed.

Lemma push_if_length (b : bool) (e : string) (v : jsval) :
  List.length (push_if b e v) <= 1.
Proof.
  destruct b; simpl; lia.
Qed.

(** X7. The generic check of a record (any value but null and undefined)
    never fails.  It reports no problem exactly when [version], [pkgName],
    [installSpec], [installPath] and [mainClass] are strings and
    [installType] is one of git, github, local and npm; it reports at most
    six problems, and the value of each problem is the value of one of the
    six fields. *)
Theorem generic_problems_characterised (h : heap) (extData : jsval) :
  nullish extData = false ->
  exists ps,
    ExtensionConfig.getGenericConfigProblems h extData = Ok ps /\
    (ps = [] <-> generic_valid h extData = true) /\
    List.length ps <= 6 /\
    (forall p, In p ps ->
       In (val p) (map (get_prop h extData) GENERIC_FIELDS)).
Proof.
  intros Hn. unfold ExtensionConfig.getGenericConfigProblems, destructure.
  rewrite Hn. eexists. split; [reflexivity|]. cbv zeta.
  split; [|split].
  - unfold generic_valid.
    destruct (isString (get_prop h extData "version")),
             (isString (get_prop h extData "pkgName")),
             (isString (get_prop h extData "installSpec")),
             (includes INSTALL_TYPES (get_prop h extData "installType")),
             (isString (get_prop h extData "installPath")),
             (isString (get_prop h extData "mainClass"));
      simpl; split; intros H; try reflexivity; discriminate.
  - rewrite !length_app.
    repeat match goal with
           | |- context [List.length (push_if ?b ?e ?v)] =>
               let H := fresh in
               pose proof (push_if_length b e v) as H;
               generalize dependent (List.length (push_if b e v)); intros
           end.
    lia.
  - intros p Hin. simpl map.
    repeat (apply in_app_or in Hin; destruct Hin as [Hin | Hin]);
      apply push_if_val in Hin; rewrite Hin; simpl; auto 10.
Qed.

Lemma generic_problems_characterised_witness :
  exists ps,
    ExtensionConfig.getGenericConfigProblems sample_heap (JRef 1) = Ok ps /\
    (ps = [] <-> generic_valid sample_heap (JRef 1) = true) /\
    List.length ps <= 6 /\
    (forall p, In p ps ->
       In (val p) (map (get_prop sample_heap (JRef 1)) GENERIC_FIELDS)).
Proof.
  apply (generic_problems_characterised sample_heap (JRef 1)). reflexivity.
Defined.

Lemma element_problems_nil (es : list jsval) :
  DriverConfig.element_problems es = [] <-> forallb isString es = true.
Proof.
  unfold DriverConfig.element_problems.
  induction es as [|x es IH]; simpl; [tauto|].
  destruct (isString x); simpl.
  - exact IH.
  - split; discriminate.
Qed.

(** X8. The driver check of a record (any value but null and undefined)
    never fails, and it reports no problem exactly when [platformNames] is a
    non-empty array of strings and [automationName] is a string that no
    earlier record of the pass had.  Valid or not, the record's
    [automationName] is in the seen-set afterwards and nothing else of the
    registry changes. *)
Theorem driver_problems_characterised (c : ExtensionConfig.t) (h : heap)
  (extData : jsval) :
  nullish extData = false ->
  exists ps c',
    DriverConfig.getConfigProblems c h extData = (Ok ps, c') /\
    (ps = [] <->
     driver_valid h (ExtensionConfig.knownAutomationNames c) extData = true) /\
    set_has (ExtensionConfig.knownAutomationNames c')
            (automationName h extData) = true /\
    ExtensionConfig.installedExtensions c' =
      ExtensionConfig.installedExtensions c /\
    ExtensionConfig.logged c' = ExtensionConfig.logged c.
Proof.
  intros Hn. unfold DriverConfig.getConfigProblems, destructure.
  rewrite Hn. eexists. eexists. split; [reflexivity|].
  fold (automationName h extData).
  split; [|split; [|split; reflexivity]].
  - unfold driver_valid.
    set (pn := get_prop h extData "platformNames").
    set (an := automationName h extData).
    destruct (isArray h pn); [|simpl; split; discriminate].
    pose proof (element_problems_nil (array_elems h pn)) as Hel.
    destruct (array_elems h pn) as [|x es]; [simpl; split; discriminate|].
    cbn [negb andb].
    set (ep := DriverConfig.element_problems (x :: es)) in *.
    change (negb (Nat.eqb (List.length (x :: es)) 0)) with true.
    rewrite Bool.andb_true_l.
    destruct (forallb isString (x :: es)).
    + destruct Hel as [_ Hel]. rewrite (Hel eq_refl). simpl.
      destruct (isString an), (set_has _ an); simpl; split; intros H;
        try reflexivity; discriminate.
    + simpl. split; [|discriminate].
      intros H. apply app_eq_nil in H. destruct H as [H _].
      apply Hel in H. discriminate.
  - simpl. rewrite set_has_add, strict_eq_refl. apply Bool.orb_true_r.
Qed.

Lemma driver_problems_characterised_witness :
  exists ps c',
    DriverConfig.getConfigProblems sample_registry sample_heap (JRef 1)
      = (Ok ps, c') /\
    (ps = [] <->
     driver_valid sample_heap
       (ExtensionConfig.knownAutomationNames sample_registry) (JRef 1) = true) /\
    set_has (ExtensionConfig.knownAutomationNames c')
            (automationName sample_heap (JRef 1)) = true /\
    ExtensionConfig.installedExtensions c' =
      ExtensionConfig.installedExtensions sample_registry /\
    ExtensionConfig.logged c' = ExtensionConfig.logged sample_registry.
Proof.
  apply (driver_problems_characterised sample_registry sample_heap (JRef 1)).
  reflexivity.
Defined.

Lemma prune_nothing (c : ExtensionConfig.t) (exts : jsval)
  (f : ExtensionConfig.found) (w : World) :
  (forall k problems, In (k, problems) f -> problems = []) ->
  ExtensionConfig.prune c exts f w = (Ok [], w).
Proof.
  induction f as [|[k problems] rest IH]; intros Hall; [reflexivity|].
  simpl. rewrite (Hall k problems (or_introl eq_refl)).
  apply IH. intros k' ps' Hin. apply (Hall k' ps'). right; exact Hin.
Qed.

(** X9. When the first loop of [validate] finds no problem for any entry,
    [validate] returns the mapping and leaves the world exactly as it was:
    nothing is deleted, the store is not marked dirty, no collaborator is
    called and nothing is logged.  This holds for any type-specific hook. *)
Theorem validate_of_valid_mapping (S : SchemaLib)
  (hook : ExtensionConfig.t -> heap -> jsval ->
          result (list Problem) * ExtensionConfig.t)
  (c c1 : ExtensionConfig.t) (exts : jsval) (w : World)
  (f : ExtensionConfig.found) :
  ExtensionConfig.collect S hook c (w_heap w) (toPairs (w_heap w) exts) []
    = (Ok f, c1) ->
  (forall k problems, In (k, problems) f -> problems = []) ->
  ExtensionConfig.validate S hook c exts w = (Ok exts, c1, w).
Proof.
  intros Hrun Hall. unfold ExtensionConfig.validate.
  rewrite Hrun, (prune_nothing c1 exts f w Hall). reflexivity.
Qed.

Lemma validate_of_valid_mapping_witness :
  ExtensionConfig.validate sample_schema_lib DriverConfig.getConfigProblems
    sample_registry (drivers loaded_manifest) loaded_world
  = (Ok (drivers loaded_manifest),
     ExtensionConfig.with_known sample_registry [JStr "Fake"], loaded_world).
Proof.
  apply (validate_of_valid_mapping sample_schema_lib
           DriverConfig.getConfigProblems sample_registry
           (ExtensionConfig.with_known sample_registry [JStr "Fake"])
           (drivers loaded_manifest) loaded_world [("fake", [])]).
  - reflexivity.
  - intros k problems [H | []]. injection H as _ <-. reflexivity.
Defined.

Lemma prune_keeps_dirty (c : ExtensionConfig.t) (exts : jsval)
  (f : ExtensionConfig.found) :
  forall w, _dirty (w_io w) = Some true ->
            _dirty (w_io (snd (ExtensionConfig.prune c exts f w))) = Some true.
Proof.
  induction f as [|[k [|p0 problems]] rest IH]; intros w Hd; auto.
  - simpl. auto.
  - rewrite prune_step. cbv zeta.
    assert (Hd1 : _dirty (w_io (delete_prop w exts k)) = Some true).
    { destruct (delete_prop_io w exts k) as [-> | ->]; [exact Hd|reflexivity]. }
    destruct (forallb _ (p0 :: problems)); [|exact Hd1].
    specialize (IH (delete_prop w exts k) Hd1).
    destruct (ExtensionConfig.prune c exts rest (delete_prop w exts k))
      as [[lines|e] w2]; exact IH.
Qed.

(** When the second loop comes to its end after deleting, through a proxy
    of the store, an entry that the mapping had, the store is dirty. *)
Lemma prune_marks_dirty (c : ExtensionConfig.t) (lp t : loc) (k : string)
  (f : ExtensionConfig.found) :
  forall (w w' : World) (ps : props) (lines : list log_line),
  heap_get (w_heap w) lp = Some (HProxy t) ->
  heap_get (w_heap w) t = Some (HObject ps) ->
  In k (pruned_names f) ->
  assoc_has ps k = true ->
  ExtensionConfig.prune c (JRef lp) f w = (Ok lines, w') ->
  _dirty (w_io w') = Some true.
Proof.
  induction f as [|[k0 [|p0 problems]] rest IH];
    intros w w' ps lines Hp Ht Hin Hhas Hrun.
  - destruct Hin.
  - simpl in Hrun. apply (IH w w' ps lines); auto.
  - rewrite prune_step in Hrun. cbv zeta in Hrun.
    pose proof (delete_prop_proxy w lp t ps k0 Hp Ht) as Hdel.
    destruct (forallb _ (p0 :: problems)); [|discriminate].
    destruct (ExtensionConfig.prune c (JRef lp) rest
                (delete_prop w (JRef lp) k0)) as [[lines'|e] w2] eqn:Hrest;
      [|discriminate].
    assert (Hw2 : w' = w2) by (injection Hrun as _ <-; reflexivity).
    subst w'.
    destruct (String.eqb k0 k) eqn:Hk.
    + apply String.eqb_eq in Hk. subst k0.
      pose proof (prune_keeps_dirty c (JRef lp) rest
                    (delete_prop w (JRef lp) k)) as Hkeep.
      rewrite Hrest in Hkeep. cbn [snd] in Hkeep. apply Hkeep.
      rewrite Hdel, Hhas. reflexivity.
    + assert (Hne : k <> k0)
        by (intros ->; rewrite String.eqb_refl in Hk; discriminate).
      change (In k (k0 :: pruned_names rest)) in Hin.
      destruct Hin as [Heq | Hin]; [congruence|].
      assert (Hne' : lp <> t) by (intros ->; congruence).
      apply (IH (delete_prop w (JRef lp) k0) w2 (assoc_del ps k0) lines');
        auto.
      * rewrite Hdel. simpl. rewrite heap_get_set_other; auto.
      * rewrite Hdel. simpl. eapply heap_get_set_same; eauto.
      * unfold assoc_has in *. rewrite assoc_get_del_other; auto.
Qed.

Lemma report_names_entry (t : ExtensionType) (k : string) (p0 : Problem)
  (problems : list Problem) (f : ExtensionConfig.found) :
  In (k, p0 :: problems) f ->
  In (LogExtension (kind_word t) k) (flat_map (report_entry t) f).
Proof.
  intros Hin. apply in_flat_map. exists (k, p0 :: problems).
  split; [exact Hin|]. left. reflexivity.
Qed.

Lemma pruned_names_of_entry (k : string) (p0 : Problem)
  (problems : list Problem) (f : ExtensionConfig.found) :
  In (k, p0 :: problems) f -> In k (pruned_names f).
Proof.
  induction f as [|[k0 [|q0 qs]] rest IH]; simpl; intros Hin.
  - destruct Hin.
  - destruct Hin as [H | Hin]; [discriminate|].
    change (In k (pruned_names rest)). auto.
  - change (In k (k0 :: pruned_names rest)).
    destruct Hin as [H | Hin]; [injection H as -> _ _; left; reflexivity|].
    right. auto.
Qed.

Lemma fold_del_absent (names : list string) (ps : props) (k : string) :
  In k names -> assoc_get (fold_left assoc_del names ps) k = None.
Proof.
  intros Hin. rewrite fold_assoc_del_filter.
  induction ps as [|[k0 v0] r IH]; simpl; [reflexivity|].
  destruct (existsb (String.eqb k0) names) eqn:He; simpl; [exact IH|].
  destruct (String.eqb k0 k) eqn:Hk; [|exact IH].
  apply String.eqb_eq in Hk. subst k0.
  assert (existsb (String.eqb k) names = true).
  { apply existsb_exists. exists k. split; [exact Hin|apply String.eqb_refl]. }
  congruence.
Qed.

(** X10. When [validate] runs on a mapping behind a proxy of the store (as
    [loadExtensions] makes it do), the first loop found a problem for the
    entry [k], and the offending values found can be serialised, the entry
    is deleted through the proxy: afterwards [k] is gone from the mapping,
    the store is marked dirty, the entry is named in the report, and no
    collaborator of the store was called.  So the pruning is in memory
    only, until something calls [write()]. *)
Theorem pruning_marks_store_dirty (S : SchemaLib)
  (hook : ExtensionConfig.t -> heap -> jsval ->
          result (list Problem) * ExtensionConfig.t)
  (c c1 : ExtensionConfig.t) (w : World) (lp t : loc) (ps : props)
  (f : ExtensionConfig.found) (k : string) (p0 : Problem)
  (problems : list Problem) :
  heap_get (w_heap w) lp = Some (HProxy t) ->
  heap_get (w_heap w) t = Some (HObject ps) ->
  ExtensionConfig.collect S hook c (w_heap w) ps [] = (Ok f, c1) ->
  In (k, p0 :: problems) f ->
  assoc_has ps k = true ->
  (forall k' qs q, In (k', qs) f -> In q qs ->
     JSON_stringify_ok (w_heap w) (val q) = true) ->
  exists c' w',
    ExtensionConfig.validate S hook c (JRef lp) w = (Ok (JRef lp), c', w') /\
    _dirty (w_io w') = Some true /\
    w_trace w' = w_trace w /\
    assoc_has (toPairs (w_heap w') (JRef lp)) k = false /\
    In (LogExtension (kind_word (ExtensionConfig.extensionType c1)) k)
       (ExtensionConfig.logged c').
Proof.
  intros Hp Ht Hrun Hin Hhas Hser.
  destruct (own_props_proxy _ _ _ _ Hp Ht) as [Hop _].
  assert (Hm : mapping_at (w_heap w) (JRef lp) t ps).
  { exists lp. split; [reflexivity|]. right. auto. }
  pose proof (pruned_names_of_entry k p0 problems f Hin) as Hbad.
  destruct (prune_spec c1 (JRef lp) t f w ps Hm Hser)
    as (w1 & Hprune & Hm1 & Htr & _).
  pose proof (prune_marks_dirty c1 lp t k f w w1 ps _ Hp Ht Hbad Hhas Hprune)
    as Hdirty.
  pose proof (report_names_entry (ExtensionConfig.extensionType c1)
                k p0 problems f Hin) as Hlog.
  unfold ExtensionConfig.validate, toPairs. rewrite Hop, Hrun, Hprune.
  eexists. exists w1. split; [reflexivity|].
  split; [exact Hdirty|]. split; [exact Htr|]. split.
  - rewrite (mapping_at_props _ _ _ _ Hm1). unfold assoc_has.
    rewrite (fold_del_absent _ _ _ Hbad). reflexivity.
  - destruct (flat_map (report_entry (ExtensionConfig.extensionType c1)) f)
      as [|l0 lines]; [destruct Hlog|].
    simpl. apply in_or_app. right. right. exact Hlog.
Qed.

Lemma pruning_marks_store_dirty_witness :
  exists c' w',
    ExtensionConfig.validate sample_schema_lib DriverConfig.getConfigProblems
      sample_registry (JRef 7) duplicates_world = (Ok (JRef 7), c', w') /\
    _dirty (w_io w') = Some true /\
    w_trace w' = w_trace duplicates_world /\
    assoc_has (toPairs (w_heap w') (JRef 7)) "second" = false /\
    In (LogExtension "driver" "second") (ExtensionConfig.logged c').
Proof.
  apply (pruning_marks_store_dirty sample_schema_lib
           DriverConfig.getConfigProblems sample_registry
           (ExtensionConfig.with_known sample_registry [JStr "XCUITest"])
           duplicates_world 7 4 [("first", JRef 1); ("second", JRef 3)]
           [("first", []);
            ("second", [mkProblem ERR_DUPLICATE (JStr "XCUITest")])]
           "second" (mkProblem ERR_DUPLICATE (JStr "XCUITest")) []);
    try reflexivity.
  - right. left. reflexivity.
  - intros k' qs q [H | [H | []]] Hq; injection H as <- <-.
    + destruct Hq.
    + destruct Hq as [<- | []]. reflexivity.
Defined.

Lemma collect_throws (S : SchemaLib)
  (hook : ExtensionConfig.t -> heap -> jsval ->
          result (list Problem) * ExtensionConfig.t)
  (h : heap) (k : string) (v : jsval) (post : props) :
  (forall c h d, nullish d = false -> exists ps c', hook c h d = (Ok ps, c')) ->
  nullish v = true ->
  forall (pre : props) (c : ExtensionConfig.t) (acc : ExtensionConfig.found),
  (forall k' d, In (k', d) pre -> nullish d = false) ->
  ExtensionConfig.collect S hook c h (pre ++ (k, v) :: post)%list acc =
  (Fail (TypeError "Cannot destructure extData as it is null or undefined"),
   registry_after S hook c h pre).
Proof.
  intros Htotal Hv. induction pre as [|[k0 d0] pre IH]; intros c acc Hpre.
  - simpl. unfold ExtensionConfig.entry_problems,
      ExtensionConfig.getGenericConfigProblems, destructure.
    rewrite Hv. reflexivity.
  - simpl.
    destruct (entry_total S hook Htotal c h k0 d0
                (Hpre k0 d0 (or_introl eq_refl))) as (ps0 & c1 & Hentry).
    rewrite Hentry. simpl. apply IH.
    intros k' d Hin. apply (Hpre k' d). right; exact Hin.
Qed.

(** X11. [validate] is all or nothing.  If some record of the mapping is
    null or undefined, and the records before it are not, [validate] throws
    the [TypeError] of the destructuring and the world is exactly as before:
    no entry has been deleted, even when earlier entries had problems, and
    [validate] has logged nothing; the registry is as the hook left it after
    the earlier entries. *)
Theorem validate_throws_before_pruning (S : SchemaLib)
  (hook : ExtensionConfig.t -> heap -> jsval ->
          result (list Problem) * ExtensionConfig.t)
  (c : ExtensionConfig.t) (exts : jsval) (w : World) (pre post : props)
  (k : string) (v : jsval) :
  (forall c h d, nullish d = false -> exists ps c', hook c h d = (Ok ps, c')) ->
  toPairs (w_heap w) exts = (pre ++ (k, v) :: post)%list ->
  nullish v = true ->
  (forall k' d, In (k', d) pre -> nullish d = false) ->
  exists e,
    ExtensionConfig.validate S hook c exts w =
      (Fail e, registry_after S hook c (w_heap w) pre, w) /\
    ename e = "TypeError".
Proof.
  intros Htotal Hpairs Hv Hpre.
  unfold ExtensionConfig.validate. rewrite Hpairs.
  rewrite (collect_throws S hook (w_heap w) k v post Htotal Hv pre c [] Hpre).
  eexists. split; reflexivity.
Qed.

Lemma validate_throws_before_pruning_witness :
  exists e,
    ExtensionConfig.validate sample_schema_lib DriverConfig.getConfigProblems
      sample_registry (drivers null_record_manifest) null_record_world =
      (Fail e,
       registry_after sample_schema_lib DriverConfig.getConfigProblems
         sample_registry (w_heap null_record_world) [],
       null_record_world) /\
    ename e = "TypeError".
Proof.
  apply (validate_throws_before_pruning sample_schema_lib
           DriverConfig.getConfigProblems sample_registry
           (drivers null_record_manifest) null_record_world [] []
           "broken" JNull).
  - exact driver_hook_total.
  - reflexivity.
  - reflexivity.
  - intros k' d [].
Defined.

(** ** The operations of a registry *)

Lemma set_prop_mapping (w : World) (exts : jsval) (t : loc) (ps : props)
  (k : string) (v : jsval) :
  mapping_at (w_heap w) exts t ps ->
  let w1 := set_prop w exts k v in
  mapping_at (w_heap w1) exts t (assign ps k v) /\
  w_trace w1 = w_trace w /\
  List.length (w_heap w1) = List.length (w_heap w) /\
  (forall l', l' <> t -> heap_get (w_heap w1) l' = heap_get (w_heap w) l').
Proof.
  intros (l & -> & [[-> H] | [Hp Ht]]); cbv zeta.
  - unfold set_prop. rewrite H. unfold obj_set. rewrite H. simpl.
    split; [|split; [reflexivity|split; [apply heap_set_length|]]].
    + exists t. split; [reflexivity|]. left. split; [reflexivity|].
      eapply heap_get_set_same; eauto.
    + intros l' Hl. apply heap_get_set_other; auto.
  - rewrite (set_prop_proxy w l t ps k v Hp Ht). simpl.
    assert (Hne : l <> t) by (intros ->; congruence).
    split; [|split; [reflexivity|split; [apply heap_set_length|]]].
    + exists l. split; [reflexivity|]. right. split.
      * rewrite heap_get_set_other; auto.
      * eapply heap_get_set_same; eauto.
    + intros l' Hl. apply heap_get_set_other; auto.
Qed.

Lemma void_world (r : outcome bool * World) :
  snd (ExtensionConfig.void r) = snd r.
Proof.
  destruct r as [[b|e|] w]; reflexivity.
Qed.

(** X12. [addExtension] changes the registry's mapping before it writes, and
    the change stays whatever the write does (it may return false, fail or
    be pending): for a name other than [__proto__], afterwards the name is
    installed, the mapping has the given record as the own property of that
    name, and the other names have the records they had. *)
Theorem add_then_installed (E : Env) (c : ExtensionConfig.t) (w : World)
  (t : loc) (ps : props) (k : string) (d : jsval) :
  mapping_at (w_heap w) (ExtensionConfig.installedExtensions c) t ps ->
  k <> "__proto__" ->
  let inst := ExtensionConfig.installedExtensions c in
  let w' := snd (ExtensionConfig.addExtension E c k d w) in
  ExtensionConfig.isInstalled c (w_heap w') k = true /\
  assoc_get (toPairs (w_heap w') inst) k = Some d /\
  (forall k', k' <> k ->
     assoc_get (toPairs (w_heap w') inst) k' = assoc_get ps k' /\
     ExtensionConfig.isInstalled c (w_heap w') k' =
       ExtensionConfig.isInstalled c (w_heap w) k').
Proof.
  intros Hm Hk inst w'. subst inst.
  destruct (set_prop_mapping w _ t ps k d Hm) as (Hm1 & _).
  rewrite (assign_ordinary ps k d Hk) in Hm1.
  assert (Hh : w_heap w' =
               w_heap (set_prop w (ExtensionConfig.installedExtensions c) k d)).
  { unfold w', ExtensionConfig.addExtension. rewrite void_world.
    apply write_heap. }
  unfold ExtensionConfig.isInstalled, toPairs, assoc_has.
  rewrite Hh, (mapping_at_props _ _ _ _ Hm1), (mapping_at_props _ _ _ _ Hm).
  rewrite assoc_get_set_same. repeat split; auto;
    rewrite assoc_get_set_other by assumption; reflexivity.
Qed.

Lemma add_then_installed_witness :
  let c := driverConfig loaded_configs in
  let inst := ExtensionConfig.installedExtensions c in
  let w' := snd (ExtensionConfig.addExtension env_readonly c "xcuitest"
                   new_record world_with_record) in
  ExtensionConfig.isInstalled c (w_heap w') "xcuitest" = true /\
  assoc_get (toPairs (w_heap w') inst) "xcuitest" = Some new_record /\
  (forall k', k' <> "xcuitest" ->
     assoc_get (toPairs (w_heap w') inst) k' = assoc_get [] k' /\
     ExtensionConfig.isInstalled c (w_heap w') k' =
       ExtensionConfig.isInstalled c (w_heap world_with_record) k').
Proof.
  apply (add_then_installed env_readonly (driverConfig loaded_configs)
           world_with_record 7 [] "xcuitest" new_record).
  - exists 7. split; [reflexivity|]. left. split; reflexivity.
  - discriminate.
Defined.

(** X13. [removeExtension] deletes the name from the registry's mapping
    before it writes, whatever the write does: afterwards the name is not
    installed, the mapping has no own property of that name, and the other
    names have the records they had.  Removing a name that is not installed
    changes no record. *)
Theorem remove_then_absent (E : Env) (c : ExtensionConfig.t) (w : World)
  (t : loc) (ps : props) (k : string) :
  mapping_at (w_heap w) (ExtensionConfig.installedExtensions c) t ps ->
  let inst := ExtensionConfig.installedExtensions c in
  let w' := snd (ExtensionConfig.removeExtension E c k w) in
  ExtensionConfig.isInstalled c (w_heap w') k = false /\
  assoc_get (toPairs (w_heap w') inst) k = None /\
  (forall k', k' <> k ->
     assoc_get (toPairs (w_heap w') inst) k' = assoc_get ps k' /\
     ExtensionConfig.isInstalled c (w_heap w') k' =
       ExtensionConfig.isInstalled c (w_heap w) k') /\
  (assoc_get ps k = None -> toPairs (w_heap w') inst = ps).
Proof.
  intros Hm inst w'. subst inst.
  destruct (delete_prop_mapping w _ t ps k Hm) as (Hm1 & _).
  assert (Hh : w_heap w' =
               w_heap (delete_prop w (ExtensionConfig.installedExtensions c) k)).
  { unfold w', ExtensionConfig.removeExtension. rewrite void_world.
    apply write_heap. }
  unfold ExtensionConfig.isInstalled, toPairs, assoc_has.
  rewrite Hh, (mapping_at_props _ _ _ _ Hm1), (mapping_at_props _ _ _ _ Hm).
  rewrite assoc_get_del_same. repeat split; auto;
    try (rewrite assoc_get_del_other by assumption; reflexivity).
  intros Hnone. clear - Hnone.
  induction ps as [|[k0 v0] r IH]; simpl in *; [reflexivity|].
  destruct (String.eqb k0 k); [discriminate|]. rewrite IH; auto.
Qed.

Lemma remove_then_absent_witness :
  let c' := ExtensionConfig.mk Driver (JRef 7) [] [] in
  let ps := [("first", JRef 1); ("second", JRef 3)] in
  let w' := snd (ExtensionConfig.removeExtension env_absent c' "second"
                   duplicates_world) in
  ExtensionConfig.isInstalled c' (w_heap w') "second" = false /\
  assoc_get (toPairs (w_heap w') (JRef 7)) "second" = None /\
  (forall k', k' <> "second" ->
     assoc_get (toPairs (w_heap w') (JRef 7)) k' = assoc_get ps k' /\
     ExtensionConfig.isInstalled c' (w_heap w') k' =
       ExtensionConfig.isInstalled c' (w_heap duplicates_world) k') /\
  (assoc_get ps "second" = None -> toPairs (w_heap w') (JRef 7) = ps).
Proof.
  apply (remove_then_absent env_absent (ExtensionConfig.mk Driver (JRef 7) [] [])
           duplicates_world 4 [("first", JRef 1); ("second", JRef 3)] "second").
  exists 7. split; [reflexivity|]. right. split; reflexivity.
Defined.

Lemma assoc_get_in_keys (ps : props) (k : string) :
  assoc_get ps k = None <-> ~ In k (keys ps).
Proof.
  induction ps as [|[k0 v0] r IH]; simpl; [tauto|].
  destruct (String.eqb k0 k) eqn:Hk.
  - apply String.eqb_eq in Hk. split; [discriminate|]. intros H. tauto.
  - rewrite IH. split.
    + intros H [Heq | Hin]; [|tauto]. subst.
      rewrite String.eqb_refl in Hk. discriminate.
    + tauto.
Qed.

(** What [{...a, ...b}] holds: the value of [b] for a key of [b], the value
    of [a] otherwise. *)
Lemma spread_get (b : props) :
  NoDup (keys b) ->
  forall (a : props) (fld : string),
  assoc_get
    (fold_left (fun acc kv => assoc_set acc (fst kv) (snd kv)) b a) fld =
  match assoc_get b fld with
  | Some v => Some v
  | None => assoc_get a fld
  end.
Proof.
  induction b as [|[k0 v0] r IH]; intros Hnd a fld; [reflexivity|].
  inversion Hnd as [|? ? Hnotin Hnd']; subst.
  simpl. rewrite (IH Hnd').
  destruct (String.eqb k0 fld) eqn:Hk.
  - apply String.eqb_eq in Hk. subst k0.
    apply assoc_get_in_keys in Hnotin. rewrite Hnotin.
    apply assoc_get_set_same.
  - destruct (assoc_get r fld); [reflexivity|].
    apply assoc_get_set_other. intros ->.
    rewrite String.eqb_refl in Hk. discriminate.
Qed.

Lemma mapping_at_bound (h : heap) (exts : jsval) (t : loc) (ps : props) :
  mapping_at h exts t ps -> t < List.length h.
Proof.
  intros (l & -> & [[-> H] | [_ H]]); apply nth_error_Some;
    unfold heap_get in H; congruence.
Qed.

Lemma mapping_at_app (h : heap) (exts : jsval) (t : loc) (ps : props)
  (h2 : heap) :
  mapping_at h exts t ps -> mapping_at (h ++ h2)%list exts t ps.
Proof.
  intros (l & -> & [[Hl H] | [Hp Ht]]); exists l; (split; [reflexivity|]).
  - left. split; [exact Hl|]. apply heap_get_app. exact H.
  - right. split; apply heap_get_app; assumption.
Qed.

(** X14. [updateExtension], for a name other than [__proto__], stores a new
    object that is the shallow merge of the current record and the partial
    one: a property of the partial record has the partial record's value,
    any other property has the current record's value.  For a name that the
    mapping does not have the current record counts as undefined, so the new
    record is a copy of the partial one.  The objects that were there, the
    old record included, are not modified, and the other names keep their
    records, whatever the write does. *)
Theorem update_merges (E : Env) (c : ExtensionConfig.t) (w : World)
  (t : loc) (ps : props) (k : string) (extData : jsval) :
  let h := w_heap w in
  let inst := ExtensionConfig.installedExtensions c in
  let current :=
    match assoc_get ps k with Some record => record | None => JUndefined end in
  mapping_at h inst t ps ->
  k <> "__proto__" ->
  NoDup (keys (enumerable_own h extData)) ->
  NoDup (keys (enumerable_own h current)) ->
  let w' := snd (ExtensionConfig.updateExtension E c k extData w) in
  assoc_get (toPairs (w_heap w') inst) k = Some (JRef (List.length h)) /\
  (forall fld,
     assoc_get (own_props (w_heap w') (JRef (List.length h))) fld =
     match assoc_get (enumerable_own h extData) fld with
     | Some v => Some v
     | None => assoc_get (enumerable_own h current) fld
     end) /\
  (forall l, l < List.length h -> l <> t ->
     heap_get (w_heap w') l = heap_get h l) /\
  (forall k', k' <> k ->
     assoc_get (toPairs (w_heap w') inst) k' = assoc_get ps k').
Proof.
  intros h inst current Hm Hk Hnd Hndc w'. subst inst.
  assert (Hcur : ExtensionConfig.current_record h
                   (ExtensionConfig.installedExtensions c) k = current).
  { unfold ExtensionConfig.current_record, find_member, current.
    rewrite (mapping_at_props _ _ _ _ Hm).
    destruct (assoc_get ps k); [reflexivity|].
    destruct (inherited k); reflexivity. }
  set (merged := ExtensionConfig.spread h current extData).
  set (h1 := (h ++ [HObject merged])%list).
  pose proof (mapping_at_bound _ _ _ _ Hm) as Hbound.
  change (t < List.length h) in Hbound.
  pose proof (mapping_at_app h _ t ps [HObject merged] Hm) as Hm1.
  fold h1 in Hm1.
  destruct (set_prop_mapping (with_heap w h1) _ t ps k (JRef (List.length h))
              Hm1) as (Hm2 & _ & _ & Hframe).
  rewrite (assign_ordinary ps k _ Hk) in Hm2.
  assert (Hh : w_heap w' =
               w_heap (set_prop (with_heap w h1)
                         (ExtensionConfig.installedExtensions c) k
                         (JRef (List.length h)))).
  { unfold w', ExtensionConfig.updateExtension, alloc. cbv zeta.
    rewrite void_world, write_heap. fold h. rewrite Hcur. reflexivity. }
  assert (Hnew : heap_get (w_heap w') (List.length h) = Some (HObject merged)).
  { rewrite Hh, Hframe by lia. apply heap_get_alloc. }
  split; [|split; [|split]].
  - unfold toPairs. rewrite Hh, (mapping_at_props _ _ _ _ Hm2).
    apply assoc_get_set_same.
  - intros fld. unfold own_props, deref. rewrite Hnew.
    unfold merged, ExtensionConfig.spread.
    rewrite (spread_get _ Hnd), (spread_get _ Hndc). simpl.
    destruct (assoc_get (enumerable_own h current) fld); reflexivity.
  - intros l Hl Hne. rewrite Hh, Hframe by exact Hne.
    simpl. unfold h1, heap_get. apply nth_error_app1. exact Hl.
  - intros k' Hk'. unfold toPairs.
    rewrite Hh, (mapping_at_props _ _ _ _ Hm2).
    apply assoc_get_set_other. exact Hk'.
Qed.

Lemma update_merges_witness :
  let c := ExtensionConfig.mk Driver (JRef 7) [] [] in
  let h := w_heap duplicates_world in
  let ps := [("first", JRef 1); ("second", JRef 3)] in
  let w' := snd (ExtensionConfig.updateExtension env_absent c "first" (JRef 3)
                   duplicates_world) in
  assoc_get (toPairs (w_heap w') (JRef 7)) "first"
    = Some (JRef (List.length h)) /\
  (forall fld,
     assoc_get (own_props (w_heap w') (JRef (List.length h))) fld =
     match assoc_get (enumerable_own h (JRef 3)) fld with
     | Some v => Some v
     | None => assoc_get (enumerable_own h (JRef 1)) fld
     end) /\
  (forall l, l < List.length h -> l <> 4 ->
     heap_get (w_heap w') l = heap_get h l) /\
  (forall k', k' <> "first" ->
     assoc_get (toPairs (w_heap w') (JRef 7)) k' = assoc_get ps k').
Proof.
  apply (update_merges env_absent (ExtensionConfig.mk Driver (JRef 7) [] [])
           duplicates_world 4 [("first", JRef 1); ("second", JRef 3)]
           "first" (JRef 3)).
  - exists 7. split; [reflexivity|]. right. split; reflexivity.
  - discriminate.
  - repeat constructor; simpl; intuition discriminate.
  - repeat constructor; simpl; intuition discriminate.
Defined.



Lemma path_resolve_last (normalise : list string -> string)
  (args : list jsval) (v : jsval) :
  isString v = false ->
  path_resolve normalise (args ++ [v]) = Fail invalid_path_argument.
Proof.
  intros Hv. unfold path_resolve. rewrite rev_app_distr. simpl.
  destruct v; try reflexivity. discriminate.
Qed.

(** X16. The path helpers need an installed name.  For a name that the
    registry's mapping does not have as an own property, [getInstallPath]
    and [getExtensionRequirePath] throw a [TypeError]: the one of
    destructuring undefined, or, for a name that [Object.prototype] has, the
    one of [path.resolve] for an argument that is undefined.  For a name
    whose record is not null or undefined they hand the home directory and
    the record's fields to [path.resolve]; so [getInstallPath] throws a
    [TypeError] when [installPath] is not a string, resolves an absolute
    [installPath] by itself, and resolves any other one against the home
    directory. *)
Theorem path_helpers_need_installed_name
  (normalise : list string -> string) (c : ExtensionConfig.t)
  (w : World) (extName : string) :
  let h := w_heap w in
  let home := _appiumHome (w_io w) in
  let own := assoc_get (own_props h (ExtensionConfig.installedExtensions c))
                       extName in
  (own = None ->
     (exists e, getInstallPath normalise c w extName = Fail e /\
                ename e = "TypeError") /\
     (exists e, getExtensionRequirePath normalise c w extName = Fail e /\
                ename e = "TypeError")) /\
  (forall record, own = Some record -> nullish record = false ->
     getInstallPath normalise c w extName =
       path_resolve normalise [JStr home; get_prop h record "installPath"] /\
     getExtensionRequirePath normalise c w extName =
       path_resolve normalise
         [JStr home; get_prop h record "installPath";
          JStr "node_modules"; get_prop h record "pkgName"] /\
     (isString (get_prop h record "installPath") = false ->
        exists e, getInstallPath normalise c w extName = Fail e /\
                  ename e = "TypeError") /\
     (forall s, get_prop h record "installPath" = JStr s ->
        getInstallPath normalise c w extName =
          Ok (normalise (if is_absolute s then [s] else [home; s])))).
Proof.
  intros h home own. split.
  - intros Hnone. unfold getInstallPath, getExtensionRequirePath,
      installed_record, find_member.
    fold h. fold own. rewrite Hnone.
    destruct (inherited extName); split; eexists; split; reflexivity.
  - intros record Hown Hn.
    assert (Hi : getInstallPath normalise c w extName =
                 path_resolve normalise
                   [JStr home; get_prop h record "installPath"]).
    { unfold getInstallPath, installed_record, find_member, destructure.
      fold h. fold own. rewrite Hown, Hn. reflexivity. }
    split; [exact Hi|]. split; [|split].
    + unfold getExtensionRequirePath, installed_record, find_member,
        destructure.
      fold h. fold own. rewrite Hown, Hn. reflexivity.
    + intros Hs. rewrite Hi.
      pose proof (path_resolve_last normalise [JStr home] _ Hs) as Hlast.
      cbn [app] in Hlast. rewrite Hlast.
      eexists. split; reflexivity.
    + intros s Hs. rewrite Hi, Hs. unfold path_resolve. simpl.
      destruct (is_absolute s); [reflexivity|].
      destruct (is_absolute home); reflexivity.
Qed.

Lemma path_helpers_need_installed_name_witness :
  let c := ExtensionConfig.mk Driver (JRef 7) [] [] in
  let normalise := String.concat "/" in
  ((exists e, getInstallPath normalise c duplicates_world "third" = Fail e /\
              ename e = "TypeError") /\
   (exists e, getExtensionRequirePath normalise c duplicates_world "toString"
              = Fail e /\ ename e = "TypeError")) /\
  getInstallPath normalise c duplicates_world "first"
    = Ok "/home/user/.appium/appium-xcuitest-driver".
Proof.
  pose proof (path_helpers_need_installed_name (String.concat "/")
                (ExtensionConfig.mk Driver (JRef 7) [] [])
                duplicates_world "third") as H1.
  pose proof (path_helpers_need_installed_name (String.concat "/")
                (ExtensionConfig.mk Driver (JRef 7) [] [])
                duplicates_world "toString") as H2.
  pose proof (path_helpers_need_installed_name (String.concat "/")
                (ExtensionConfig.mk Driver (JRef 7) [] [])
                duplicates_world "first") as H3.
  cbv zeta in H1, H2, H3.
  destruct H1 as [H1 _]. destruct H2 as [H2 _]. destruct H3 as [_ H3].
  split; [split|].
  - apply (H1 eq_refl).
  - apply (H2 eq_refl).
  - destruct (H3 (JRef 1) eq_refl eq_refl) as (_ & _ & _ & H).
    apply (H "appium-xcuitest-driver"). reflexivity.
Defined.

Lemma delete_prop_keeps_empty (w : World) (o : jsval) (k : string) (n : loc) :
  heap_get (w_heap w) n = Some (HObject []) ->
  heap_get (w_heap (delete_prop w o k)) n = Some (HObject []).
Proof.
  intros Hn.
  assert (Hdel : forall (h : heap) l,
            heap_get h n = Some (HObject []) ->
            heap_get (obj_del h l k) n = Some (HObject [])).
  { intros h l H0. unfold obj_del.
    destruct (heap_get h l) as [[ps|es|t]|] eqn:Hl; auto.
    destruct (Nat.eq_dec n l) as [->|Hne].
    - rewrite H0 in Hl. injection Hl as <-.
      eapply heap_get_set_same; eauto.
    - rewrite heap_get_set_other; auto. }
  unfold delete_prop. destruct o; auto.
  destruct (heap_get (w_heap w) l) as [[ps|es|t]|] eqn:Hl; auto.
  - simpl. apply Hdel. exact Hn.
  - unfold proxy_delete.
    destruct (has_property _ k); simpl; apply Hdel; exact Hn.
Qed.

Lemma prune_keeps_empty (c : ExtensionConfig.t) (exts : jsval) (n : loc)
  (f : ExtensionConfig.found) :
  forall w, heap_get (w_heap w) n = Some (HObject []) ->
    heap_get (w_heap (snd (ExtensionConfig.prune c exts f w))) n
    = Some (HObject []).
Proof.
  induction f as [|[k [|p0 problems]] rest IH]; intros w Hn; auto.
  - simpl. auto.
  - rewrite prune_step. cbv zeta.
    pose proof (delete_prop_keeps_empty w exts k n Hn) as Hn1.
    destruct (forallb _ (p0 :: problems)); [|exact Hn1].
    specialize (IH (delete_prop w exts k) Hn1).
    destruct (ExtensionConfig.prune c exts rest (delete_prop w exts k))
      as [[lines|e] w2]; exact IH.
Qed.

(** X17. Whatever records [DriverConfig.create] is given, the registry it
    returns has an empty mapping of its own: no name is installed, and the
    path helpers throw for every name.  The records that passed validation
    stay in the mapping that was passed in, not in the registry. *)
Theorem created_registry_is_empty (S : SchemaLib) (extData : jsval)
  (w w' : World) (c : ExtensionConfig.t) :
  DriverConfig.create S extData w = (Ok c, w') ->
  toPairs (w_heap w') (ExtensionConfig.installedExtensions c) = [] /\
  forall extName,
    ExtensionConfig.isInstalled c (w_heap w') extName = false /\
    forall path_resolve,
      exists e, getInstallPath path_resolve c w' extName = Fail e /\
                ename e = "TypeError".
Proof.
  intros Hc.
  assert (Hobj : ExtensionConfig.installedExtensions c
                   = JRef (List.length (w_heap w)) /\
                 heap_get (w_heap w') (List.length (w_heap w))
                   = Some (HObject [])).
  { unfold DriverConfig.create, DriverConfig.constructor,
      ExtensionConfig.constructor, alloc in Hc.
    destruct (truthy extData).
    - unfold DriverConfig.validate, ExtensionConfig.validate in Hc.
      match type of Hc with
      | context [ExtensionConfig.collect ?a ?b ?c0 ?d ?e ?f] =>
          pose proof (driver_collect_installed a d e c0 f) as Hk;
          destruct (ExtensionConfig.collect a b c0 d e f) as [[fp|err] c1]
      end; simpl in Hk; [|discriminate].
      match type of Hc with
      | context [ExtensionConfig.prune ?a ?b ?c0 ?d] =>
          pose proof (prune_keeps_empty a b (List.length (w_heap w)) c0 d
                        (heap_get_alloc (w_heap w) (HObject []))) as Hp;
          destruct (ExtensionConfig.prune a b c0 d) as [[[|line lines]|err] w2]
      end; try discriminate; injection Hc as <- <-; simpl in *; auto.
    - injection Hc as <- <-. simpl. split; [reflexivity|].
      apply heap_get_alloc. }
  destruct Hobj as [Hi Hn].
  assert (Hprops : own_props (w_heap w')
                     (ExtensionConfig.installedExtensions c) = []).
  { rewrite Hi. unfold own_props, deref. rewrite Hn. reflexivity. }
  split; [exact Hprops|].
  intros extName.
  assert (Hni : ExtensionConfig.isInstalled c (w_heap w') extName = false).
  { unfold ExtensionConfig.isInstalled. rewrite Hprops. reflexivity. }
  split; [exact Hni|].
  intros path_resolve. unfold getInstallPath, installed_record, find_member.
  rewrite Hprops. simpl.
  destruct (inherited extName); eexists; split; reflexivity.
Qed.

Lemma created_registry_is_empty_witness :
  let r := DriverConfig.create sample_schema_lib (JRef 7) duplicates_world in
  let w' := snd r in
  toPairs (w_heap w') (JRef 9) = [] /\
  forall extName,
    ExtensionConfig.isInstalled
      (ExtensionConfig.mk Driver (JRef 9) [JStr "XCUITest"]
         [LogHeader "drivers" (Some sample_path);
          LogExtension "driver" "second";
          LogProblem (mkProblem ERR_DUPLICATE (JStr "XCUITest"))])
      (w_heap w') extName = false /\
    forall path_resolve,
      exists e,
        getInstallPath path_resolve
          (ExtensionConfig.mk Driver (JRef 9) [JStr "XCUITest"]
             [LogHeader "drivers" (Some sample_path);
              LogExtension "driver" "second";
              LogProblem (mkProblem ERR_DUPLICATE (JStr "XCUITest"))])
          w' extName = Fail e /\
        ename e = "TypeError".
Proof.
  apply (created_registry_is_empty sample_schema_lib (JRef 7)
           duplicates_world
           (snd (DriverConfig.create sample_schema_lib (JRef 7)
                   duplicates_world))
           (ExtensionConfig.mk Driver (JRef 9) [JStr "XCUITest"]
              [LogHeader "drivers" (Some sample_path);
               LogExtension "driver" "second";
               LogProblem (mkProblem ERR_DUPLICATE (JStr "XCUITest"))])).
  reflexivity.
Defined.

Lemma heap_get_alloc_cases (h : heap) (l : loc) :
  heap_get (h ++ [HObject []])%list l = heap_get h l \/
  (heap_get h l = None /\
   heap_get (h ++ [HObject []])%list l = Some (HObject [])).
Proof.
  unfold heap_get.
  destruct (Nat.lt_ge_cases l (List.length h)) as [Hlt | Hge].
  - left. apply nth_error_app1. exact Hlt.
  - assert (Hnone : nth_error h l = None) by (apply nth_error_None; exact Hge).
    rewrite Hnone, nth_error_app2 by exact Hge.
    destruct (l - List.length h) as [|n]; simpl; [right; auto|].
    left. destruct n; reflexivity.
Qed.

Lemma own_props_empty_alloc (h : heap) (v : jsval) :
  own_props h v = [] -> own_props (h ++ [HObject []])%list v = [].
Proof.
  destruct v; auto. unfold own_props, deref. intros H.
  destruct (heap_get_alloc_cases h l) as [-> | [Hn ->]].
  - destruct (heap_get h l) as [[ps|es|t]|]; auto.
    destruct (heap_get_alloc_cases h t) as [-> | [Hn ->]]; auto.
  - reflexivity.
Qed.

Lemma create_on_empty (S : SchemaLib) (exts : jsval) (w : World) :
  own_props (w_heap w) exts = [] ->
  DriverConfig.create S exts w =
    (Ok (ExtensionConfig.mk Driver (JRef (List.length (w_heap w))) [] []),
     with_heap w (w_heap w ++ [HObject []])%list) /\
  PluginConfig.create S exts w =
    (Ok (ExtensionConfig.mk Plugin (JRef (List.length (w_heap w))) [] []),
     with_heap w (w_heap w ++ [HObject []])%list).
Proof.
  intros He. apply own_props_empty_alloc in He.
  unfold DriverConfig.create, DriverConfig.constructor, PluginConfig.create,
    DriverConfig.validate, PluginConfig.validate, ExtensionConfig.validate,
    ExtensionConfig.constructor, alloc, toPairs.
  cbn [w_heap with_heap]. rewrite He.
  destruct (truthy exts); split; reflexivity.
Qed.

(** [read] of an absent file, with the flag it leaves. *)
Lemma read_absent_clean (E : Env) (w : World) (p : string) (e : jserror) :
  _reading (w_io w) = false ->
  _writing (w_io w) = None ->
  _data (w_io w) = None ->
  resolved_path E (w_io w) = Ok p ->
  fs_readFile E p = Fail e ->
  code e = Some "ENOENT" ->
  fs_step_failure E p (mkSnapshot [] [] (JNum CONFIG_SCHEMA_REV)) = None ->
  exists m w',
    read E false w = (Returned (Some m), w') /\
    snapshot (w_heap w') m = mkSnapshot [] [] (JNum CONFIG_SCHEMA_REV) /\
    _dirty (w_io w') = Some false /\
    w_trace w' =
      (w_trace w ++ path_events (w_io w) ++
         [EvReadFile p; EvMkdirp (path_dirname E p);
          EvWriteFile p (mkSnapshot [] [] (JNum CONFIG_SCHEMA_REV))])%list.
Proof.
  intros Hr Hw Hd Hp Hrf Hc Hfs.
  rewrite read_loads by auto.
  unfold read_body. rewrite resolve_path_spec.
  destruct w as [h [d dat home mp wr rd] tr]; simpl in *. subst.
  unfold resolved_path in *; simpl in *. rewrite Hp.
  unfold load_data. cbn [emit with_heap w_heap w_io w_trace].
  rewrite Hrf, Hc. cbn [alloc].
  set (h1 := (h ++ [HObject []])%list).
  set (h2 := (h1 ++ [HObject []])%list).
  set (fields := [(CONFIG_DATA_DRIVER_KEY, JRef (List.length h));
                  (CONFIG_DATA_PLUGIN_KEY, JRef (List.length h1))]).
  set (h3 := (h2 ++ [HObject fields])%list).
  assert (H3 : heap_get h3 (List.length h2) = Some (HObject fields))
    by apply heap_get_alloc.
  destruct (wrap_data h3 (List.length h2) (List.length h) (List.length h1)
              fields H3 eq_refl eq_refl) as (Hc1 & Hc2 & Hrev).
  rewrite Hc1, Hc2. cbv zeta in Hrev. rewrite Hrev.
  set (h4 := (h3 ++ [HProxy (List.length h)])%list) in *.
  set (h5 := (h4 ++ [HProxy (List.length h1)])%list) in *.
  change (assoc_get fields "schemaRev") with (@None jsval). cbv iota.
  change (nullish_coalesce JUndefined (JNum CONFIG_SCHEMA_REV))
    with (JNum CONFIG_SCHEMA_REV).
  set (m := mkManifest (JRef (List.length h3)) (JRef (List.length h4))
                       (JNum CONFIG_SCHEMA_REV)).
  assert (Hsnap : snapshot h5 m = mkSnapshot [] [] (JNum CONFIG_SCHEMA_REV)).
  { unfold snapshot, m; simpl drivers; simpl plugins; simpl schemaRev.
    assert (Ha : own_props h5 (JRef (List.length h3)) = []).
    { apply (own_props_proxy h5 (List.length h3) (List.length h) []).
      - unfold h5. apply heap_get_app. apply heap_get_alloc.
      - unfold h5, h4, h3, h2. do 4 apply heap_get_app. apply heap_get_alloc. }
    assert (Hb : own_props h5 (JRef (List.length h4)) = []).
    { apply (own_props_proxy h5 (List.length h4) (List.length h1) []).
      - apply heap_get_alloc.
      - unfold h5, h4, h3. do 3 apply heap_get_app. apply heap_get_alloc. }
    rewrite Ha, Hb. reflexivity. }
  erewrite write_success with (m := m) (p := p);
    [ | reflexivity | apply Bool.orb_true_r | reflexivity | reflexivity
      | cbn [w_heap with_io with_heap emit]; rewrite Hsnap; exact Hfs ].
  exists m. eexists. split; [reflexivity|].
  cbn [w_heap with_io with_heap emit w_io w_trace]. split; [exact Hsnap|].
  split; [reflexivity|].
  rewrite Hsnap. unfold path_events. simpl.
  rewrite <- !app_assoc. destruct mp; reflexivity.
Qed.

(** X18. [loadExtensions] on a home directory without a manifest file (the
    store fresh, the file system letting the write through) creates the file
    once, with the empty manifest, and returns a driver registry and a plugin
    registry in which nothing is installed and nothing was logged; the store
    is clean afterwards.  (The plugin registry is the one modelled from the
    spec.) *)
Theorem load_extensions_bootstrap (E : Env) (S : SchemaLib) (w : World)
  (p : string) (e : jserror) :
  _reading (w_io w) = false ->
  _writing (w_io w) = None ->
  _data (w_io w) = None ->
  resolved_path E (w_io w) = Ok p ->
  fs_readFile E p = Fail e ->
  code e = Some "ENOENT" ->
  fs_step_failure E p (mkSnapshot [] [] (JNum 2)) = None ->
  exists cfgs w',
    loadExtensions E S w = (Returned cfgs, w') /\
    w_trace w' =
      (w_trace w ++ path_events (w_io w) ++
         [EvReadFile p; EvMkdirp (path_dirname E p);
          EvWriteFile p (mkSnapshot [] [] (JNum 2))])%list /\
    dirty_truthy (w_io w') = false /\
    ExtensionConfig.logged (driverConfig cfgs) = [] /\
    ExtensionConfig.logged (pluginConfig cfgs) = [] /\
    forall extName,
      ExtensionConfig.isInstalled (driverConfig cfgs) (w_heap w') extName
        = false /\
      ExtensionConfig.isInstalled (pluginConfig cfgs) (w_heap w') extName
        = false.
Proof.
  intros Hr Hw Hd Hp Hrf Hc Hfs.
  destruct (read_absent_clean E w p e Hr Hw Hd Hp Hrf Hc Hfs)
    as (m & w1 & Hread & Hsnap & Hdirty & Htr).
  injection Hsnap as Hd0 Hp0 _.
  destruct (create_on_empty S (drivers m) w1 Hd0) as [Hdc _].
  assert (Hp1 : own_props (w_heap (with_heap w1 (w_heap w1 ++ [HObject []])%list))
                          (plugins m) = [])
    by (apply own_props_empty_alloc; exact Hp0).
  destruct (create_on_empty S (plugins m) _ Hp1) as [_ Hpc].
  unfold loadExtensions. rewrite Hread, Hdc, Hpc.
  eexists. eexists. split; [reflexivity|].
  cbn [w_trace w_io w_heap with_heap driverConfig pluginConfig
       ExtensionConfig.logged].
  split; [exact Htr|]. split.
  - unfold dirty_truthy. rewrite Hdirty. reflexivity.
  - split; [reflexivity|]. split; [reflexivity|].
    intros extName. unfold ExtensionConfig.isInstalled, own_props, deref.
    cbn [ExtensionConfig.installedExtensions].
    rewrite heap_get_alloc.
    rewrite (heap_get_app _ [HObject []] _ _ (heap_get_alloc (w_heap w1) (HObject []))).
    split; reflexivity.
Qed.

Lemma load_extensions_bootstrap_witness :
  exists cfgs w',
    loadExtensions env_absent sample_schema_lib fresh_world
      = (Returned cfgs, w') /\
    w_trace w' =
      (w_trace fresh_world ++ path_events (w_io fresh_world) ++
         [EvReadFile sample_path;
          EvMkdirp (path_dirname env_absent sample_path);
          EvWriteFile sample_path (mkSnapshot [] [] (JNum 2))])%list /\
    dirty_truthy (w_io w') = false /\
    ExtensionConfig.logged (driverConfig cfgs) = [] /\
    ExtensionConfig.logged (pluginConfig cfgs) = [] /\
    forall extName,
      ExtensionConfig.isInstalled (driverConfig cfgs) (w_heap w') extName
        = false /\
      ExtensionConfig.isInstalled (pluginConfig cfgs) (w_heap w') extName
        = false.
Proof.
  apply (load_extensions_bootstrap env_absent sample_schema_lib fresh_world
           sample_path ENOENT_error); reflexivity.
Defined.

(** ** Home directory and manifest location *)

Lemma enoent_match (A : Type) (c : string) (x y : A) :
  match c with "ENOENT" => x | _ => y end =
  if String.eqb c "ENOENT" then x else y.
Proof.
  destruct (String.eqb c "ENOENT") eqn:Hc.
  - apply String.eqb_eq in Hc. subst c. reflexivity.
  - assert (Hne : c <> "ENOENT")
      by (intros ->; rewrite String.eqb_refl in Hc; discriminate).
    repeat (match goal with
            | |- context [match ?s with EmptyString => _ | String _ _ => _ end] =>
                destruct s
            | |- context [match ?a with Ascii.Ascii _ _ _ _ _ _ _ _ => _ end] =>
                destruct a
            | |- context [if ?b then _ else _] => destruct b
            end; try reflexivity; try congruence).
Qed.

(** X19. [resolveAppiumHome] throws a [TypeError] exactly when the working
    directory is not absolute, before anything else is looked at.  For an
    absolute one it never throws and returns one of three directories: the
    value of APPIUM_HOME, the working directory, or the default home; and a
    non-empty APPIUM_HOME wins over everything the project contains. *)
Theorem resolve_home_cases (sys : EnvJs.Sys) (cwd : string) :
  (EnvJs.isAbsolute sys cwd = false ->
     EnvJs.resolveAppiumHome sys cwd =
       Fail (TypeError "Path to cwd must be absolute")) /\
  (EnvJs.isAbsolute sys cwd = true ->
     exists home,
       EnvJs.resolveAppiumHome sys cwd = Ok home /\
       (EnvJs.APPIUM_HOME sys = Some home \/ home = cwd \/
        home = EnvJs.DEFAULT_APPIUM_HOME sys)) /\
  (EnvJs.isAbsolute sys cwd = true ->
     forall home, EnvJs.APPIUM_HOME sys = Some home -> home <> "" ->
       EnvJs.resolveAppiumHome sys cwd = Ok home).
Proof.
  unfold EnvJs.resolveAppiumHome.
  assert (Hproj : EnvJs.home_of_project sys cwd = cwd \/
                  EnvJs.home_of_project sys cwd = EnvJs.DEFAULT_APPIUM_HOME sys).
  { unfold EnvJs.home_of_project, EnvJs.getLocalAppiumInfo.
    destruct (EnvJs.readPackageInDir sys cwd); auto.
    destruct (_ || _); auto. }
  split; [|split].
  - intros ->. reflexivity.
  - intros ->. simpl.
    destruct (EnvJs.APPIUM_HOME sys) as [home|].
    + destruct (String.eqb home ""); simpl; eexists; split; try reflexivity;
        tauto.
    + eexists; split; [reflexivity|]. tauto.
  - intros -> home -> Hne. simpl.
    destruct (String.eqb home "") eqn:He; [|reflexivity].
    apply String.eqb_eq in He. contradiction.
Qed.

Lemma resolve_home_cases_witness :
  EnvJs.resolveAppiumHome sample_sys "project" =
    Fail (TypeError "Path to cwd must be absolute") /\
  exists home,
    EnvJs.resolveAppiumHome sample_sys "/project" = Ok home /\
    (EnvJs.APPIUM_HOME sample_sys = Some home \/ home = "/project" \/
     home = EnvJs.DEFAULT_APPIUM_HOME sample_sys).
Proof.
  destruct (resolve_home_cases sample_sys "project") as (H1 & _ & _).
  destruct (resolve_home_cases sample_sys "/project") as (_ & H2 & _).
  split; [apply H1; reflexivity | apply H2; reflexivity].
Defined.

(** X20. With no APPIUM_HOME and an absolute working directory in which
    appium is installed locally: if reading [package.json] fails because the
    file is missing, or succeeds, the home is the working directory; but if
    reading it fails for any other reason, the error is swallowed and the
    home is the default one, the local installation notwithstanding. *)
Theorem unreadable_package_hides_local_install (sys : EnvJs.Sys)
  (cwd : string) :
  EnvJs.isAbsolute sys cwd = true ->
  EnvJs.truthy_string (EnvJs.APPIUM_HOME sys) = false ->
  EnvJs.hasLocalAppium sys cwd = true ->
  (forall pkg, EnvJs.readPackage sys cwd = Ok pkg ->
     EnvJs.resolveAppiumHome sys cwd = Ok cwd) /\
  (forall e, EnvJs.readPackage sys cwd = Fail e -> is_ENOENT e = true ->
     EnvJs.resolveAppiumHome sys cwd = Ok cwd) /\
  (forall e, EnvJs.readPackage sys cwd = Fail e -> is_ENOENT e = false ->
     EnvJs.resolveAppiumHome sys cwd = Ok (EnvJs.DEFAULT_APPIUM_HOME sys)).
Proof.
  intros Habs Henv Hlocal.
  assert (Hres : EnvJs.resolveAppiumHome sys cwd =
                 Ok (EnvJs.home_of_project sys cwd)).
  { unfold EnvJs.resolveAppiumHome. rewrite Habs. simpl.
    unfold EnvJs.truthy_string in Henv.
    destruct (EnvJs.APPIUM_HOME sys) as [home|]; [|reflexivity].
    rewrite Henv. reflexivity. }
  rewrite Hres.
  unfold EnvJs.home_of_project, EnvJs.readPackageInDir,
    EnvJs.getLocalAppiumInfo.
  rewrite Hlocal.
  split; [|split].
  - intros pkg ->. reflexivity.
  - intros e -> He. unfold is_ENOENT in He.
    destruct (code e) as [c|]; [|discriminate].
    rewrite enoent_match, He. reflexivity.
  - intros e -> He. unfold is_ENOENT in He.
    destruct (code e) as [c|]; [|reflexivity].
    rewrite enoent_match, He. reflexivity.
Qed.

Lemma unreadable_package_hides_local_install_witness :
  EnvJs.resolveAppiumHome sample_sys "/project" = Ok "/home/user/.appium".
Proof.
  destruct (unreadable_package_hides_local_install sample_sys "/project"
              eq_refl eq_refl eq_refl) as (_ & _ & H).
  apply (H (mkError "JSONError" None "Unexpected token")); reflexivity.
Defined.

(** X21. With no APPIUM_HOME, an absolute working directory and a readable
    [package.json]: the first of [dependencies], [devDependencies] and
    [bundleDependencies] that has an [appium] entry decides.  If its version
    is not the empty string the home is the working directory, installed or
    not.  If it is the empty string and appium is not installed locally, the
    home is the default one, even when a later table has a version. *)
Theorem declared_dependency_decides (sys : EnvJs.Sys) (cwd v : string)
  (pkg : EnvJs.PackageJson) :
  EnvJs.isAbsolute sys cwd = true ->
  EnvJs.truthy_string (EnvJs.APPIUM_HOME sys) = false ->
  EnvJs.readPackage sys cwd = Ok pkg ->
  EnvJs.appium_of (EnvJs.dependencies pkg) = Some v \/
  (EnvJs.appium_of (EnvJs.dependencies pkg) = None /\
   EnvJs.appium_of (EnvJs.devDependencies pkg) = Some v) \/
  (EnvJs.appium_of (EnvJs.dependencies pkg) = None /\
   EnvJs.appium_of (EnvJs.devDependencies pkg) = None /\
   EnvJs.appium_of (EnvJs.bundleDependencies pkg) = Some v) ->
  (v <> "" -> EnvJs.resolveAppiumHome sys cwd = Ok cwd) /\
  (v = "" -> EnvJs.hasLocalAppium sys cwd = false ->
     EnvJs.resolveAppiumHome sys cwd = Ok (EnvJs.DEFAULT_APPIUM_HOME sys)).
Proof.
  intros Habs Henv Hpkg Hdep.
  assert (Hres : EnvJs.resolveAppiumHome sys cwd =
                 Ok (EnvJs.home_of_project sys cwd)).
  { unfold EnvJs.resolveAppiumHome. rewrite Habs. simpl.
    unfold EnvJs.truthy_string in Henv.
    destruct (EnvJs.APPIUM_HOME sys) as [home|]; [|reflexivity].
    rewrite Henv. reflexivity. }
  assert (Hv : EnvJs.getAppiumDependencyFromPackage (Some pkg) = Some v).
  { unfold EnvJs.getAppiumDependencyFromPackage.
    destruct Hdep as [-> | [[-> ->] | (-> & -> & ->)]]; reflexivity. }
  rewrite Hres.
  unfold EnvJs.home_of_project, EnvJs.readPackageInDir,
    EnvJs.getLocalAppiumInfo.
  rewrite Hpkg, Hv. simpl.
  split.
  - intros Hne. destruct (String.eqb v "") eqn:He.
    + apply String.eqb_eq in He. contradiction.
    + rewrite Bool.orb_true_r. reflexivity.
  - intros -> ->. reflexivity.
Qed.

Lemma declared_dependency_decides_witness :
  let sys :=
    EnvJs.mkSys (fun _ => true) None
      (fun _ => Ok (EnvJs.mkPackageJson (Some [("appium", "")])
                      (Some [("appium", "^2.0.0")]) None))
      (fun _ _ => Fail ENOENT_error) (String.concat "/")
      "/home/user/.appium" in
  EnvJs.resolveAppiumHome sys "/project" = Ok "/home/user/.appium".
Proof.
  cbv zeta.
  match goal with
  | |- EnvJs.resolveAppiumHome ?sys _ = _ =>
      destruct (declared_dependency_decides sys "/project" ""
                  (EnvJs.mkPackageJson (Some [("appium", "")])
                     (Some [("appium", "^2.0.0")]) None)
                  eq_refl eq_refl eq_refl (or_introl eq_refl)) as [_ H]
  end.
  apply H; reflexivity.
Defined.

(** X22. A store that takes its manifest path from [lib/env.js] and finds
    no manifest file creates it at [<home>/extensions.yaml], or, when appium
    is installed locally in the home directory, at the cache path under
    [<home>/node_modules]; asking for the path does not fail. *)
Theorem manifest_location (sys : EnvJs.Sys) (E : Env) (home : string)
  (h : heap) (tr : list event) (e : jserror) :
  let E' := with_env_js sys E in
  let p :=
    if EnvJs.hasLocalAppium sys home
    then EnvJs.join sys
           [home; EnvJs.join sys ["node_modules"; ".cache"; "appium";
                                  "extensions.yaml"]]
    else EnvJs.join sys [home; "extensions.yaml"] in
  fs_readFile E p = Fail e ->
  code e = Some "ENOENT" ->
  fs_step_failure E p (mkSnapshot [] [] (JNum 2)) = None ->
  exists m w',
    read E' false (mkWorld h (constructor home) tr) = (Returned (Some m), w') /\
    w_trace w' =
      (tr ++ [EvGetManifestPath home; EvReadFile p;
              EvMkdirp (path_dirname E p);
              EvWriteFile p (mkSnapshot [] [] (JNum 2))])%list.
Proof.
  intros E' p Hrf Hc Hfs.
  destruct (read_absent_clean E' (mkWorld h (constructor home) tr) p e)
    as (m & w' & Hread & _ & _ & Htr); try reflexivity; try assumption.
  exists m, w'. split; [exact Hread|]. exact Htr.
Qed.

Lemma manifest_location_witness :
  exists m w',
    read (with_env_js sample_sys env_absent) false
         (mkWorld [] (constructor "/project") []) = (Returned (Some m), w') /\
    w_trace w' =
      [EvGetManifestPath "/project";
       EvReadFile "/project/node_modules/.cache/appium/extensions.yaml";
       EvMkdirp "/home/user/.appium";
       EvWriteFile "/project/node_modules/.cache/appium/extensions.yaml"
         (mkSnapshot [] [] (JNum 2))].
Proof.
  apply (manifest_location sample_sys env_absent "/project" [] []
           ENOENT_error); reflexivity.
Defined.

(** ** One store per home directory *)

Lemma cached_app (c : list (string * nat)) (k home : string) (i : nat) :
  Instances.cached (c ++ [(k, i)]) home =
  match Instances.cached c home with
  | Some j => Some j
  | None => if String.eqb k home then Some i else None
  end.
Proof.
  induction c as [|[k0 i0] r IH]; simpl; [reflexivity|].
  destruct (String.eqb k0 home); [reflexivity|exact IH].
Qed.

Lemma instances_ok_step (home : string) (s : Instances.t) :
  instances_ok s ->
  instances_ok (snd (Instances.getManifestIOInstance home s)).
Proof.
  intros Hok. unfold Instances.getManifestIOInstance.
  destruct (Instances.cached (Instances.cache s) home) eqn:Hc; [exact Hok|].
  intros home' i. simpl. rewrite cached_app.
  destruct (Instances.cached (Instances.cache s) home') eqn:Hc'.
  - intros H. injection H as <-.
    pose proof (Hok home' n Hc') as Hn.
    rewrite nth_error_app1; [exact Hn|].
    apply nth_error_Some. congruence.
  - destruct (String.eqb home home') eqn:He; [|discriminate].
    apply String.eqb_eq in He. subst home'.
    intros H. injection H as <-.
    rewrite nth_error_app2 by lia. rewrite Nat.sub_diag. reflexivity.
Qed.

Lemma instances_ok_after (homes : list string) :
  instances_ok (Instances.after homes).
Proof.
  unfold Instances.after.
  assert (H : forall s, instances_ok s ->
            instances_ok (fold_left
                            (fun s home =>
                               snd (Instances.getManifestIOInstance home s))
                            homes s)).
  { induction homes as [|home homes IH]; intros s Hs; [exact Hs|].
    simpl. apply IH. apply instances_ok_step. exact Hs. }
  apply H. intros home i Hc. discriminate.
Qed.

(** X23. [getManifestIOInstance] gives one store per home directory: after
    any sequence of earlier requests, asking twice for the same home gives
    the same store and the second request changes nothing; asking for two
    different homes gives two different stores; and the store given is the
    one constructed for the home that was asked for. *)
Theorem one_store_per_home (homes : list string) (home1 home2 : string) :
  let s := Instances.after homes in
  let r1 := Instances.getManifestIOInstance home1 s in
  let r2 := Instances.getManifestIOInstance home2 (snd r1) in
  (home1 = home2 -> fst r1 = fst r2 /\ snd r2 = snd r1) /\
  (home1 <> home2 -> fst r1 <> fst r2) /\
  nth_error (Instances.stores (snd r2)) (fst r1) = Some (constructor home1) /\
  nth_error (Instances.stores (snd r2)) (fst r2) = Some (constructor home2).
Proof.
  intros s r1 r2.
  pose proof (instances_ok_after homes) as Hs. fold s in Hs.
  pose proof (instances_ok_step home1 s Hs) as H1. fold r1 in H1.
  pose proof (instances_ok_step home2 (snd r1) H1) as H2. fold r2 in H2.
  assert (Hc1 : Instances.cached (Instances.cache (snd r1)) home1
                = Some (fst r1)).
  { unfold r1, Instances.getManifestIOInstance.
    destruct (Instances.cached (Instances.cache s) home1) eqn:Hc; simpl;
      [exact Hc|].
    rewrite cached_app, Hc, String.eqb_refl. reflexivity. }
  assert (Hc2 : Instances.cached (Instances.cache (snd r2)) home2
                = Some (fst r2)).
  { unfold r2, Instances.getManifestIOInstance.
    destruct (Instances.cached (Instances.cache (snd r1)) home2) eqn:Hc; simpl;
      [exact Hc|].
    rewrite cached_app, Hc, String.eqb_refl. reflexivity. }
  assert (Hc12 : Instances.cached (Instances.cache (snd r2)) home1
                 = Some (fst r1)).
  { unfold r2, Instances.getManifestIOInstance.
    destruct (Instances.cached (Instances.cache (snd r1)) home2) eqn:Hc; simpl;
      [exact Hc1|].
    rewrite cached_app, Hc1. reflexivity. }
  split; [|split; [|split]].
  - intros <-. unfold r2, Instances.getManifestIOInstance.
    rewrite Hc1. simpl. auto.
  - intros Hne Heq.
    pose proof (H2 home1 (fst r1) Hc12) as Ha.
    pose proof (H2 home2 (fst r2) Hc2) as Hb.
    rewrite Heq, Hb in Ha. injection Ha as Hh. congruence.
  - apply H2. exact Hc12.
  - apply H2. exact Hc2.
Qed.

Lemma one_store_per_home_witness :
  let s := Instances.after ["/a"; "/b"] in
  let r1 := Instances.getManifestIOInstance "/b" s in
  let r2 := Instances.getManifestIOInstance "/c" (snd r1) in
  fst r1 <> fst r2 /\
  nth_error (Instances.stores (snd r2)) (fst r1) = Some (constructor "/b").
Proof.
  destruct (one_store_per_home ["/a"; "/b"] "/b" "/c") as (_ & H & H1 & _).
  split; [apply H; discriminate | exact H1].
Defined.

(** ** Manifest files that are not manifests *)

(** X24. When the manifest file parses, but to null (an empty file) or to an
    object whose [drivers] or [plugins] is not an object, [read()] rejects
    with a bare [TypeError]: unlike a read or parse failure, the error is not
    wrapped and does not name the file.  No manifest is loaded and the
    in-flight read handle is cleared. *)
Theorem malformed_manifest_rejected (E : Env) (force : bool) (w : World)
  (p text : string) (y : yaml) (data : jsval) (h' : heap) (ld : loc)
  (fields : props) :
  _reading (w_io w) = false ->
  _data (w_io w) = None \/ force = true ->
  resolved_path E (w_io w) = Ok p ->
  fs_readFile E p = Ok text ->
  YAML_parse E text = Ok y ->
  alloc_yaml y (w_heap w) = (data, h') ->
  nullish data = true \/
  (data = JRef ld /\ heap_get h' ld = Some (HObject fields) /\
   (isObject (get_prop h' data "drivers") = false \/
    isObject (get_prop h' data "plugins") = false)) ->
  exists e w',
    read E force w = (Threw e, w') /\
    ename e = "TypeError" /\
    _data (w_io w') = _data (w_io w) /\
    _reading (w_io w') = false /\
    filter is_write (w_trace w') = filter is_write (w_trace w).
Proof.
  intros Hr Hd Hp Hrf Hy Hal Hbad.
  rewrite read_loads by auto.
  unfold read_body. rewrite resolve_path_spec.
  destruct w as [h [dd dat home mp wr rd] tr]; simpl in *. subst rd.
  unfold resolved_path in *; simpl in *. rewrite Hp.
  unfold load_data. cbn [emit with_heap w_heap w_io w_trace].
  rewrite Hrf, Hy, Hal.
  assert (Htr : filter is_write
                  ((tr ++ path_events (mkIO dd dat home mp wr true))
                     ++ [EvReadFile p]) = filter is_write tr).
  { rewrite !filter_app. unfold path_events; simpl.
    destruct mp; simpl; rewrite ?app_nil_r; reflexivity. }
  destruct Hbad as [Hnull | (-> & Hld & Hobj)].
  - unfold _createProxy. rewrite Hnull.
    eexists. eexists. split; [reflexivity|]. simpl. auto.
  - unfold _createProxy at 1. simpl nullish. cbv iota.
    change (DRIVER_TYPE ++ "s") with "drivers".
    destruct (get_prop h' (JRef ld) "drivers") as [| | | | |d] eqn:Hdr;
      try (eexists; eexists; split; [reflexivity|]; simpl; auto).
    destruct Hobj as [Hobj | Hobj]; [discriminate|].
    cbn [alloc].
    unfold _createProxy. simpl nullish. cbv iota.
    change (PLUGIN_TYPE ++ "s") with "plugins".
    assert (Hpl : get_prop (h' ++ [HProxy d])%list (JRef ld) "plugins"
                  = get_prop h' (JRef ld) "plugins").
    { rewrite (get_prop_object _ _ _ _ Hld).
      apply get_prop_object. apply heap_get_app. exact Hld. }
    rewrite Hpl.
    destruct (get_prop h' (JRef ld) "plugins") as [| | | | |pl];
      try discriminate;
      eexists; eexists; (split; [reflexivity|]); simpl; auto.
Qed.

Lemma malformed_manifest_rejected_witness :
  exists e w',
    read (env_present YNull) false fresh_world = (Threw e, w') /\
    ename e = "TypeError" /\
    _data (w_io w') = _data (w_io fresh_world) /\
    _reading (w_io w') = false /\
    filter is_write (w_trace w') = filter is_write (w_trace fresh_world).
Proof.
  apply (malformed_manifest_rejected (env_present YNull) false fresh_world
           sample_path "manifest text" YNull JNull [] 0 []);
    try reflexivity; left; reflexivity.
Defined.

Lemma prune_io (c : ExtensionConfig.t) (exts : jsval)
  (f : ExtensionConfig.found) :
  forall w,
    w_io (snd (ExtensionConfig.prune c exts f w)) = w_io w \/
    w_io (snd (ExtensionConfig.prune c exts f w)) = set_dirty (w_io w) true.
Proof.
  induction f as [|[k [|p0 problems]] rest IH]; intros w; auto.
  - simpl. auto.
  - rewrite prune_step. cbv zeta.
    destruct (forallb _ (p0 :: problems)); [|apply delete_prop_io].
    specialize (IH (delete_prop w exts k)).
    destruct (ExtensionConfig.prune c exts rest (delete_prop w exts k))
      as [[lines|e] w2]; cbn [snd] in *;
      (destruct (delete_prop_io w exts k) as [Hd | Hd]; rewrite Hd in IH;
       destruct IH as [-> | ->]; auto).
Qed.

(** X25. Pruning reaches the file with the next write.  When the drivers of
    a loaded store are validated, the entry [k] has a problem and the
    offending values found can be serialised, [validate] returns, and the
    [write()] that follows (the file system succeeding) returns [true]; the
    content it writes has no entry [k] among the drivers.  [validate] itself
    writes nothing. *)
Theorem pruned_entry_leaves_the_file (E : Env) (S : SchemaLib)
  (hook : ExtensionConfig.t -> heap -> jsval ->
          result (list Problem) * ExtensionConfig.t)
  (c c1 : ExtensionConfig.t) (w : World) (m : Manifest) (lp t : loc)
  (ps : props) (f : ExtensionConfig.found) (k p : string) (p0 : Problem)
  (problems : list Problem) :
  _data (w_io w) = Some m ->
  drivers m = JRef lp ->
  _writing (w_io w) = None ->
  resolved_path E (w_io w) = Ok p ->
  heap_get (w_heap w) lp = Some (HProxy t) ->
  heap_get (w_heap w) t = Some (HObject ps) ->
  ExtensionConfig.collect S hook c (w_heap w) ps [] = (Ok f, c1) ->
  In (k, p0 :: problems) f ->
  assoc_has ps k = true ->
  (forall k' qs q, In (k', qs) f -> In q qs ->
     JSON_stringify_ok (w_heap w) (val q) = true) ->
  exists c' w1,
    ExtensionConfig.validate S hook c (drivers m) w
      = (Ok (drivers m), c', w1) /\
    filter is_write (w_trace w1) = filter is_write (w_trace w) /\
    (fs_step_failure E p (snapshot (w_heap w1) m) = None ->
     exists w2 content,
       write E false w1 = (Returned true, w2) /\
       In (EvWriteFile p content) (w_trace w2) /\
       assoc_has (snap_drivers content) k = false).
Proof.
  intros Hdat Hdrv Hwr Hpath Hp Ht Hrun Hin Hhas Hser.
  destruct (own_props_proxy _ _ _ _ Hp Ht) as [Hop _].
  assert (Hm : mapping_at (w_heap w) (JRef lp) t ps).
  { exists lp. split; [reflexivity|]. right. auto. }
  pose proof (pruned_names_of_entry k p0 problems f Hin) as Hbad.
  destruct (prune_spec c1 (JRef lp) t f w ps Hm Hser)
    as (w1 & Hprune & Hm1 & Htr & _).
  pose proof (prune_marks_dirty c1 lp t k f w w1 ps _ Hp Ht Hbad Hhas Hprune)
    as Hdirty.
  pose proof (prune_io c1 (JRef lp) f w) as Hio.
  rewrite Hprune in Hio. cbn [snd] in Hio.
  eexists. exists w1. split; [|split].
  - unfold ExtensionConfig.validate, toPairs.
    rewrite Hdrv, Hop, Hrun, Hprune. reflexivity.
  - rewrite Htr. reflexivity.
  - intros Hfs.
    assert (Hfacts : _data (w_io w1) = Some m /\ _writing (w_io w1) = None /\
                     resolved_path E (w_io w1) = Ok p).
    { destruct Hio as [-> | ->]; auto. }
    destruct Hfacts as (Hdat1 & Hwr1 & Hpath1).
    eexists. exists (snapshot (w_heap w1) m). split; [|split].
    + apply (write_success E false w1 m p); auto.
      unfold dirty_truthy. rewrite Hdirty. reflexivity.
    + simpl. apply in_or_app. right. apply in_or_app. right. simpl. auto.
    + unfold snapshot. simpl snap_drivers. rewrite Hdrv.
      rewrite (mapping_at_props _ _ _ _ Hm1). unfold assoc_has.
      rewrite (fold_del_absent _ _ _ Hbad). reflexivity.
Qed.

Lemma pruned_entry_leaves_the_file_witness :
  exists c' w1,
    ExtensionConfig.validate sample_schema_lib DriverConfig.getConfigProblems
      sample_registry (drivers duplicates_manifest) duplicates_world
      = (Ok (drivers duplicates_manifest), c', w1) /\
    filter is_write (w_trace w1) = filter is_write (w_trace duplicates_world) /\
    (fs_step_failure env_absent sample_path
       (snapshot (w_heap w1) duplicates_manifest) = None ->
     exists w2 content,
       write env_absent false w1 = (Returned true, w2) /\
       In (EvWriteFile sample_path content) (w_trace w2) /\
       assoc_has (snap_drivers content) "second" = false).
Proof.
  apply (pruned_entry_leaves_the_file env_absent sample_schema_lib
           DriverConfig.getConfigProblems sample_registry
           (ExtensionConfig.with_known sample_registry [JStr "XCUITest"])
           duplicates_world duplicates_manifest 7 4
           [("first", JRef 1); ("second", JRef 3)]
           [("first", []);
            ("second", [mkProblem ERR_DUPLICATE (JStr "XCUITest")])]
           "second" sample_path (mkProblem ERR_DUPLICATE (JStr "XCUITest")) []);
    try reflexivity.
  - right. left. reflexivity.
  - intros k' qs q [H | [H | []]] Hq; injection H as <- <-.
    + destruct Hq.
    + destruct Hq as [<- | []]. reflexivity.
Defined.
